(** * The asteroids game engine of game.c, embedded in Rocq

    The engine keeps its whole state in five globals (the base position, the
    two entity counts and the two position arrays) and talks to the outside
    world through calls that return nothing to it (display, sound) or that
    keep a counter of their own (score, lives, the C library's random()).
    The embedding below threads one [State] record through every function:
    the five globals, the pause flag, the two counters of the score module,
    the number of random() calls made so far and the list of display and
    sound calls issued.

    Two smaller files are embedded after the engine's own functions: the
    SPI driver of spi.c, in the module [Spi], and the terminal control of
    terminalio.c, in the module [Terminal].

    Integers are modelled as [Z] with the conversions of C written out:
    [to_uint8] where a value is stored in a uint8_t, [to_int8] where it is
    stored in an int8_t.  The arrays are lists of bytes of the arrays' fixed
    length, read with [rd] and written with [wr]. *)

From Stdlib Require Import ZArith Lia Bool List Permutation Sorted DecimalString.
From stdpp Require Import base list sorting strings.

Local Open Scope Z_scope.

(** ** Machine integers *)

Definition to_uint8 (z : Z) : Z := z mod 256.
Definition to_int8 (z : Z) : Z := (z + 128) mod 256 - 128.

(** ** Positions (the macros at the top of game.c) *)

Definition GAME_POSITION (x y : Z) : Z := Z.lor (Z.shiftl x 4) (Z.land y 15).
Definition GET_X_POSITION (posn : Z) : Z := Z.shiftr posn 4.
Definition GET_Y_POSITION (posn : Z) : Z := Z.land posn 15.
Definition INVALID_POSITION : Z := 255.

(** Modelled from the spec: FIELD_WIDTH is defined in game.h, which is not
    among the sources.  The spec has a field of 8 columns; game.c writes 7
    for the last one. *)
Definition FIELD_WIDTH : Z := 8.

(** Modelled from the spec: FIELD_HEIGHT is defined in game.h, which is not
    among the sources.  The spec has a field of 16 rows; game.c writes 8*16
    for the number of cells. *)
Definition FIELD_HEIGHT : Z := 16.

(** Modelled from the spec: MOVE_LEFT is defined in game.h, which is not
    among the sources.  The spec has the two directions, left and right; the
    comment in [move_base] gives their codes. *)
Definition MOVE_LEFT : Z := 0.

(** Modelled from the spec: MOVE_RIGHT is defined in game.h, as MOVE_LEFT
    is. *)
Definition MOVE_RIGHT : Z := 1.

(** ** Calls to the collaborators *)

(** The colours game.c draws with and the tracks it plays; the values
    behind the names (pixel_colour.h, sound.h) play no part in the engine. *)
Inductive Colour := COLOUR_BLACK | COLOUR_ASTEROID | COLOUR_PROJECTILE | COLOUR_BASE.
Inductive Track := TRACK_COIN | TRACK_ERROR.

(** One constructor per display, terminal or sound routine game.c calls;
    none of them returns anything to the engine. *)
Inductive Event :=
| reset_frame
| new_frame
| draw_frame
| s_invalidate_mode
| print_terminal_buffer
| ledmatrix_clear
| set_display_attribute_TERM_RESET
| set_pixel (x y : Z) (colour : Colour)
| play_track (t : Track).

(** ** The state *)

Record State := mkState {
  basePosition : Z;            (* int8_t *)
  numProjectiles : Z;          (* int8_t *)
  projectiles : list Z;        (* uint8_t [MAX_PROJECTILES] *)
  numAsteroids : Z;            (* int8_t *)
  asteroids : list Z;          (* uint8_t [MAX_ASTEROIDS] *)
  paused : Z;                  (* uint8_t *)
  score : Z;                   (* kept by the score module *)
  lives : Z;                   (* kept by the score module *)
  rand_calls : nat;            (* how many times random() has been called *)
  trace : list Event           (* collaborator calls, most recent first *)
}.

Definition set_basePosition (v : Z) (s : State) : State :=
  mkState v (numProjectiles s) (projectiles s) (numAsteroids s) (asteroids s)
          (paused s) (score s) (lives s) (rand_calls s) (trace s).
Definition set_numProjectiles (v : Z) (s : State) : State :=
  mkState (basePosition s) v (projectiles s) (numAsteroids s) (asteroids s)
          (paused s) (score s) (lives s) (rand_calls s) (trace s).
Definition set_projectiles (v : list Z) (s : State) : State :=
  mkState (basePosition s) (numProjectiles s) v (numAsteroids s) (asteroids s)
          (paused s) (score s) (lives s) (rand_calls s) (trace s).
Definition set_numAsteroids (v : Z) (s : State) : State :=
  mkState (basePosition s) (numProjectiles s) (projectiles s) v (asteroids s)
          (paused s) (score s) (lives s) (rand_calls s) (trace s).
Definition set_asteroids (v : list Z) (s : State) : State :=
  mkState (basePosition s) (numProjectiles s) (projectiles s) (numAsteroids s) v
          (paused s) (score s) (lives s) (rand_calls s) (trace s).
Definition set_paused_field (v : Z) (s : State) : State :=
  mkState (basePosition s) (numProjectiles s) (projectiles s) (numAsteroids s)
          (asteroids s) v (score s) (lives s) (rand_calls s) (trace s).
Definition set_score (v : Z) (s : State) : State :=
  mkState (basePosition s) (numProjectiles s) (projectiles s) (numAsteroids s)
          (asteroids s) (paused s) v (lives s) (rand_calls s) (trace s).
Definition set_lives (v : Z) (s : State) : State :=
  mkState (basePosition s) (numProjectiles s) (projectiles s) (numAsteroids s)
          (asteroids s) (paused s) (score s) v (rand_calls s) (trace s).
Definition set_rand_calls (v : nat) (s : State) : State :=
  mkState (basePosition s) (numProjectiles s) (projectiles s) (numAsteroids s)
          (asteroids s) (paused s) (score s) (lives s) v (trace s).
Definition emit (e : Event) (s : State) : State :=
  mkState (basePosition s) (numProjectiles s) (projectiles s) (numAsteroids s)
          (asteroids s) (paused s) (score s) (lives s) (rand_calls s) (e :: trace s).

(** Modelled from the spec: add_to_score belongs to score.c, which is not
    among the sources.  The spec has the store add the delta to the score. *)
Definition add_to_score (delta : Z) (s : State) : State := set_score (score s + delta) s.

(** Modelled from the spec: change_lives belongs to score.c, which is not
    among the sources.  The spec has the store add the delta to the lives. *)
Definition change_lives (delta : Z) (s : State) : State := set_lives (lives s + delta) s.

(** Modelled from the spec: get_lives belongs to score.c, which is not among
    the sources.  The spec has it return the lives left. *)
Definition get_lives (s : State) : Z := lives s.

(** ** Arrays and loops *)

(** [a[i]] and [a[i] = v].  C leaves an access outside the array undefined;
    here a read outside yields 0 and a write outside does nothing.  The
    theorems below are about states whose counts stay within the arrays,
    where no such access is made. *)
Definition rd (a : list Z) (i : Z) : Z := default 0 (a !! Z.to_nat i).
Definition wr (a : list Z) (i : Z) (v : Z) : list Z := <[Z.to_nat i := v]> a.

(** [for (i = lo; i < hi; i++) body], for a body that changes neither [i]
    nor [hi]: [n] iterations starting at [i].  The counters of game.c's for
    loops are uint8_t and stay below the int8_t count or the capacity they
    are compared with, so that [i + 1] never wraps. *)
Fixpoint for_loop {A : Type} (n : nat) (i : Z) (body : Z -> A -> A) (a : A) : A :=
  match n with
  | O => a
  | S n' => for_loop n' (i + 1) body (body i a)
  end.

Definition for_range {A : Type} (lo hi : Z) (body : Z -> A -> A) (a : A) : A :=
  for_loop (Z.to_nat (hi - lo)) lo body a.

(** One step of closing a gap: [a[i-1] = a[i]]. *)
Definition shift_down (i : Z) (a : list Z) : list Z := wr a (i - 1) (rd a i).

(** The scanning loop shared by [asteroid_at] and [projectile_at]: the first
    index [i], among the next [n], with [a[i] = positionToCheck], as an
    int8_t; -1 when there is none. *)
Fixpoint scan (a : list Z) (positionToCheck : Z) (n : nat) (i : Z) : Z :=
  match n with
  | O => -1
  | S n' => if rd a i =? positionToCheck then to_int8 i
            else scan a positionToCheck n' (i + 1)
  end.

(** ** Drawing *)

Definition redraw_asteroid (asteroidNumber : Z) (colour : Colour) (s : State) : State :=
  let asteroidNumber := to_uint8 asteroidNumber in
  if asteroidNumber <? numAsteroids s then
    let asteroidPosn := rd (asteroids s) asteroidNumber in
    emit (set_pixel (GET_X_POSITION asteroidPosn) (GET_Y_POSITION asteroidPosn) colour) s
  else s.

Definition redraw_projectile (projectileNumber : Z) (colour : Colour) (s : State) : State :=
  let projectileNumber := to_uint8 projectileNumber in
  if projectileNumber <? numProjectiles s then
    let projectilePosn := rd (projectiles s) projectileNumber in
    emit (set_pixel (GET_X_POSITION projectilePosn) (GET_Y_POSITION projectilePosn) colour) s
  else s.

Definition redraw_all_asteroids (s : State) : State :=
  for_range 0 (numAsteroids s) (fun i => redraw_asteroid i COLOUR_ASTEROID) s.

Definition redraw_all_projectiles (s : State) : State :=
  for_range 0 (numProjectiles s) (fun i => redraw_projectile i COLOUR_PROJECTILE) s.

(** The for loop of [redraw_base].  Its counter [x] is an int8_t, which the
    test compares, as an int, with basePosition+1: [x + 1] wraps at 127, so
    that the test never fails when basePosition+1 is 127 or more.  [None]
    when the fuel runs out before the test fails. *)
Fixpoint redraw_base_loop (fuel : nat) (x : Z) (colour : Colour) (s : State) : option State :=
  match fuel with
  | O => None
  | S fuel' =>
      if x <=? basePosition s + 1 then
        let s := if (0 <=? x) && (x <? FIELD_WIDTH) then emit (set_pixel x 0 colour) s else s in
        redraw_base_loop fuel' (to_int8 (x + 1)) colour s
      else Some s
  end.

Definition redraw_base (fuel : nat) (colour : Colour) (s : State) : option State :=
  match redraw_base_loop fuel (to_int8 (basePosition s - 1)) colour s with
  | None => None
  | Some s => Some (emit print_terminal_buffer (emit (set_pixel (basePosition s) 1 colour) s))
  end.

Definition redraw_whole_display (fuel : nat) (s : State) : option State :=
  let s := emit ledmatrix_clear s in
  match redraw_base fuel COLOUR_BASE s with
  | None => None
  | Some s =>
      let s := redraw_all_asteroids s in
      Some (redraw_all_projectiles s)
  end.

(** ** Occupancy queries *)

Definition asteroid_at (x y : Z) (s : State) : Z :=
  let x := to_uint8 x in
  let y := to_uint8 y in
  let positionToCheck := to_uint8 (GAME_POSITION x y) in
  scan (asteroids s) positionToCheck (Z.to_nat (numAsteroids s)) 0.

Definition projectile_at (x y : Z) (s : State) : Z :=
  let x := to_uint8 x in
  let y := to_uint8 y in
  let positionToCheck := to_uint8 (GAME_POSITION x y) in
  scan (projectiles s) positionToCheck (Z.to_nat (numProjectiles s)) 0.

(** ** Removal *)

Definition remove_asteroid (asteroidNumber : Z) (s : State) : State :=
  let asteroidNumber := to_int8 asteroidNumber in
  if (asteroidNumber <? 0) || (asteroidNumber >=? numAsteroids s) then s
  else
    let s1 := redraw_asteroid asteroidNumber COLOUR_BLACK s in
    let s2 :=
      for_range (to_uint8 (asteroidNumber + 1)) (numAsteroids s1)
        (fun i s => set_asteroids (shift_down i (asteroids s)) s) s1 in
    set_numAsteroids (to_int8 (numAsteroids s2 - 1)) s2.

Definition remove_projectile (projectileNumber : Z) (s : State) : State :=
  let projectileNumber := to_int8 projectileNumber in
  if (projectileNumber <? 0) || (projectileNumber >=? numProjectiles s) then s
  else
    let s1 := redraw_projectile projectileNumber COLOUR_BLACK s in
    let s2 :=
      for_range (to_uint8 (projectileNumber + 1)) (numProjectiles s1)
        (fun i s => set_projectiles (shift_down i (projectiles s)) s) s1 in
    set_numProjectiles (to_int8 (numProjectiles s2 - 1)) s2.

(** ** Collisions *)

Definition check_asteroid_hit (projectileIndex asteroidHit : Z) (s : State) : State * Z :=
  let projectileIndex := to_int8 projectileIndex in
  let asteroidHit := to_int8 asteroidHit in
  if (projectileIndex =? -1) || (asteroidHit =? -1) then (s, 0)
  else
    let s1 := remove_projectile projectileIndex s in
    let s2 := remove_asteroid asteroidHit s1 in
    let s3 := add_to_score 1 s2 in
    (emit (play_track TRACK_COIN) s3, 1).

Definition check_base_hit (x y : Z) (s : State) : State * Z :=
  let x := to_int8 x in
  let y := to_int8 y in
  let asteroid := asteroid_at x y s in
  if asteroid =? -1 then (s, 0)
  else
    let s1 := remove_asteroid asteroid s in
    let s2 := change_lives (-1) s1 in
    (emit (play_track TRACK_ERROR) s2, 1).

Definition check_all_base_hits (s : State) : State :=
  let s1 := fst (check_base_hit (basePosition s) 1 s) in
  let s2 := fst (check_base_hit (basePosition s1 - 1) 0 s1) in
  let s3 := fst (check_base_hit (basePosition s2) 0 s2) in
  fst (check_base_hit (basePosition s3 + 1) 0 s3).

(** ** Sorting *)

(** The inner while loop of the insertion sort; [j] drops by one per
    iteration, so [j] iterations are enough. *)
Fixpoint sort_shift (fuel : nat) (temp : Z) (j : Z) (a : list Z) : Z * list Z :=
  match fuel with
  | O => (j, a)
  | S fuel' =>
      if (0 <? j) && (GET_Y_POSITION (rd a (j - 1)) >? GET_Y_POSITION temp)
      then sort_shift fuel' temp (to_uint8 (j - 1)) (wr a j (rd a (j - 1)))
      else (j, a)
  end.

Definition sort_insert (i : Z) (a : list Z) : list Z :=
  let j := i in
  let temp := rd a j in
  let '(j, a) := sort_shift (Z.to_nat j) temp j a in
  wr a j temp.

Definition sort_asteroids (s : State) : State :=
  for_range 1 (numAsteroids s) (fun i s => set_asteroids (sort_insert i (asteroids s)) s) s.

(** * The SPI driver of spi.c

    spi.c keeps a buffer of bytes waiting to be sent, an index into it and a
    flag that says whether bytes are being held back.  What leaves the
    microcontroller is kept in [sent]: the bytes written to the data
    register SPDR0, most recent first. *)

Module Spi.

Record Device := mkDevice {
  buffer : list Z;             (* uint8_t [255] *)
  bufferIndex : Z;             (* uint8_t *)
  buffering : Z;               (* uint8_t *)
  sent : list Z                (* bytes written to SPDR0, most recent first *)
}.

Definition set_buffer (v : list Z) (d : Device) : Device :=
  mkDevice v (bufferIndex d) (buffering d) (sent d).
Definition set_bufferIndex (v : Z) (d : Device) : Device :=
  mkDevice (buffer d) v (buffering d) (sent d).
Definition set_buffering (v : Z) (d : Device) : Device :=
  mkDevice (buffer d) (bufferIndex d) v (sent d).

Definition start_spi_buffer (d : Device) : Device :=
  let d := set_bufferIndex 0 d in
  set_buffering 1 d.

Section Slave.

(** What the other end of the line shifts back: [received n] is the value
    read from SPDR0 at the end of the transfer number [n]. *)
Variable received : nat -> Z.

(** The byte is written to SPDR0; the loop that follows waits for the
    hardware to raise the SPIF flag, which it does when the eight bits have
    been shifted out, and the function returns what SPDR0 then holds. *)
Definition real_spi_send_byte (byte : Z) (d : Device) : Device * Z :=
  let byte := to_uint8 byte in
  (mkDevice (buffer d) (bufferIndex d) (buffering d) (byte :: sent d),
   to_uint8 (received (length (sent d)))).

Definition spi_send_byte (byte : Z) (d : Device) : Device * Z :=
  let byte := to_uint8 byte in
  if buffering d =? 0 then real_spi_send_byte byte d
  else
    let d := set_buffer (wr (buffer d) (bufferIndex d) byte) d in
    let d := set_bufferIndex (to_uint8 (bufferIndex d + 1)) d in
    (d, 0).

(** The counter [i] is a uint8_t that stays below [bufferIndex], itself a
    uint8_t, so that [i + 1] never wraps. *)
Definition flush_spi_buffer (d : Device) : Device :=
  let d :=
    for_range 0 (bufferIndex d)
      (fun i d =>
         let d := fst (real_spi_send_byte (rd (buffer d) i) d) in
         set_buffer (wr (buffer d) i 0) d) d in
  let d := set_buffering 0 d in
  set_bufferIndex 0 d.

(** The bytes [bytes] handed to [spi_send_byte] one after the other. *)
Definition send_all (bytes : list Z) (d : Device) : Device :=
  fold_left (fun d byte => fst (spi_send_byte byte d)) bytes d.

End Slave.

(** The four registers [spi_setup_master] writes, each holding the last
    value written to it. *)
Record Registers := mkRegisters {
  DDRB : Z;
  PORTB : Z;
  SPCR0 : Z;
  SPSR0 : Z
}.

Definition set_DDRB (v : Z) (r : Registers) : Registers :=
  mkRegisters v (PORTB r) (SPCR0 r) (SPSR0 r).
Definition set_PORTB (v : Z) (r : Registers) : Registers :=
  mkRegisters (DDRB r) v (SPCR0 r) (SPSR0 r).
Definition set_SPCR0 (v : Z) (r : Registers) : Registers :=
  mkRegisters (DDRB r) (PORTB r) v (SPSR0 r).
Definition set_SPSR0 (v : Z) (r : Registers) : Registers :=
  mkRegisters (DDRB r) (PORTB r) (SPCR0 r) v.

Section Bits.

(** The bit numbers come from avr/io.h, which is not among the sources:
    the function is modelled for any of them. *)
Variables SPE0 MSTR0 SPR00 SPR10 SPI2X0 : Z.

(** The two switch statements are written out as the tests they make; the
    case 128 of the second one falls through to the cases 32 and 64. *)
Definition spi_setup_master (clockdivider : Z) (r : Registers) : Registers :=
  let clockdivider := to_uint8 clockdivider in
  let r := set_DDRB (to_uint8 (Z.lor (DDRB r)
                      (Z.lor (Z.lor (Z.shiftl 1 4) (Z.shiftl 1 5)) (Z.shiftl 1 7)))) r in
  let r := set_PORTB (to_uint8 (Z.lor (PORTB r) (Z.shiftl 1 4))) r in
  let r := set_SPCR0 (to_uint8 (Z.lor (Z.shiftl 1 SPE0) (Z.shiftl 1 MSTR0))) r in
  let r :=
    if (clockdivider =? 2) || (clockdivider =? 8) || (clockdivider =? 32)
    then set_SPSR0 (to_uint8 (Z.shiftl 1 SPI2X0)) r
    else set_SPSR0 0 r in
  let r :=
    if clockdivider =? 128 then
      let r := set_SPCR0 (to_uint8 (Z.lor (SPCR0 r) (Z.shiftl 1 SPR00))) r in
      set_SPCR0 (to_uint8 (Z.lor (SPCR0 r) (Z.shiftl 1 SPR10))) r
    else if (clockdivider =? 32) || (clockdivider =? 64) then
      set_SPCR0 (to_uint8 (Z.lor (SPCR0 r) (Z.shiftl 1 SPR10))) r
    else if (clockdivider =? 8) || (clockdivider =? 16) then
      set_SPCR0 (to_uint8 (Z.lor (SPCR0 r) (Z.shiftl 1 SPR00))) r
    else r in
  set_PORTB (to_uint8 (Z.land (PORTB r) (Z.lnot (Z.shiftl 1 4)))) r.

(** The three bits that select the clock: SPI2X of SPSR0, SPR1 and SPR0 of
    SPCR0. *)
Definition clock_bits (r : Registers) : bool * bool * bool :=
  (Z.testbit (SPSR0 r) SPI2X0, Z.testbit (SPCR0 r) SPR10, Z.testbit (SPCR0 r) SPR00).

End Bits.

(** The clock dividers [spi_setup_master] has a case for, and 4, which
    needs none. *)
Definition supported_dividers : list Z := [2; 4; 8; 16; 32; 64; 128].

(** A device whose buffer holds 255 bytes of 7 and that is not holding
    bytes back. *)
Definition idle_device : Device := mkDevice (repeat 7 255) 0 0 [].

(** Registers with every pin of port B an input driven high and the SPI
    switched off. *)
Definition sample_registers : Registers := mkRegisters 0 255 0 0.

End Spi.

(** * Terminal control, terminalio.c

    The two mode variables of terminalio.c and what has been printed: the
    strings handed to printf, most recent first.  A DisplayParameter is an
    enum of small values, held as it is; so are the int arguments of
    [move_cursor].  The uint8_t and int8_t arguments are converted on
    entry. *)

Module Terminal.

Record Term := mkTerm {
  currentMode : Z;             (* DisplayParameter *)
  sCurrentMode : Z;            (* DisplayParameter *)
  stdout : list string         (* printed strings, most recent first *)
}.

Definition set_currentMode (v : Z) (t : Term) : Term :=
  mkTerm v (sCurrentMode t) (stdout t).
Definition set_sCurrentMode (v : Z) (t : Term) : Term :=
  mkTerm (currentMode t) v (stdout t).

(** The escape character, \x1b. *)
Definition ESC : string := String (Ascii.ascii_of_nat 27) "".

(** The backspace character, \b. *)
Definition BS : string := String (Ascii.ascii_of_nat 8) "".

(** The string that moves the cursor down one line and back one column. *)
Definition down_left : string := ESC +:+ "[B" +:+ ESC +:+ "[D".

(** What the conversion %d of printf writes for an int. *)
Definition decimal (z : Z) : string := NilZero.string_of_int (Z.to_int z).

Definition printf (str : string) (t : Term) : Term :=
  mkTerm (currentMode t) (sCurrentMode t) (str :: stdout t).

Definition move_cursor (x y : Z) (t : Term) : Term :=
  printf (ESC +:+ "[" +:+ decimal y +:+ ";" +:+ decimal x +:+ "H") t.

Definition s_invalidate_mode (t : Term) : Term :=
  let t := set_sCurrentMode 50 t in
  set_currentMode 50 t.

(** The string written to [arr] and the value returned. *)
Definition s_move_cursor (x y : Z) : string * Z :=
  let x := to_uint8 x in
  let y := to_uint8 y in
  (ESC +:+ "[" +:+ decimal y +:+ ";" +:+ decimal x +:+ "H",
   to_uint8 (6 + (if y >=? 10 then 1 else 0) + (if x >=? 10 then 1 else 0))).

(** The state, the string written to [arr], if one is written, and the
    value returned. *)
Definition s_fast_set_display_attr (mode : Z) (t : Term) : Term * option string * Z :=
  if sCurrentMode t =? mode then (t, None, 0)
  else
    let t := set_sCurrentMode mode t in
    (t, Some (ESC +:+ "[" +:+ decimal mode +:+ "m"),
     to_uint8 (4 + (if mode >=? 10 then 1 else 0))).

Definition normal_display_mode (t : Term) : Term := printf (ESC +:+ "[0m") t.
Definition reverse_video (t : Term) : Term := printf (ESC +:+ "[7m") t.
Definition clear_terminal (t : Term) : Term := printf (ESC +:+ "[2J") t.
Definition clear_to_end_of_line (t : Term) : Term := printf (ESC +:+ "[K") t.

Definition set_display_attribute (parameter : Z) (t : Term) : Term :=
  let t := set_currentMode parameter t in
  printf (ESC +:+ "[" +:+ decimal parameter +:+ "m") t.

Definition hide_cursor (t : Term) : Term := printf (ESC +:+ "[?25l") t.
Definition show_cursor (t : Term) : Term := printf (ESC +:+ "[?25h") t.
Definition enable_scrolling_for_whole_display (t : Term) : Term := printf (ESC +:+ "[r") t.

Definition set_scroll_region (y1 y2 : Z) (t : Term) : Term :=
  let y1 := to_int8 y1 in
  let y2 := to_int8 y2 in
  printf (ESC +:+ "[" +:+ decimal y1 +:+ ";" +:+ decimal y2 +:+ "r") t.

Definition scroll_down (t : Term) : Term := printf (ESC +:+ "M") t.
Definition scroll_up (t : Term) : Term := printf (ESC +:+ "D") t.

(** [for (i = from; i <= last; i++) printf(" ")] with an int8_t counter;
    [None] when the fuel runs out before the test fails. *)
Fixpoint line_loop (fuel : nat) (i last : Z) (t : Term) : option Term :=
  match fuel with
  | O => None
  | S fuel' =>
      if i <=? last then line_loop fuel' (to_int8 (i + 1)) last (printf " " t)
      else Some t
  end.

Definition draw_horizontal_line (fuel : nat) (y start_x end_x : Z) (t : Term) : option Term :=
  let y := to_int8 y in
  let start_x := to_int8 start_x in
  let end_x := to_int8 end_x in
  let t := move_cursor start_x y t in
  let t := reverse_video t in
  match line_loop fuel start_x end_x t with
  | None => None
  | Some t => Some (normal_display_mode t)
  end.

(** [for (; i < bound; i++) { printf(" "); printf("\x1b[B\x1b[D"); }] with
    an int8_t counter. *)
Fixpoint side_loop (fuel : nat) (i bound : Z) (t : Term) : option Term :=
  match fuel with
  | O => None
  | S fuel' =>
      if i <? bound
      then side_loop fuel' (to_int8 (i + 1)) bound
             (printf down_left (printf " " t))
      else Some t
  end.

Definition draw_vertical_line (fuel : nat) (x start_y end_y : Z) (t : Term) : option Term :=
  let x := to_int8 x in
  let start_y := to_int8 start_y in
  let end_y := to_int8 end_y in
  let t := move_cursor x start_y t in
  let t := reverse_video t in
  match side_loop fuel start_y end_y t with
  | None => None
  | Some t =>
      let t := printf " " t in
      Some (normal_display_mode t)
  end.

(** [for (i = 0; i < bound; i++) printf(" ")] with an int8_t counter. *)
Fixpoint edge_loop (fuel : nat) (i bound : Z) (t : Term) : option Term :=
  match fuel with
  | O => None
  | S fuel' =>
      if i <? bound then edge_loop fuel' (to_int8 (i + 1)) bound (printf " " t)
      else Some t
  end.

(** [width] and [height] are uint8_t and [i] an int8_t: the tests compare
    them as ints, and [height-1] is an int, -1 when [height] is 0. *)
Definition draw_rectangle (fuel : nat) (start_x start_y width height : Z) (t : Term)
  : option Term :=
  let start_x := to_uint8 start_x in
  let start_y := to_uint8 start_y in
  let width := to_uint8 width in
  let height := to_uint8 height in
  let t := reverse_video t in
  let t := move_cursor start_x start_y t in
  match edge_loop fuel 0 width t with
  | None => None
  | Some t =>
      let t := printf BS t in
      match side_loop fuel 0 (height - 1) t with
      | None => None
      | Some t =>
          let t := printf " " t in
          let t := move_cursor start_x start_y t in
          match side_loop fuel 0 (height - 1) t with
          | None => None
          | Some t =>
              let t := printf " " t in
              let t := printf BS t in
              match edge_loop fuel 0 width t with
              | None => None
              | Some t => Some (normal_display_mode t)
              end
          end
      end
  end.

Definition fast_set_display_attribute (mode : Z) (t : Term) : Term :=
  if negb (mode =? currentMode t) then
    let t := set_display_attribute mode t in
    set_currentMode mode t
  else t.

(** The number of characters of [n] written in decimal, for a byte. *)
Definition digits (n : Z) : Z :=
  1 + (if n >=? 10 then 1 else 0) + (if n >=? 100 then 1 else 0).

(** What [n] rounds of a space followed by [down_left] leave in [stdout],
    most recent first. *)
Definition side (n : nat) : list string := List.concat (repeat [down_left; " "] n).

(** A terminal in the mode 0 on which nothing has been printed. *)
Definition fresh_term : Term := mkTerm 0 0 [].

End Terminal.

Section Engine.

(** The capacities come from game.h, which is not among the sources, and the
    values of random() from the C library: the engine is modelled for any
    capacities and any sequence of random values, [random n] being the value
    returned by the call number [n]. *)
Variables MAX_PROJECTILES MAX_ASTEROIDS : Z.
Variable random : nat -> Z.

(** ** Spawning *)

(** The do-while loop of [add_asteroid_in_rows].  [attempts] is a uint8_t,
    so 256 is more fuel than the loop can use: it leaves through its own
    test ([spawn_loop_spec] below). *)
Fixpoint spawn_loop (fuel : nat) (blockedRows : Z) (i : Z) (attempts : Z) (s : State) : State :=
  match fuel with
  | O => s
  | S fuel' =>
      let x := to_uint8 (Z.rem (random (rand_calls s)) FIELD_WIDTH) in
      let s := set_rand_calls (S (rand_calls s)) s in
      let y := to_uint8 (blockedRows + Z.rem (random (rand_calls s)) (FIELD_HEIGHT - blockedRows)) in
      let s := set_rand_calls (S (rand_calls s)) s in
      if asteroid_at x y s =? -1 then
        let s := set_asteroids (wr (asteroids s) i (to_uint8 (GAME_POSITION x y))) s in
        let s := set_numAsteroids (to_int8 (numAsteroids s + 1)) s in
        redraw_asteroid i COLOUR_ASTEROID s
      else
        let attempts := to_uint8 (attempts + 1) in
        if attempts <=? 8 * 16 then spawn_loop fuel' blockedRows i attempts s else s
  end.

Definition add_asteroid_in_rows (blockedRows : Z) (s : State) : State :=
  let blockedRows := to_uint8 blockedRows in
  if numAsteroids s =? MAX_ASTEROIDS then s
  else
    let i := to_uint8 (numAsteroids s) in
    spawn_loop 256 blockedRows i 0 s.

Definition add_asteroid (s : State) : State := add_asteroid_in_rows 3 s.

Definition add_missing_asteroids (s : State) : State :=
  let s := emit s_invalidate_mode s in
  for_range (to_uint8 (numAsteroids s)) MAX_ASTEROIDS
    (fun _ s => add_asteroid_in_rows (FIELD_HEIGHT - 1) s) s.

(** ** The public operations *)

(** The loops of [redraw_base] run with [fuel]; [None] when one of them
    runs out of it. *)
Definition initialise_game (fuel : nat) (s : State) : option State :=
  let s := emit reset_frame s in
  let s := set_basePosition 3 s in
  let s := set_numProjectiles 0 s in
  let s := set_numAsteroids 0 s in
  let s := set_paused_field 0 s in
  let s := emit new_frame s in
  let s := for_range 0 MAX_ASTEROIDS (fun _ s => add_asteroid s) s in
  let s := sort_asteroids s in
  match redraw_whole_display fuel s with
  | None => None
  | Some s => Some (emit draw_frame s)
  end.

Definition move_base (fuel : nat) (direction : Z) (s : State) : option (State * Z) :=
  let direction := to_int8 direction in
  if ((basePosition s =? 0) && (direction =? MOVE_LEFT))
     || ((basePosition s =? 7) && (direction =? MOVE_RIGHT))
  then Some (s, 0)
  else
    let s := emit draw_frame s in
    let s := emit s_invalidate_mode s in
    match redraw_base fuel COLOUR_BLACK s with
    | None => None
    | Some s =>
        let s := set_basePosition (to_int8 (basePosition s + (2 * direction - 1))) s in
        let s := check_all_base_hits s in
        match redraw_base fuel COLOUR_BASE s with
        | None => None
        | Some s =>
            let s := emit draw_frame s in
            Some (s, 1)
        end
    end.

Definition fire_projectile (s : State) : State * Z :=
  if (numProjectiles s <? MAX_PROJECTILES) && (projectile_at (basePosition s) 2 s =? -1)
  then
    let s := emit new_frame s in
    let newProjectileNumber := to_uint8 (numProjectiles s) in
    let s := set_numProjectiles (to_int8 (numProjectiles s + 1)) s in
    let s := set_projectiles
               (wr (projectiles s) newProjectileNumber
                   (to_uint8 (GAME_POSITION (basePosition s) 2))) s in
    let '(s, hit) := check_asteroid_hit newProjectileNumber (asteroid_at (basePosition s) 2 s) s in
    let s := if hit =? -1 then s
             else redraw_projectile newProjectileNumber COLOUR_PROJECTILE s in
    let s := emit draw_frame s in
    (s, 1)
  else (s, 0).

(** One iteration of the while loop of [advance_projectiles]: the state and
    the projectile number after it. *)
Definition advance_projectiles_body (projectileNumber : Z) (s : State) : State * Z :=
  let x := to_uint8 (GET_X_POSITION (rd (projectiles s) projectileNumber)) in
  let y := to_uint8 (GET_Y_POSITION (rd (projectiles s) projectileNumber)) in
  let y := to_uint8 (y + 1) in
  if y =? FIELD_HEIGHT then (remove_projectile projectileNumber s, projectileNumber)
  else
    let '(s, hit) := check_asteroid_hit projectileNumber (asteroid_at x y s) s in
    if negb (hit =? 0) then (s, projectileNumber)
    else
      let s := redraw_projectile projectileNumber COLOUR_BLACK s in
      let s := set_projectiles (wr (projectiles s) projectileNumber (to_uint8 (GAME_POSITION x y))) s in
      let s := redraw_projectile projectileNumber COLOUR_PROJECTILE s in
      (s, to_int8 (projectileNumber + 1)).

(** The while loop; [None] when the fuel runs out before the loop's test
    fails. *)
Fixpoint advance_projectiles_loop (fuel : nat) (projectileNumber : Z) (s : State) : option State :=
  match fuel with
  | O => None
  | S fuel' =>
      if projectileNumber <? numProjectiles s then
        let '(s, projectileNumber) := advance_projectiles_body projectileNumber s in
        advance_projectiles_loop fuel' projectileNumber s
      else Some s
  end.

Definition advance_projectiles (fuel : nat) (s : State) : option State :=
  let s := emit new_frame s in
  let s := emit s_invalidate_mode s in
  match advance_projectiles_loop fuel 0 s with
  | None => None
  | Some s =>
      let s := add_missing_asteroids s in
      Some (emit draw_frame s)
  end.

(** One iteration of the while loop of [advance_asteroids]. *)
Definition advance_asteroids_body (i : Z) (s : State) : State * Z :=
  let x := to_int8 (GET_X_POSITION (rd (asteroids s) i)) in
  let y := to_int8 (GET_Y_POSITION (rd (asteroids s) i)) in
  let s := redraw_asteroid i COLOUR_BLACK s in
  let new_y := to_int8 (y - 1) in
  if new_y <? 0 then (remove_asteroid i s, i)
  else
    let '(s, hit) := check_asteroid_hit (projectile_at x new_y s) i s in
    if negb (hit =? 0) then (emit s_invalidate_mode s, i)
    else
      let s := set_asteroids (wr (asteroids s) i (to_uint8 (GAME_POSITION x new_y))) s in
      let s := redraw_asteroid i COLOUR_ASTEROID s in
      (s, to_uint8 (i + 1)).

Fixpoint advance_asteroids_loop (fuel : nat) (i : Z) (s : State) : option State :=
  match fuel with
  | O => None
  | S fuel' =>
      if i <? numAsteroids s then
        let '(s, i) := advance_asteroids_body i s in
        advance_asteroids_loop fuel' i s
      else Some s
  end.

Definition advance_asteroids (fuel : nat) (s : State) : option State :=
  let s := emit new_frame s in
  let s := emit set_display_attribute_TERM_RESET s in
  let s := emit s_invalidate_mode s in
  match advance_asteroids_loop fuel 0 s with
  | None => None
  | Some s =>
      let s := check_all_base_hits s in
      let s := add_missing_asteroids s in
      let s := emit draw_frame s in
      redraw_base fuel COLOUR_BASE s
  end.

Definition is_game_over (s : State) : Z := if get_lives s =? 0 then 1 else 0.
Definition set_paused (pause : Z) (s : State) : State := set_paused_field (to_uint8 pause) s.
Definition is_paused (s : State) : Z := paused s.


(** ** Vocabulary of the properties *)

(** The live prefix of each array. *)
Definition live_asteroids (s : State) : list Z :=
  take (Z.to_nat (numAsteroids s)) (asteroids s).
Definition live_projectiles (s : State) : list Z :=
  take (Z.to_nat (numProjectiles s)) (projectiles s).

Definition byte (p : Z) : Prop := 0 <= p < 256.

(** A count [n] and an array [a] fit together: the count is within the
    array, the array is one an int8_t count can index, and it holds bytes. *)
Definition fits (n : Z) (a : list Z) : Prop :=
  0 <= n <= Z.of_nat (length a) /\ Z.of_nat (length a) <= 127 /\ Forall byte a.

(** The packed position the two occupancy queries look for. *)
Definition packed (x y : Z) : Z := to_uint8 (GAME_POSITION (to_uint8 x) (to_uint8 y)).

Definition le_y (p q : Z) : Prop := GET_Y_POSITION p <= GET_Y_POSITION q.
Definition sorted_by_y (l : list Z) : Prop := StronglySorted le_y l.

(** The entries of [l] that lie in the row [y], in the order of [l]. *)
Definition row (y : Z) (l : list Z) : list Z :=
  filter (fun p => GET_Y_POSITION p = y) l.

(** The state [s] with its asteroid (projectile) count and array and its
    trace replaced. *)
Definition with_asteroids (n : Z) (a : list Z) (t : list Event) (s : State) : State :=
  mkState (basePosition s) (numProjectiles s) (projectiles s) n a
          (paused s) (score s) (lives s) (rand_calls s) t.
Definition with_projectiles (n : Z) (a : list Z) (t : list Event) (s : State) : State :=
  mkState (basePosition s) n a (numAsteroids s) (asteroids s)
          (paused s) (score s) (lives s) (rand_calls s) t.

Definition set_trace (t : list Event) (s : State) : State :=
  mkState (basePosition s) (numProjectiles s) (projectiles s) (numAsteroids s)
          (asteroids s) (paused s) (score s) (lives s) (rand_calls s) t.

(** What a call did to the scalars of the game: it left the base and the
    pause flag alone, added [dscore] to the score, took [dlives] lives and
    called random() [drand] times. *)
Definition effect (dscore dlives : Z) (drand : nat) (s s' : State) : Prop :=
  basePosition s' = basePosition s
  /\ paused s' = paused s
  /\ score s' = score s + dscore
  /\ lives s' = lives s - dlives
  /\ rand_calls s' = (rand_calls s + drand)%nat.

(** A function that only issues display calls. *)
Definition draws_only (f : State -> State) : Prop :=
  forall s, exists t, f s = set_trace t s.

(** The display call that draws the position [p] in [colour]. *)
Definition pixel_of (colour : Colour) (p : Z) : Event :=
  set_pixel (GET_X_POSITION p) (GET_Y_POSITION p) colour.

(** The display calls that draw a base at the column [base], first call
    first: the cells of row 0 from left to right, those outside the field
    left out, then the cell of row 1, then the terminal buffer. *)
Definition base_pixels (colour : Colour) (base : Z) : list Event :=
  (if 0 <=? base - 1 then [set_pixel (base - 1) 0 colour] else [])
  ++ [set_pixel base 0 colour]
  ++ (if base + 1 <? FIELD_WIDTH then [set_pixel (base + 1) 0 colour] else [])
  ++ [set_pixel base 1 colour; print_terminal_buffer].

(** [a'] is the array [a] after the entry [x], which follows [l1] and is
    followed by the live entries [l2], has been removed: [l2] has moved down
    by one and a stale copy of the last live entry is left behind it. *)
Definition closed_gap (l1 : list Z) (x : Z) (l2 a a' : list Z) : Prop :=
  exists z r, a = l1 ++ x :: l2 ++ r /\ a' = l1 ++ l2 ++ z :: r /\ z ∈ x :: l2.

(** The list [l] less its first entry equal to [c], if it has one. *)
Fixpoint remove_first (c : Z) (l : list Z) : list Z :=
  match l with
  | [] => []
  | p :: l' => if p =? c then l' else p :: remove_first c l'
  end.

(** The packed position [check_base_hit x y] looks for. *)
Definition base_cell (x y : Z) : Z := packed (to_int8 x) (to_int8 y).

(** The four cells of the base, in the order [check_all_base_hits] visits
    them. *)
Definition footprint_of (base : Z) : list Z :=
  [ base_cell base 1; base_cell (base - 1) 0; base_cell base 0; base_cell (base + 1) 0 ].
Definition footprint (s : State) : list Z := footprint_of (basePosition s).

(** How many cells of the base hold an asteroid. *)
Definition base_hits (s : State) : Z :=
  Z.of_nat (length (filter (fun c => c ∈ live_asteroids s) (footprint s))).

(** The cell one attempt of the spawn loop samples, when its two calls to
    random() are the calls number [n] and [n + 1]. *)
Definition sample_x (n : nat) : Z := to_uint8 (Z.rem (random n) FIELD_WIDTH).
Definition sample_y (blockedRows : Z) (n : nat) : Z :=
  to_uint8 (blockedRows + Z.rem (random (S n)) (FIELD_HEIGHT - blockedRows)).
Definition sample_cell (blockedRows : Z) (n : nat) : Z :=
  to_uint8 (GAME_POSITION (sample_x n) (sample_y blockedRows n)).

(** Among [k] attempts in a row, the first of which starts at the call
    number [n], the starting call of the first attempt that samples a cell
    outside [live]. *)
Fixpoint first_free (live : list Z) (blockedRows : Z) (n : nat) (k : nat) : option nat :=
  match k with
  | O => None
  | S k' =>
      if bool_decide (sample_cell blockedRows n ∈ live)
      then first_free live blockedRows (S (S n)) k'
      else Some n
  end.

(** The spawn search that [add_asteroid_in_rows blockedRows] makes when it
    is called in the state [u] gives up: the list has room, the call makes
    [attempts] attempts, 8*16 at least, each of which samples a cell that
    holds an asteroid of [u], and it changes nothing but the count of
    random() calls. *)
Definition search_gives_up (blockedRows : Z) (u : State) : Prop :=
  numAsteroids u <> MAX_ASTEROIDS
  /\ exists attempts : nat,
       (8 * 16 <= attempts)%nat
       /\ add_asteroid_in_rows blockedRows u
          = set_rand_calls (rand_calls u + 2 * attempts) u
       /\ forall j, (j < attempts)%nat ->
            sample_cell (to_uint8 blockedRows) (rand_calls u + 2 * j) ∈ live_asteroids u.

(** The calls of [add_asteroid_in_rows] that [add_missing_asteroids s]
    makes: how many they are, and the state in which the call number [k],
    counted from 0, starts. *)
Definition replenishment_calls (s : State) : nat :=
  Z.to_nat (MAX_ASTEROIDS - to_uint8 (numAsteroids s)).
Definition replenishment_state (k : nat) (s : State) : State :=
  let s := emit s_invalidate_mode s in
  for_loop k (to_uint8 (numAsteroids s))
    (fun _ s => add_asteroid_in_rows (FIELD_HEIGHT - 1) s) s.

(** One of the spawn searches of [add_missing_asteroids s] gives up. *)
Definition replenishment_gives_up (s : State) : Prop :=
  exists k, (k < replenishment_calls s)%nat
            /\ search_gives_up (FIELD_HEIGHT - 1) (replenishment_state k s).

(** The state in which the loop of [initialise_game] that spawns the
    asteroids starts, when the game is initialised from [s0]. *)
Definition reset_game (s0 : State) : State :=
  emit new_frame
    (set_paused_field 0 (set_numAsteroids 0 (set_numProjectiles 0
       (set_basePosition 3 (emit reset_frame s0))))).

(** One of the spawn searches of [initialise_game], called on the memory
    [s0], gives up. *)
Definition first_spawn_gives_up (s0 : State) : Prop :=
  exists k, (k < Z.to_nat (MAX_ASTEROIDS - 0))%nat
            /\ search_gives_up 3 (for_loop k 0 (fun _ s => add_asteroid s) (reset_game s0)).

(** Boolean versions of [fits] and of the range of a count, to be run on
    concrete states. *)
Definition byteb (p : Z) : bool := (0 <=? p) && (p <? 256).
Definition fitsb (n : Z) (a : list Z) : bool :=
  (0 <=? n) && (n <=? Z.of_nat (length a)) && (Z.of_nat (length a) <=? 127)
  && forallb byteb a.

(** ** Well-formed and reachable states *)

(** The counts are within the arrays and the arrays are those game.c
    declares. *)
Definition wf (s : State) : Prop :=
  fits (numProjectiles s) (projectiles s)
  /\ fits (numAsteroids s) (asteroids s)
  /\ Z.of_nat (length (projectiles s)) = MAX_PROJECTILES
  /\ Z.of_nat (length (asteroids s)) = MAX_ASTEROIDS.

(** What the memory holds before the first call of [initialise_game]: two
    arrays of bytes of the declared sizes, and anything in the scalars. *)
Definition memory_ok (s : State) : Prop :=
  fits 0 (projectiles s) /\ fits 0 (asteroids s)
  /\ Z.of_nat (length (projectiles s)) = MAX_PROJECTILES
  /\ Z.of_nat (length (asteroids s)) = MAX_ASTEROIDS.

(** The states the driver can bring the engine to: it initialises the game,
    then calls the four step operations in any order; only calls that
    return count. *)
Inductive reachable : State -> Prop :=
| reach_initialise s0 fuel s :
    memory_ok s0 -> initialise_game fuel s0 = Some s -> reachable s
| reach_move_base s fuel direction s' moved :
    reachable s -> direction = MOVE_LEFT \/ direction = MOVE_RIGHT ->
    move_base fuel direction s = Some (s', moved) -> reachable s'
| reach_fire_projectile s :
    reachable s -> reachable (fst (fire_projectile s))
| reach_advance_projectiles s fuel s' :
    reachable s -> advance_projectiles fuel s = Some s' -> reachable s'
| reach_advance_asteroids s fuel s' :
    reachable s -> advance_asteroids fuel s = Some s' -> reachable s'
| reach_set_paused s pause :
    reachable s -> reachable (set_paused pause s).

(** What every reachable state satisfies. *)
Definition invariant (s : State) : Prop :=
  wf s
  /\ 0 <= basePosition s <= FIELD_WIDTH - 1
  /\ sorted_by_y (live_asteroids s)
  /\ NoDup (live_asteroids s)
  /\ NoDup (live_projectiles s).

(** Every live asteroid lies in a column of the field, and every live
    projectile in a column of the field and above the base. *)
Definition in_field (s : State) : Prop :=
  Forall (fun p => GET_X_POSITION p < FIELD_WIDTH) (live_asteroids s)
  /\ Forall (fun p => GET_X_POSITION p < FIELD_WIDTH /\ 2 <= GET_Y_POSITION p)
            (live_projectiles s).

(** No live asteroid lies on a cell of the base. *)
Definition base_clear (s : State) : Prop :=
  Forall (fun c => c ∉ live_asteroids s) (footprint s).

(** ** A driver *)

Inductive Op :=
| OpMoveBase (direction : Z)
| OpFireProjectile
| OpAdvanceProjectiles
| OpAdvanceAsteroids.

Definition left_or_right (op : Op) : Prop :=
  match op with
  | OpMoveBase direction => direction = MOVE_LEFT \/ direction = MOVE_RIGHT
  | _ => True
  end.

(** The engine run through a list of calls, each loop with [fuel]. *)
Fixpoint run (fuel : nat) (ops : list Op) (s : State) : option State :=
  match ops with
  | [] => Some s
  | OpMoveBase direction :: ops =>
      match move_base fuel direction s with
      | Some (s, _) => run fuel ops s
      | None => None
      end
  | OpFireProjectile :: ops => run fuel ops (fst (fire_projectile s))
  | OpAdvanceProjectiles :: ops =>
      match advance_projectiles fuel s with
      | Some s => run fuel ops s
      | None => None
      end
  | OpAdvanceAsteroids :: ops =>
      match advance_asteroids fuel s with
      | Some s => run fuel ops s
      | None => None
      end
  end.

(** ** Concrete data for the examples

    The memory before the first game, for capacities of 4 projectiles and
    20 asteroids: zeroed arrays, four lives. *)
Definition blank_memory : State :=
  mkState 0 0 (repeat 0 4) 0 (repeat 0 20) 0 0 4 O [].

(** A sequence of random values whose first forty place the twenty
    asteroids of a new game as follows: one at (0,3); eight across row 5;
    eight across row 10; three in row 12.  After them the values run
    through the columns in turn. *)
Definition demo_prefix : list Z :=
  [ 0; 0;
    0; 2;  1; 2;  2; 2;  3; 2;  4; 2;  5; 2;  6; 2;  7; 2;
    0; 7;  1; 7;  2; 7;  3; 7;  4; 7;  5; 7;  6; 7;  7; 7;
    0; 9;  1; 9;  2; 9 ].
Definition demo_random (n : nat) : Z :=
  nth n demo_prefix (Z.of_nat (n / 2)).

(** The sequence that returns 0 for its first 256 calls and 1 afterwards. *)
Definition late_random (n : nat) : Z := if (n <? 256)%nat then 0 else 1.

(** The calls that bring a new game, played with [demo_random], down to
    eleven asteroids: three advances bring the row of eight to row 2 and the
    lone asteroid to (0,0); the base then shoots the eight, one column after
    the other, and runs into the lone one on its way to the left. *)
Definition shoot_the_row : list Op :=
  [ OpAdvanceAsteroids; OpAdvanceAsteroids; OpAdvanceAsteroids;
    OpFireProjectile;
    OpMoveBase MOVE_RIGHT; OpFireProjectile; OpMoveBase MOVE_RIGHT; OpFireProjectile;
    OpMoveBase MOVE_RIGHT; OpFireProjectile; OpMoveBase MOVE_RIGHT; OpFireProjectile;
    OpMoveBase MOVE_LEFT; OpMoveBase MOVE_LEFT; OpMoveBase MOVE_LEFT; OpMoveBase MOVE_LEFT;
    OpMoveBase MOVE_LEFT; OpFireProjectile;
    OpMoveBase MOVE_LEFT; OpFireProjectile;
    OpMoveBase MOVE_LEFT; OpFireProjectile ].

(** A game with one asteroid, at (3,2), the base at 3 and no projectile. *)
Definition one_asteroid : State :=
  mkState 3 0 (repeat 0 4) 1 (50 :: repeat 0 19) 0 0 4 O [].

(** A game with one asteroid, at (0,15). *)
Definition top_left_asteroid : State :=
  mkState 3 0 (repeat 0 4) 1 (15 :: repeat 0 19) 0 0 4 O [].

(** A game whose eight asteroids fill the top row. *)
Definition top_row_full : State :=
  mkState 3 0 (repeat 0 4) 8 ([15; 31; 47; 63; 79; 95; 111; 127] ++ repeat 0 12) 0 0 4 O [].

(** A game with three projectiles, at (1,4), (2,5) and (3,6), and three
    asteroids, at (3,1), (2,0) and (5,9). *)
Definition three_each : State :=
  mkState 3 3 [20; 37; 54; 0] 3 (49 :: 32 :: 89 :: repeat 0 17) 0 0 4 O [].

(** * Properties *)

(** Unfolding the field updates and projecting out of the records they
    build. *)
Ltac simpl_state :=
  unfold set_basePosition, set_numProjectiles, set_projectiles, set_numAsteroids,
    set_asteroids, set_paused_field, set_score, set_lives, set_rand_calls, emit,
    add_to_score, change_lives, with_asteroids, with_projectiles, set_trace in *;
  cbn [basePosition numProjectiles projectiles numAsteroids asteroids paused score lives
       rand_calls trace] in *.

(** ** Machine integers and positions *)

Lemma to_uint8_small z : 0 <= z < 256 -> to_uint8 z = z.
Proof. intros H. unfold to_uint8. apply Z.mod_small. lia. Qed.

Lemma to_int8_small z : -128 <= z < 128 -> to_int8 z = z.
Proof. intros H. unfold to_int8. rewrite Z.mod_small; lia. Qed.

Lemma to_uint8_range z : 0 <= to_uint8 z < 256.
Proof. unfold to_uint8. apply Z.mod_pos_bound. lia. Qed.

Lemma to_int8_range z : -128 <= to_int8 z < 128.
Proof. unfold to_int8. pose proof (Z.mod_pos_bound (z + 128) 256). lia. Qed.

(** A property of bytes that a boolean test decides holds of every byte as
    soon as the test passes on the 256 of them. *)
Lemma forall_bytes (P : Z -> bool) :
  forallb P (seqZ 0 256) = true -> forall p, 0 <= p < 256 -> P p = true.
Proof.
  intros H p Hp. rewrite forallb_forall in H. apply H.
  apply list_elem_of_In, elem_of_seqZ. lia.
Qed.

Lemma GET_Y_range p : 0 <= p < 256 -> 0 <= GET_Y_POSITION p < 16.
Proof.
  intros Hp.
  assert (H : ((0 <=? GET_Y_POSITION p) && (GET_Y_POSITION p <? 16)) = true).
  { revert p Hp. apply (forall_bytes (fun p => (0 <=? GET_Y_POSITION p) && (GET_Y_POSITION p <? 16))).
    vm_compute. reflexivity. }
  apply andb_true_iff in H. lia.
Qed.

Lemma GET_X_range p : 0 <= p < 256 -> 0 <= GET_X_POSITION p < 16.
Proof.
  intros Hp.
  assert (H : ((0 <=? GET_X_POSITION p) && (GET_X_POSITION p <? 16)) = true).
  { revert p Hp. apply (forall_bytes (fun p => (0 <=? GET_X_POSITION p) && (GET_X_POSITION p <? 16))).
    vm_compute. reflexivity. }
  apply andb_true_iff in H. lia.
Qed.

(** Moving a byte position down one row is subtracting one, as long as the
    row is not the bottom one. *)
Lemma position_down p :
  0 <= p < 256 -> 1 <= GET_Y_POSITION p ->
  to_uint8 (GAME_POSITION (GET_X_POSITION p) (GET_Y_POSITION p - 1)) = p - 1
  /\ GET_Y_POSITION (p - 1) = GET_Y_POSITION p - 1.
Proof.
  intros Hp Hy.
  assert (H : (negb (1 <=? GET_Y_POSITION p)
               || ((to_uint8 (GAME_POSITION (GET_X_POSITION p) (GET_Y_POSITION p - 1)) =? p - 1)
                   && (GET_Y_POSITION (p - 1) =? GET_Y_POSITION p - 1))) = true).
  { revert p Hp Hy.
    intros p Hp _. revert p Hp.
    apply (forall_bytes (fun p => negb (1 <=? GET_Y_POSITION p)
               || ((to_uint8 (GAME_POSITION (GET_X_POSITION p) (GET_Y_POSITION p - 1)) =? p - 1)
                   && (GET_Y_POSITION (p - 1) =? GET_Y_POSITION p - 1)))).
    vm_compute. reflexivity. }
  apply orb_true_iff in H. destruct H as [H | H].
  - apply negb_true_iff in H. lia.
  - apply andb_true_iff in H. lia.
Qed.

(** Moving a byte position up one row is adding one, as long as the row is
    not the top one. *)
Lemma position_up p :
  0 <= p < 256 -> GET_Y_POSITION p + 1 < 16 ->
  to_uint8 (GAME_POSITION (GET_X_POSITION p) (GET_Y_POSITION p + 1)) = p + 1
  /\ GET_Y_POSITION (p + 1) = GET_Y_POSITION p + 1.
Proof.
  intros Hp Hy.
  assert (H : (negb (GET_Y_POSITION p + 1 <? 16)
               || ((to_uint8 (GAME_POSITION (GET_X_POSITION p) (GET_Y_POSITION p + 1)) =? p + 1)
                   && (GET_Y_POSITION (p + 1) =? GET_Y_POSITION p + 1))) = true).
  { clear Hy. revert p Hp.
    apply (forall_bytes (fun p => negb (GET_Y_POSITION p + 1 <? 16)
               || ((to_uint8 (GAME_POSITION (GET_X_POSITION p) (GET_Y_POSITION p + 1)) =? p + 1)
                   && (GET_Y_POSITION (p + 1) =? GET_Y_POSITION p + 1)))).
    vm_compute. reflexivity. }
  apply orb_true_iff in H. destruct H as [H | H].
  - apply negb_true_iff in H. lia.
  - apply andb_true_iff in H. lia.
Qed.

(** ** Arrays *)

Lemma rd_app_middle l1 x l2 i :
  i = Z.of_nat (length l1) -> rd (l1 ++ x :: l2) i = x.
Proof.
  intros ->. unfold rd. rewrite Nat2Z.id.
  rewrite lookup_app_r by lia. rewrite Nat.sub_diag. reflexivity.
Qed.

Lemma wr_app_middle l1 x l2 i v :
  i = Z.of_nat (length l1) -> wr (l1 ++ x :: l2) i v = l1 ++ v :: l2.
Proof.
  intros ->. unfold wr. rewrite Nat2Z.id.
  replace (length l1) with (length l1 + 0)%nat at 1 by lia.
  rewrite insert_app_r. reflexivity.
Qed.

(** The closing-up loop of the two removal functions: with the array split
    as [l1 ++ x :: l2 ++ r], where [x] is the entry removed and [l2] the
    live entries after it, the loop leaves [l1 ++ l2] followed by one stale
    copy of the last live entry. *)
Lemma shift_loop_app l2 : forall l1 x r i,
  i = Z.of_nat (length l1) + 1 ->
  exists z, for_loop (length l2) i shift_down (l1 ++ x :: l2 ++ r) = l1 ++ l2 ++ z :: r
            /\ z ∈ x :: l2.
Proof.
  induction l2 as [|y l2 IH]; intros l1 x r i ->.
  - exists x. split; [reflexivity | constructor].
  - cbn [length for_loop]. unfold shift_down at 2.
    assert (Hrd : rd (l1 ++ x :: (y :: l2) ++ r) (Z.of_nat (length l1) + 1) = y).
    { replace (l1 ++ x :: (y :: l2) ++ r) with ((l1 ++ [x]) ++ y :: l2 ++ r)
        by (rewrite <- app_assoc; reflexivity).
      apply rd_app_middle. rewrite length_app. simpl. lia. }
    rewrite Hrd.
    replace (l1 ++ x :: (y :: l2) ++ r) with (l1 ++ x :: y :: l2 ++ r) by reflexivity.
    rewrite (wr_app_middle l1 x (y :: l2 ++ r)) by lia.
    destruct (IH (l1 ++ [y]) y r (Z.of_nat (length l1) + 1 + 1)) as (z & Hz & Hin).
    { rewrite length_app. simpl. lia. }
    exists z. split.
    + rewrite <- app_assoc in Hz. simpl in Hz. rewrite Hz.
      rewrite <- app_assoc. reflexivity.
    + right. exact Hin.
Qed.

(** The scanning loop finds nothing when the position is not among the
    entries scanned, and the first index holding it otherwise. *)
Lemma scan_app l : forall l0 r pos i,
  i = Z.of_nat (length l0) -> (length l0 + length l <= 128)%nat ->
  ((pos ∉ l) -> scan (l0 ++ l ++ r) pos (length l) i = -1) /\
  (forall l1 l2, l = l1 ++ pos :: l2 -> (pos ∉ l1) ->
     scan (l0 ++ l ++ r) pos (length l) i = Z.of_nat (length l0 + length l1)).
Proof.
  induction l as [|x l IH]; intros l0 r pos i -> Hlen.
  - split; [reflexivity|]. intros [|] ? ?; discriminate.
  - cbn [length scan]. simpl app.
    rewrite (rd_app_middle l0 x (l ++ r)) by reflexivity.
    assert (Hl0 : (l0 ++ x :: l ++ r) = (l0 ++ [x]) ++ l ++ r)
      by (rewrite <- app_assoc; reflexivity).
    destruct (IH (l0 ++ [x]) r pos (Z.of_nat (length l0) + 1)) as [IHn IHs].
    { rewrite length_app. simpl. lia. }
    { rewrite length_app. simpl in *. lia. }
    split.
    + intros Hnot. apply not_elem_of_cons in Hnot as [Hne Hnot].
      destruct (Z.eqb_spec x pos); [congruence|].
      rewrite Hl0. apply IHn, Hnot.
    + intros l1 l2 Hl Hnot. destruct l1 as [|y l1]; simpl in Hl; inversion Hl; subst.
      * rewrite Z.eqb_refl. rewrite to_int8_small by (simpl in Hlen; lia).
        simpl. lia.
      * apply not_elem_of_cons in Hnot as [Hne Hnot].
        destruct (Z.eqb_spec y pos); [congruence|].
        rewrite Hl0. rewrite (IHs l1 l2 eq_refl Hnot).
        rewrite length_app. simpl. lia.
Qed.

(** An array splits into its live prefix and the rest. *)
Lemma fits_split n a :
  fits n a -> exists r, a = take (Z.to_nat n) a ++ r /\ length (take (Z.to_nat n) a) = Z.to_nat n.
Proof.
  intros (Hn & _ & _). exists (drop (Z.to_nat n) a). split.
  - symmetry. apply take_drop.
  - apply length_take_le. lia.
Qed.

Lemma scan_live a n pos :
  fits n a ->
  let l := take (Z.to_nat n) a in
  ((pos ∉ l) /\ scan a pos (Z.to_nat n) 0 = -1)
  \/ (exists l1 l2, l = l1 ++ pos :: l2 /\ (pos ∉ l1)
        /\ scan a pos (Z.to_nat n) 0 = Z.of_nat (length l1)).
Proof.
  intros Hf l. destruct (fits_split n a Hf) as (r & Ha & Hlen). fold l in Ha, Hlen.
  destruct Hf as (Hn & Hcap & _).
  destruct (scan_app l [] r pos 0 eq_refl) as [Hnone Hsome].
  { simpl. lia. }
  simpl in Hnone, Hsome. rewrite <- Ha, Hlen in Hnone, Hsome.
  destruct (decide (pos ∈ l)) as [Hin | Hnot].
  - right. apply list_elem_of_split_l in Hin as (l1 & l2 & Hl & Hnot1).
    exists l1, l2. split; [exact Hl|]. split; [exact Hnot1|]. exact (Hsome l1 l2 Hl Hnot1).
  - left. split; [exact Hnot|]. exact (Hnone Hnot).
Qed.

(** ** Removal *)

Lemma for_loop_set_asteroids (f : Z -> list Z -> list Z) n : forall i s,
  for_loop n i (fun i s => set_asteroids (f i (asteroids s)) s) s
  = set_asteroids (for_loop n i f (asteroids s)) s.
Proof.
  induction n as [|n IH]; intros i s; simpl.
  - destruct s; reflexivity.
  - rewrite IH. destruct s; reflexivity.
Qed.

Lemma for_loop_set_projectiles (f : Z -> list Z -> list Z) n : forall i s,
  for_loop n i (fun i s => set_projectiles (f i (projectiles s)) s) s
  = set_projectiles (for_loop n i f (projectiles s)) s.
Proof.
  induction n as [|n IH]; intros i s; simpl.
  - destruct s; reflexivity.
  - rewrite IH. destruct s; reflexivity.
Qed.

Lemma live_split n a l :
  fits n a -> take (Z.to_nat n) a = l ->
  exists r, a = l ++ r /\ Z.of_nat (length l) = n.
Proof.
  intros Hf <-. destruct (fits_split n a Hf) as (r & Ha & Hlen).
  exists r. split; [exact Ha|]. destruct Hf as (Hn & _). lia.
Qed.

Lemma remove_asteroid_out i s :
  to_int8 i < 0 \/ numAsteroids s <= to_int8 i -> remove_asteroid i s = s.
Proof.
  intros H. unfold remove_asteroid.
  destruct (Z.ltb_spec (to_int8 i) 0); [reflexivity|].
  destruct (Z.geb_spec (to_int8 i) (numAsteroids s)); [reflexivity | lia].
Qed.

Lemma remove_projectile_out i s :
  to_int8 i < 0 \/ numProjectiles s <= to_int8 i -> remove_projectile i s = s.
Proof.
  intros H. unfold remove_projectile.
  destruct (Z.ltb_spec (to_int8 i) 0); [reflexivity|].
  destruct (Z.geb_spec (to_int8 i) (numProjectiles s)); [reflexivity | lia].
Qed.

(** Removing the live asteroid number [i]: the entries before it stay, the
    live entries after it move down by one, the count drops by one and
    nothing else than the trace changes. *)
Lemma remove_asteroid_in s l1 x l2 i :
  fits (numAsteroids s) (asteroids s) ->
  live_asteroids s = l1 ++ x :: l2 ->
  i = Z.of_nat (length l1) ->
  exists a' t,
    closed_gap l1 x l2 (asteroids s) a'
    /\ remove_asteroid i s = with_asteroids (numAsteroids s - 1) a' t s.
Proof.
  intros Hf Hl ->. destruct (live_split _ _ _ Hf Hl) as (r & Ha & Hn).
  pose proof Hf as (Hn0 & Hcap & _).
  rewrite length_app in Hn. cbn [length] in Hn.
  rewrite <- app_assoc in Ha. cbn [app] in Ha.
  destruct (shift_loop_app l2 l1 x r (Z.of_nat (length l1) + 1) eq_refl) as (z & Hz & Hin).
  exists (l1 ++ l2 ++ z :: r).
  unfold remove_asteroid.
  rewrite to_int8_small by lia.
  destruct (Z.ltb_spec (Z.of_nat (length l1)) 0); [lia|].
  destruct (Z.geb_spec (Z.of_nat (length l1)) (numAsteroids s)); [lia|]. cbn [orb].
  assert (Hcount : Z.to_nat (numAsteroids s - to_uint8 (Z.of_nat (length l1) + 1)) = length l2).
  { rewrite to_uint8_small by lia. lia. }
  assert (Hstart : to_uint8 (Z.of_nat (length l1) + 1) = Z.of_nat (length l1) + 1).
  { apply to_uint8_small. lia. }
  unfold redraw_asteroid.
  destruct (to_uint8 (Z.of_nat (length l1)) <? numAsteroids s);
    [ exists (set_pixel (GET_X_POSITION (rd (asteroids s) (to_uint8 (Z.of_nat (length l1)))))
                        (GET_Y_POSITION (rd (asteroids s) (to_uint8 (Z.of_nat (length l1)))))
                        COLOUR_BLACK :: trace s)
    | exists (trace s) ];
    (split; [exists z, r; auto|]);
    unfold for_range; rewrite for_loop_set_asteroids;
    cbn [numAsteroids asteroids emit set_asteroids];
    rewrite Hcount, Hstart, Ha, Hz, to_int8_small by lia;
    destruct s; reflexivity.
Qed.

Lemma remove_projectile_in s l1 x l2 i :
  fits (numProjectiles s) (projectiles s) ->
  live_projectiles s = l1 ++ x :: l2 ->
  i = Z.of_nat (length l1) ->
  exists a' t,
    closed_gap l1 x l2 (projectiles s) a'
    /\ remove_projectile i s = with_projectiles (numProjectiles s - 1) a' t s.
Proof.
  intros Hf Hl ->. destruct (live_split _ _ _ Hf Hl) as (r & Ha & Hn).
  pose proof Hf as (Hn0 & Hcap & _).
  rewrite length_app in Hn. cbn [length] in Hn.
  rewrite <- app_assoc in Ha. cbn [app] in Ha.
  destruct (shift_loop_app l2 l1 x r (Z.of_nat (length l1) + 1) eq_refl) as (z & Hz & Hin).
  exists (l1 ++ l2 ++ z :: r).
  unfold remove_projectile.
  rewrite to_int8_small by lia.
  destruct (Z.ltb_spec (Z.of_nat (length l1)) 0); [lia|].
  destruct (Z.geb_spec (Z.of_nat (length l1)) (numProjectiles s)); [lia|]. cbn [orb].
  assert (Hcount : Z.to_nat (numProjectiles s - to_uint8 (Z.of_nat (length l1) + 1)) = length l2).
  { rewrite to_uint8_small by lia. lia. }
  assert (Hstart : to_uint8 (Z.of_nat (length l1) + 1) = Z.of_nat (length l1) + 1).
  { apply to_uint8_small. lia. }
  unfold redraw_projectile.
  destruct (to_uint8 (Z.of_nat (length l1)) <? numProjectiles s);
    [ exists (set_pixel (GET_X_POSITION (rd (projectiles s) (to_uint8 (Z.of_nat (length l1)))))
                        (GET_Y_POSITION (rd (projectiles s) (to_uint8 (Z.of_nat (length l1)))))
                        COLOUR_BLACK :: trace s)
    | exists (trace s) ];
    (split; [exists z, r; auto|]);
    unfold for_range; rewrite for_loop_set_projectiles;
    cbn [numProjectiles projectiles emit set_projectiles];
    rewrite Hcount, Hstart, Ha, Hz, to_int8_small by lia;
    destruct s; reflexivity.
Qed.

Lemma take_live (l r : list Z) n : Z.of_nat (length l) = n -> take (Z.to_nat n) (l ++ r) = l.
Proof. intros <-. rewrite Nat2Z.id. apply take_app_length. Qed.

(** What a closed gap leaves: an array of the same length that fits the
    count less one, with the live prefix less the entry removed. *)
Lemma closed_gap_fits l1 x l2 a a' n :
  fits n a -> take (Z.to_nat n) a = l1 ++ x :: l2 -> closed_gap l1 x l2 a a' ->
  fits (n - 1) a' /\ take (Z.to_nat (n - 1)) a' = l1 ++ l2 /\ length a' = length a.
Proof.
  intros Hf Hl (z & r & Ha & Ha' & Hz).
  destruct (live_split _ _ _ Hf Hl) as (r' & Har & Hn).
  destruct Hf as (Hn0 & Hcap & Hb).
  rewrite length_app in Hn. cbn [length] in Hn.
  assert (Hlen : length a' = length a).
  { subst a a'. rewrite !length_app. cbn [length]. rewrite !length_app. cbn [length]. lia. }
  split; [|split; [|exact Hlen]].
  - split; [lia|]. split; [lia|].
    subst a a'. rewrite !Forall_app, !Forall_cons, !Forall_app in *.
    destruct Hb as (H1 & Hx & H2 & Hr). split_and!; try assumption.
    apply elem_of_cons in Hz as [-> | Hz]; [exact Hx|].
    rewrite Forall_forall in H2. apply H2, Hz.
  - subst a'. rewrite app_assoc. apply take_live. rewrite length_app. lia.
Qed.

Lemma closed_gap_rd l1 x l2 a a' :
  closed_gap l1 x l2 a a' ->
  (forall j, 0 <= j < Z.of_nat (length l1) -> rd a' j = rd a j)
  /\ (forall j, Z.of_nat (length l1) < j < Z.of_nat (length l1 + S (length l2)) ->
        rd a' (j - 1) = rd a j).
Proof.
  intros (z & r & -> & -> & _). unfold rd. split; intros j Hj.
  - rewrite !lookup_app_l by lia. reflexivity.
  - rewrite (lookup_app_r l1 (l2 ++ z :: r)) by lia.
    rewrite (lookup_app_r l1 (x :: l2 ++ r)) by lia.
    replace (Z.to_nat j - length l1)%nat with (S (Z.to_nat (j - 1) - length l1)) by lia.
    change ((x :: l2 ++ r) !! S (Z.to_nat (j - 1) - length l1)) with ((l2 ++ r) !! (Z.to_nat (j - 1) - length l1)%nat).
    rewrite !lookup_app_l by lia. reflexivity.
Qed.

Lemma live_middle (l : list Z) i :
  0 <= i < Z.of_nat (length l) ->
  exists x, l = take (Z.to_nat i) l ++ x :: drop (S (Z.to_nat i)) l
            /\ Z.of_nat (length (take (Z.to_nat i) l)) = i.
Proof.
  intros Hi. destruct (lookup_lt_is_Some_2 l (Z.to_nat i)) as [x Hx]; [lia|].
  exists x. split.
  - symmetry. apply take_drop_middle, Hx.
  - rewrite length_take_le by lia. lia.
Qed.

Lemma live_length n a : fits n a -> Z.of_nat (length (take (Z.to_nat n) a)) = n.
Proof. intros (Hn & _). rewrite length_take_le by lia. lia. Qed.

(** ** Occupancy queries *)

Lemma asteroid_at_spec x y s :
  fits (numAsteroids s) (asteroids s) ->
  ((packed x y ∉ live_asteroids s) /\ asteroid_at x y s = -1)
  \/ (exists l1 l2, live_asteroids s = l1 ++ packed x y :: l2 /\ (packed x y ∉ l1)
        /\ asteroid_at x y s = Z.of_nat (length l1)).
Proof. intros Hf. exact (scan_live _ _ (packed x y) Hf). Qed.

Lemma projectile_at_spec x y s :
  fits (numProjectiles s) (projectiles s) ->
  ((packed x y ∉ live_projectiles s) /\ projectile_at x y s = -1)
  \/ (exists l1 l2, live_projectiles s = l1 ++ packed x y :: l2 /\ (packed x y ∉ l1)
        /\ projectile_at x y s = Z.of_nat (length l1)).
Proof. intros Hf. exact (scan_live _ _ (packed x y) Hf). Qed.

(** An index returned by a query, when it is not -1, is that of a live
    entry. *)
Lemma split_index_range (l l1 l2 : list Z) x n :
  Z.of_nat (length l) = n -> n <= 127 -> l = l1 ++ x :: l2 ->
  0 <= Z.of_nat (length l1) < n /\ to_int8 (Z.of_nat (length l1)) = Z.of_nat (length l1).
Proof.
  intros Hn Hcap ->. rewrite length_app in Hn. cbn [length] in Hn.
  split; [lia|]. apply to_int8_small. lia.
Qed.

(** ** Collisions *)

Lemma check_asteroid_hit_miss p a s :
  to_int8 p = -1 \/ to_int8 a = -1 -> check_asteroid_hit p a s = (s, 0).
Proof.
  intros H. unfold check_asteroid_hit.
  destruct (Z.eqb_spec (to_int8 p) (-1)); [reflexivity|].
  destruct (Z.eqb_spec (to_int8 a) (-1)); [reflexivity|]. lia.
Qed.

(** A hit between the live projectile number [p] and the live asteroid
    number [a] closes both gaps, adds one to the score and plays the coin
    track; nothing else changes. *)
Lemma check_asteroid_hit_hit s pl1 px pl2 al1 ax al2 p a :
  fits (numProjectiles s) (projectiles s) ->
  fits (numAsteroids s) (asteroids s) ->
  live_projectiles s = pl1 ++ px :: pl2 -> p = Z.of_nat (length pl1) ->
  live_asteroids s = al1 ++ ax :: al2 -> a = Z.of_nat (length al1) ->
  exists ps' as' t,
    closed_gap pl1 px pl2 (projectiles s) ps'
    /\ closed_gap al1 ax al2 (asteroids s) as'
    /\ check_asteroid_hit p a s
       = (mkState (basePosition s) (numProjectiles s - 1) ps' (numAsteroids s - 1) as'
                  (paused s) (score s + 1) (lives s) (rand_calls s) t, 1).
Proof.
  intros Hfp Hfa Hlp -> Hla ->.
  pose proof (live_length _ _ Hfp) as Hnp. pose proof (live_length _ _ Hfa) as Hna.
  pose proof Hfp as (? & Hcp & ?). pose proof Hfa as (? & Hca & ?).
  destruct (split_index_range _ _ _ _ _ Hnp ltac:(lia) Hlp) as [Hp1 Hp2].
  destruct (split_index_range _ _ _ _ _ Hna ltac:(lia) Hla) as [Ha1 Ha2].
  unfold check_asteroid_hit. rewrite Hp2, Ha2.
  destruct (Z.eqb_spec (Z.of_nat (length pl1)) (-1)); [lia|].
  destruct (Z.eqb_spec (Z.of_nat (length al1)) (-1)); [lia|]. cbn [orb].
  destruct (remove_projectile_in s pl1 px pl2 _ Hfp Hlp eq_refl)
    as (ps' & t1 & Hgp & ->).
  destruct (remove_asteroid_in (with_projectiles (numProjectiles s - 1) ps' t1 s)
              al1 ax al2 _ Hfa Hla eq_refl)
    as (as' & t2 & Hga & ->).
  exists ps', as', (play_track TRACK_COIN :: t2).
  split; [exact Hgp|]. split; [exact Hga|]. reflexivity.
Qed.

(** A base cell without asteroid: nothing happens. *)
Lemma check_base_hit_free x y s :
  fits (numAsteroids s) (asteroids s) ->
  (packed (to_int8 x) (to_int8 y) ∉ live_asteroids s) ->
  check_base_hit x y s = (s, 0).
Proof.
  intros Hf Hfree. unfold check_base_hit.
  destruct (asteroid_at_spec (to_int8 x) (to_int8 y) s Hf) as [[_ ->] | (l1 & l2 & Hl & _)].
  - reflexivity.
  - exfalso. apply Hfree. rewrite Hl. apply elem_of_app. right. left.
Qed.

(** A base cell with an asteroid: the first asteroid there is removed, one
    life is lost and the error track is played. *)
Lemma check_base_hit_hit x y s :
  fits (numAsteroids s) (asteroids s) ->
  packed (to_int8 x) (to_int8 y) ∈ live_asteroids s ->
  exists l1 l2 as' t,
    live_asteroids s = l1 ++ packed (to_int8 x) (to_int8 y) :: l2
    /\ (packed (to_int8 x) (to_int8 y) ∉ l1)
    /\ closed_gap l1 (packed (to_int8 x) (to_int8 y)) l2 (asteroids s) as'
    /\ check_base_hit x y s
       = (mkState (basePosition s) (numProjectiles s) (projectiles s) (numAsteroids s - 1) as'
                  (paused s) (score s) (lives s - 1) (rand_calls s) t, 1).
Proof.
  intros Hf Hin. unfold check_base_hit.
  destruct (asteroid_at_spec (to_int8 x) (to_int8 y) s Hf) as [[Hnot _] | (l1 & l2 & Hl & Hnot & ->)].
  - contradiction.
  - pose proof (live_length _ _ Hf) as Hn. pose proof Hf as (? & Hcap & ?).
    destruct (split_index_range _ _ _ _ _ Hn ltac:(lia) Hl) as [H1 H2].
    destruct (Z.eqb_spec (Z.of_nat (length l1)) (-1)); [lia|].
    destruct (remove_asteroid_in s l1 _ l2 _ Hf Hl eq_refl) as (as' & t & Hg & ->).
    exists l1, l2, as', (play_track TRACK_ERROR :: t).
    split; [exact Hl|]. split; [exact Hnot|]. split; [exact Hg|]. reflexivity.
Qed.

(** ** Base hits *)

Lemma remove_first_absent c l : (c ∉ l) -> remove_first c l = l.
Proof.
  induction l as [|p l IH]; intros Hc; [reflexivity|].
  apply not_elem_of_cons in Hc as [Hne Hc]. simpl.
  destruct (Z.eqb_spec p c); [congruence|]. rewrite IH by assumption. reflexivity.
Qed.

Lemma remove_first_split c l1 l2 : (c ∉ l1) -> remove_first c (l1 ++ c :: l2) = l1 ++ l2.
Proof.
  induction l1 as [|p l1 IH]; intros Hc; simpl.
  - rewrite Z.eqb_refl. reflexivity.
  - apply not_elem_of_cons in Hc as [Hne Hc].
    destruct (Z.eqb_spec p c); [congruence|]. rewrite IH by assumption. reflexivity.
Qed.

Lemma remove_first_other c c' l : c' <> c -> c' ∈ remove_first c l <-> c' ∈ l.
Proof.
  intros Hne. induction l as [|p l IH]; simpl; [reflexivity|].
  destruct (Z.eqb_spec p c) as [-> | Hp].
  - rewrite elem_of_cons. tauto.
  - rewrite !elem_of_cons, IH. reflexivity.
Qed.

Lemma remove_first_sublist c l : remove_first c l `sublist_of` l.
Proof.
  induction l as [|p l IH]; simpl; [constructor|].
  destruct (p =? c); [apply sublist_cons, reflexivity | apply sublist_skip, IH].
Qed.

Lemma remove_first_NoDup c l : NoDup l -> remove_first c l = filter (fun p => p <> c) l.
Proof.
  induction l as [|p l IH]; intros Hnd; [reflexivity|].
  apply NoDup_cons in Hnd as [Hp Hnd]. simpl. destruct (Z.eqb_spec p c) as [-> | Hne].
  - rewrite filter_cons_False by tauto.
    rewrite <- (IH Hnd). symmetry. apply remove_first_absent, Hp.
  - rewrite filter_cons_True by assumption. rewrite (IH Hnd). reflexivity.
Qed.

(** One base-hit check, whatever the cell holds: [b] is 1 when the cell is
    occupied and 0 when it is free. *)
Lemma check_base_hit_step x y s l :
  fits (numAsteroids s) (asteroids s) ->
  live_asteroids s = l ->
  exists b as' t,
    b = (if decide (base_cell x y ∈ l) then 1 else 0)
    /\ check_base_hit x y s
      = (mkState (basePosition s) (numProjectiles s) (projectiles s) (numAsteroids s - b) as'
                 (paused s) (score s) (lives s - b) (rand_calls s) t, b)
    /\ fits (numAsteroids s - b) as'
    /\ take (Z.to_nat (numAsteroids s - b)) as' = remove_first (base_cell x y) l
    /\ length as' = length (asteroids s).
Proof.
  intros Hf <-. destruct (decide (base_cell x y ∈ live_asteroids s)) as [Hin | Hnot].
  - destruct (check_base_hit_hit x y s Hf Hin) as (l1 & l2 & as' & t & Hl & Hn1 & Hg & ->).
    exists 1, as', t. split; [reflexivity|]. split; [reflexivity|].
    destruct (closed_gap_fits _ _ _ _ _ _ Hf Hl Hg) as (Hf' & Hl' & Hlen).
    split; [exact Hf'|]. split; [|exact Hlen].
    rewrite Hl'. rewrite Hl. symmetry. apply remove_first_split, Hn1.
  - exists 0, (asteroids s), (trace s). split; [reflexivity|].
    rewrite check_base_hit_free by assumption.
    rewrite !Z.sub_0_r. split; [destruct s; reflexivity|].
    split; [exact Hf|]. split; [|reflexivity].
    symmetry. apply remove_first_absent, Hnot.
Qed.

(** The four cells of the base are four different packed positions,
    wherever the base is. *)
Lemma footprint_distinct base :
  -128 <= base < 128 ->
  base_cell base 1 <> base_cell (base - 1) 0
  /\ base_cell base 1 <> base_cell base 0
  /\ base_cell base 1 <> base_cell (base + 1) 0
  /\ base_cell (base - 1) 0 <> base_cell base 0
  /\ base_cell (base - 1) 0 <> base_cell (base + 1) 0
  /\ base_cell base 0 <> base_cell (base + 1) 0.
Proof.
  clear MAX_PROJECTILES MAX_ASTEROIDS random. intros Hb.
  set (test := fun p : Z =>
    let base := p - 128 in
    negb (base_cell base 1 =? base_cell (base - 1) 0)
    && negb (base_cell base 1 =? base_cell base 0)
    && negb (base_cell base 1 =? base_cell (base + 1) 0)
    && negb (base_cell (base - 1) 0 =? base_cell base 0)
    && negb (base_cell (base - 1) 0 =? base_cell (base + 1) 0)
    && negb (base_cell base 0 =? base_cell (base + 1) 0)).
  assert (H : test (base + 128) = true).
  { apply (forall_bytes test); [vm_compute; reflexivity | lia]. }
  unfold test in H. replace (base + 128 - 128) with base in H by lia.
  repeat (apply andb_true_iff in H as [H ?]).
  repeat match goal with
  | H : negb (_ =? _) = true |- _ => apply negb_true_iff, Z.eqb_neq in H
  end.
  tauto.
Qed.

(** The whole base-hit check: one asteroid is removed from every occupied
    cell of the base and one life is lost for each. *)
Lemma check_all_base_hits_spec s :
  fits (numAsteroids s) (asteroids s) ->
  -128 <= basePosition s < 128 ->
  let k := base_hits s in
  exists as' t,
    check_all_base_hits s
    = mkState (basePosition s) (numProjectiles s) (projectiles s) (numAsteroids s - k) as'
              (paused s) (score s) (lives s - k) (rand_calls s) t
    /\ fits (numAsteroids s - k) as'
    /\ take (Z.to_nat (numAsteroids s - k)) as'
       = remove_first (base_cell (basePosition s + 1) 0)
           (remove_first (base_cell (basePosition s) 0)
              (remove_first (base_cell (basePosition s - 1) 0)
                 (remove_first (base_cell (basePosition s) 1) (live_asteroids s))))
    /\ length as' = length (asteroids s).
Proof.
  intros Hf Hb k.
  destruct (footprint_distinct _ Hb) as (D12 & D13 & D14 & D23 & D24 & D34).
  unfold check_all_base_hits.
  destruct (check_base_hit_step (basePosition s) 1 s _ Hf eq_refl)
    as (b1 & a1 & t1 & Hb1 & -> & Hf1 & Hl1 & Hn1).
  cbn [fst basePosition].
  match goal with
  | |- context [check_base_hit ?x ?y (mkState ?a ?b ?c ?d ?e ?f ?g ?h ?i ?j)] =>
      destruct (check_base_hit_step x y (mkState a b c d e f g h i j) _ Hf1 Hl1)
        as (b2 & a2 & t2 & Hb2 & -> & Hf2 & Hl2 & Hn2)
  end.
  cbn [fst basePosition numAsteroids asteroids numProjectiles projectiles paused score lives
       rand_calls] in *.
  match goal with
  | |- context [check_base_hit ?x ?y (mkState ?a ?b ?c ?d ?e ?f ?g ?h ?i ?j)] =>
      destruct (check_base_hit_step x y (mkState a b c d e f g h i j) _ Hf2 Hl2)
        as (b3 & a3 & t3 & Hb3 & -> & Hf3 & Hl3 & Hn3)
  end.
  cbn [fst basePosition numAsteroids asteroids numProjectiles projectiles paused score lives
       rand_calls] in *.
  match goal with
  | |- context [check_base_hit ?x ?y (mkState ?a ?b ?c ?d ?e ?f ?g ?h ?i ?j)] =>
      destruct (check_base_hit_step x y (mkState a b c d e f g h i j) _ Hf3 Hl3)
        as (b4 & a4 & t4 & Hb4 & -> & Hf4 & Hl4 & Hn4)
  end.
  cbn [fst basePosition numAsteroids asteroids numProjectiles projectiles paused score lives
       rand_calls] in *.
  assert (Hk : k = b1 + b2 + b3 + b4).
  { subst k b1 b2 b3 b4. unfold base_hits, footprint, footprint_of.
    rewrite !filter_cons, filter_nil.
    repeat case_decide; try reflexivity;
      rewrite ?remove_first_other in * by congruence; tauto. }
  exists a4, t4.
  replace (numAsteroids s - k) with (numAsteroids s - b1 - b2 - b3 - b4) by lia.
  replace (lives s - k) with (lives s - b1 - b2 - b3 - b4) by lia.
  split; [reflexivity|]. split; [exact Hf4|]. split; [exact Hl4|]. congruence.
Qed.

(** ** Spawning *)

Lemma to_uint8_idem z : to_uint8 (to_uint8 z) = to_uint8 z.
Proof. apply to_uint8_small, to_uint8_range. Qed.

Lemma sample_cell_packed r n : packed (sample_x n) (sample_y r n) = sample_cell r n.
Proof. unfold packed, sample_cell, sample_x, sample_y. rewrite !to_uint8_idem. reflexivity. Qed.

Lemma asteroid_at_free x y s :
  fits (numAsteroids s) (asteroids s) ->
  (asteroid_at x y s =? -1) = negb (bool_decide (packed x y ∈ live_asteroids s)).
Proof.
  intros Hf. destruct (asteroid_at_spec x y s Hf) as [[Hnot ->] | (l1 & l2 & Hl & _ & ->)].
  - rewrite bool_decide_eq_false_2 by assumption. reflexivity.
  - rewrite bool_decide_eq_true_2 by (rewrite Hl; apply elem_of_app; right; left).
    simpl. apply Z.eqb_neq. lia.
Qed.

Lemma projectile_at_free x y s :
  fits (numProjectiles s) (projectiles s) ->
  (projectile_at x y s =? -1) = negb (bool_decide (packed x y ∈ live_projectiles s)).
Proof.
  intros Hf. destruct (projectile_at_spec x y s Hf) as [[Hnot ->] | (l1 & l2 & Hl & _ & ->)].
  - rewrite bool_decide_eq_false_2 by assumption. reflexivity.
  - rewrite bool_decide_eq_true_2 by (rewrite Hl; apply elem_of_app; right; left).
    simpl. apply Z.eqb_neq. lia.
Qed.

(** The spawn loop, entered with [attempts] failures behind it, makes the
    attempts that [first_free] goes through: it appends the first free cell
    sampled, or gives up after [129 - attempts] attempts, having changed
    nothing but the count of random() calls. *)
Lemma spawn_loop_spec r fuel : forall attempts s,
  fits (numAsteroids s) (asteroids s) ->
  0 <= attempts <= 128 ->
  (Z.to_nat (129 - attempts) <= fuel)%nat ->
  match first_free (live_asteroids s) r (rand_calls s) (Z.to_nat (129 - attempts)) with
  | Some n =>
      exists t,
        spawn_loop fuel r (numAsteroids s) attempts s
        = mkState (basePosition s) (numProjectiles s) (projectiles s)
                  (to_int8 (numAsteroids s + 1))
                  (wr (asteroids s) (numAsteroids s) (sample_cell r n))
                  (paused s) (score s) (lives s) (S (S n)) t
  | None =>
      spawn_loop fuel r (numAsteroids s) attempts s
      = set_rand_calls (rand_calls s + 2 * Z.to_nat (129 - attempts)) s
  end.
Proof.
  induction fuel as [|fuel IH]; intros attempts s Hf Ha Hfuel; [lia|].
  replace (Z.to_nat (129 - attempts)) with (S (Z.to_nat (129 - (attempts + 1)))) by lia.
  cbn [first_free spawn_loop].
  change (asteroid_at ?x ?y (set_rand_calls _ (set_rand_calls _ s))) with (asteroid_at x y s).
  cbn [rand_calls set_rand_calls].
  rewrite asteroid_at_free by assumption.
  fold (sample_x (rand_calls s)). fold (sample_y r (rand_calls s)).
  rewrite sample_cell_packed. fold (sample_cell r (rand_calls s)).
  destruct (bool_decide (sample_cell r (rand_calls s) ∈ live_asteroids s)); cbn [negb].
  - rewrite to_uint8_small by lia.
    destruct (Z.leb_spec (attempts + 1) (8 * 16)) as [Hle | Hgt].
    + specialize (IH (attempts + 1) (set_rand_calls (S (S (rand_calls s))) s) Hf
                     ltac:(lia) ltac:(lia)).
      change (live_asteroids (set_rand_calls _ s)) with (live_asteroids s) in IH.
      cbn [rand_calls set_rand_calls numAsteroids asteroids basePosition numProjectiles
           projectiles paused score lives] in IH.
      destruct (first_free _ _ _ _) as [n|].
      * destruct IH as [t IH]. exists t. destruct s. simpl_state. exact IH.
      * destruct s. simpl_state. rewrite IH. f_equal. lia.
    + replace (Z.to_nat (129 - (attempts + 1))) with O by lia. cbn [first_free].
      destruct s. simpl_state. f_equal. lia.
  - unfold redraw_asteroid. simpl_state.
    rewrite (to_uint8_small (numAsteroids s)) by (destruct Hf as (? & ? & _); lia).
    destruct (_ <? _); eexists; reflexivity.
Qed.

Lemma first_free_Some live r k : forall n m,
  first_free live r n k = Some m ->
  (sample_cell r m ∉ live)
  /\ exists j, (j < k)%nat /\ m = (n + 2 * j)%nat
       /\ forall j', (j' < j)%nat -> sample_cell r (n + 2 * j') ∈ live.
Proof.
  induction k as [|k IH]; intros n m H; [discriminate|].
  cbn [first_free] in H. destruct (bool_decide_reflect (sample_cell r n ∈ live)) as [Hin | Hnot].
  - destruct (IH _ _ H) as (Hm & j & Hj & -> & Hprev). split; [exact Hm|].
    exists (S j). split; [lia|]. split; [lia|].
    intros [|j'] Hj'.
    + replace (n + 2 * 0)%nat with n by lia. exact Hin.
    + replace (n + 2 * S j')%nat with (S (S n) + 2 * j')%nat by lia. apply Hprev. lia.
  - inversion H; subst m. split; [exact Hnot|].
    exists O. split; [lia|]. split; [lia|]. intros j' Hj'. lia.
Qed.

Lemma first_free_None live r k : forall n,
  first_free live r n k = None ->
  forall j, (j < k)%nat -> sample_cell r (n + 2 * j) ∈ live.
Proof.
  induction k as [|k IH]; intros n H j Hj; [lia|].
  cbn [first_free] in H. destruct (bool_decide_reflect (sample_cell r n ∈ live)) as [Hin | Hnot].
  - destruct j as [|j].
    + replace (n + 2 * 0)%nat with n by lia. exact Hin.
    + replace (n + 2 * S j)%nat with (S (S n) + 2 * j)%nat by lia. apply (IH _ H). lia.
  - discriminate.
Qed.

(** One call of [add_asteroid_in_rows]: nothing on a full list; otherwise
    up to 129 attempts, the first free cell sampled being appended. *)
Lemma add_asteroid_in_rows_spec r s :
  fits (numAsteroids s) (asteroids s) ->
  if numAsteroids s =? MAX_ASTEROIDS then add_asteroid_in_rows r s = s
  else
    match first_free (live_asteroids s) (to_uint8 r) (rand_calls s) 129 with
    | Some n =>
        exists t,
          add_asteroid_in_rows r s
          = mkState (basePosition s) (numProjectiles s) (projectiles s)
                    (to_int8 (numAsteroids s + 1))
                    (wr (asteroids s) (numAsteroids s) (sample_cell (to_uint8 r) n))
                    (paused s) (score s) (lives s) (S (S n)) t
    | None =>
        add_asteroid_in_rows r s = set_rand_calls (rand_calls s + 258) s
    end.
Proof.
  intros Hf. unfold add_asteroid_in_rows.
  destruct (numAsteroids s =? MAX_ASTEROIDS); [reflexivity|].
  rewrite (to_uint8_small (numAsteroids s)) by (destruct Hf as (? & ? & _); lia).
  exact (spawn_loop_spec (to_uint8 r) 256 0 s Hf ltac:(lia) ltac:(lia)).
Qed.

(** With a random() that returns no negative value, as the C library's
    does, every attempt samples a column of the field and a row from
    [blockedRows] up. *)
Lemma sample_in_range r n :
  (forall k, 0 <= random k) -> 0 <= r < FIELD_HEIGHT ->
  0 <= sample_x n < FIELD_WIDTH
  /\ r <= sample_y r n < FIELD_HEIGHT
  /\ GET_X_POSITION (sample_cell r n) = sample_x n
  /\ GET_Y_POSITION (sample_cell r n) = sample_y r n.
Proof.
  intros Hpos Hr. unfold FIELD_WIDTH, FIELD_HEIGHT in *.
  assert (Hx : 0 <= Z.rem (random n) 8 < 8).
  { rewrite Z.rem_mod_nonneg by (try apply Hpos; lia). apply Z.mod_pos_bound. lia. }
  assert (Hy : 0 <= Z.rem (random (S n)) (16 - r) < 16 - r).
  { rewrite Z.rem_mod_nonneg by (try apply Hpos; lia). apply Z.mod_pos_bound. lia. }
  unfold sample_cell, sample_x, sample_y, FIELD_WIDTH, FIELD_HEIGHT.
  rewrite (to_uint8_small (Z.rem (random n) 8)) by lia.
  rewrite (to_uint8_small (r + Z.rem (random (S n)) (16 - r))) by lia.
  split; [lia|]. split; [lia|].
  set (x := Z.rem (random n) 8) in *. set (y := r + Z.rem (random (S n)) (16 - r)) in *.
  assert (Hy' : 0 <= y < 16) by (subst y; lia). clearbody x y.
  assert (H : forall p, 0 <= p < 256 ->
            (negb (p <? 128)
             || ((GET_X_POSITION (to_uint8 (GAME_POSITION (p / 16) (p mod 16))) =? p / 16)
                 && (GET_Y_POSITION (to_uint8 (GAME_POSITION (p / 16) (p mod 16))) =? p mod 16)))
            = true).
  { apply (forall_bytes (fun p =>
       negb (p <? 128)
       || ((GET_X_POSITION (to_uint8 (GAME_POSITION (p / 16) (p mod 16))) =? p / 16)
           && (GET_Y_POSITION (to_uint8 (GAME_POSITION (p / 16) (p mod 16))) =? p mod 16)))).
    vm_compute. reflexivity. }
  specialize (H (16 * x + y) ltac:(lia)).
  replace ((16 * x + y) / 16) with x in H by (apply Z.div_unique with y; lia).
  replace ((16 * x + y) mod 16) with y in H by (apply Z.mod_unique with x; lia).
  destruct (Z.ltb_spec (16 * x + y) 128); [|lia]. cbn [negb orb] in H.
  apply andb_true_iff in H. lia.
Qed.

(** On the game whose asteroids fill the top row, a call for the top row
    runs out of attempts whatever random() returns: it makes 129 of them. *)
Lemma top_row_full_exhausts :
  (forall k, 0 <= random k) -> MAX_ASTEROIDS <> 8 ->
  add_asteroid_in_rows (FIELD_HEIGHT - 1) top_row_full
  = set_rand_calls (2 * 129) top_row_full.
Proof.
  intros Hpos Hmax.
  assert (Hf : fits (numAsteroids top_row_full) (asteroids top_row_full))
    by (split; [cbn; lia|]; split; [cbn; lia|]; repeat constructor; unfold byte; lia).
  pose proof (add_asteroid_in_rows_spec (FIELD_HEIGHT - 1) top_row_full Hf) as H.
  destruct (Z.eqb_spec (numAsteroids top_row_full) MAX_ASTEROIDS) as [E | _];
    [cbn in E; congruence|].
  assert (Hnone : forall k n,
            first_free (live_asteroids top_row_full) (to_uint8 (FIELD_HEIGHT - 1)) n k = None).
  { induction k as [|k IH]; intros n; [reflexivity|]. cbn [first_free].
    rewrite bool_decide_eq_true_2; [apply IH|].
    destruct (sample_in_range 15 n Hpos ltac:(unfold FIELD_HEIGHT; lia)) as (Hx & _ & _).
    unfold FIELD_WIDTH in Hx.
    unfold sample_cell, sample_y. change (to_uint8 (FIELD_HEIGHT - 1)) with 15.
    change (FIELD_HEIGHT - 15) with 1. rewrite Z.rem_1_r. change (to_uint8 (15 + 0)) with 15.
    assert (Hcases : sample_x n = 0 \/ sample_x n = 1 \/ sample_x n = 2 \/ sample_x n = 3
                     \/ sample_x n = 4 \/ sample_x n = 5 \/ sample_x n = 6 \/ sample_x n = 7)
      by lia.
    change (live_asteroids top_row_full) with [15; 31; 47; 63; 79; 95; 111; 127].
    repeat (destruct Hcases as [-> | Hcases];
            [apply list_elem_of_In; cbn; tauto|]).
    rewrite Hcases. apply list_elem_of_In; cbn; tauto. }
  rewrite Hnone in H. exact H.
Qed.

(** ** Sorting *)

Lemma le_y_trans p q r : le_y p q -> le_y q r -> le_y p r.
Proof. unfold le_y. lia. Qed.

(** The inner loop of the insertion sort, entered with the hole at the end
    of the sorted part [l1]: it stops with the hole between [l1a] and [l1b],
    all of [l1b] being above [temp] and the last of [l1a], if any, not. *)
Lemma sort_shift_spec temp l1 : forall h rest,
  Z.of_nat (length l1) <= 255 ->
  exists l1a l1b h',
    l1 = l1a ++ l1b
    /\ sort_shift (length l1) temp (Z.of_nat (length l1)) (l1 ++ h :: rest)
       = (Z.of_nat (length l1a), l1a ++ h' :: l1b ++ rest)
    /\ Forall (fun p => GET_Y_POSITION temp < GET_Y_POSITION p) l1b
    /\ (forall l0 p, l1a = l0 ++ [p] -> le_y p temp).
Proof.
  induction l1 as [|p l1 IH] using rev_ind; intros h rest Hlen.
  - exists [], [], h. split; [reflexivity|]. split; [reflexivity|].
    split; [constructor|]. intros [|] ? ?; discriminate.
  - rewrite length_app in *. cbn [length] in *.
    replace (length l1 + 1)%nat with (S (length l1)) by lia.
    cbn [sort_shift].
    replace (Z.of_nat (S (length l1)) - 1) with (Z.of_nat (length l1)) by lia.
    assert (Hrd : rd ((l1 ++ [p]) ++ h :: rest) (Z.of_nat (length l1)) = p).
    { rewrite <- app_assoc. apply rd_app_middle. reflexivity. }
    rewrite Hrd.
    destruct (Z.ltb_spec 0 (Z.of_nat (S (length l1)))); [|lia]. cbn [andb].
    destruct (Z.gtb_spec (GET_Y_POSITION p) (GET_Y_POSITION temp)) as [Hgt | Hle].
    + rewrite to_uint8_small by lia.
      rewrite (wr_app_middle (l1 ++ [p]) h rest)
        by (rewrite length_app; cbn [length]; lia).
      rewrite <- app_assoc. cbn [app].
      destruct (IH p (p :: rest) ltac:(lia)) as (l1a & l1b & h' & Hl & Hs & Hb & Ha).
      exists l1a, (l1b ++ [p]), h'. split; [rewrite Hl, app_assoc; reflexivity|].
      split; [rewrite Hs, <- app_assoc; reflexivity|].
      split; [|exact Ha]. apply Forall_app. split; [exact Hb|]. constructor; [lia|constructor].
    + exists (l1 ++ [p]), [], h. split; [rewrite app_nil_r; reflexivity|].
      split; [rewrite length_app; cbn [length app]; f_equal; lia|].
      split; [constructor|].
      intros l0 q Hq. apply app_inj_tail in Hq as [_ <-]. unfold le_y. lia.
Qed.

(** Inserting the entry [x] that follows the sorted part [l]. *)
Lemma sort_insert_spec l x rest :
  Z.of_nat (length l) <= 255 -> sorted_by_y l ->
  exists l', sort_insert (Z.of_nat (length l)) (l ++ x :: rest) = l' ++ rest
             /\ sorted_by_y l' /\ l' ≡ₚ l ++ [x].
Proof.
  intros Hlen Hs. unfold sort_insert.
  rewrite (rd_app_middle l x rest) by reflexivity. rewrite Nat2Z.id.
  destruct (sort_shift_spec x l x rest Hlen) as (l1a & l1b & h' & Hl & -> & Hb & Ha).
  rewrite (wr_app_middle l1a h' (l1b ++ rest)) by reflexivity.
  exists (l1a ++ x :: l1b). split; [rewrite <- app_assoc; reflexivity|].
  subst l. split.
  - unfold sorted_by_y in *. apply StronglySorted_app in Hs as (Hab & Hsa & Hsb).
    apply StronglySorted_app. split; [|split; [exact Hsa|]].
    + intros p q Hp Hq.
      assert (Hpx : le_y p x).
      { destruct l1a as [|a l1a _] using rev_ind; [inversion Hp|].
        specialize (Ha l1a a eq_refl).
        apply elem_of_app in Hp as [Hp | Hp].
        - apply StronglySorted_app in Hsa as (Hsa & _ & _).
          eapply le_y_trans; [|exact Ha]. apply Hsa; [exact Hp | left].
        - apply list_elem_of_singleton in Hp as ->. exact Ha. }
      apply elem_of_cons in Hq as [-> | Hq]; [exact Hpx|].
      apply Hab; assumption.
    + constructor; [exact Hsb|]. eapply Forall_impl; [exact Hb|]. unfold le_y. simpl. lia.
  - rewrite <- app_assoc. apply Permutation_app_head.
    apply Permutation_cons_append.
Qed.

(** The outer loop, entered with the sorted part [l] before the entries
    [todo] still to insert. *)
Lemma sort_loop_spec todo : forall l rest,
  Z.of_nat (length l + length todo) <= 255 -> sorted_by_y l ->
  exists l', for_loop (length todo) (Z.of_nat (length l)) sort_insert (l ++ todo ++ rest)
             = l' ++ rest
             /\ sorted_by_y l' /\ l' ≡ₚ l ++ todo.
Proof.
  induction todo as [|x todo IH]; intros l rest Hlen Hs.
  - exists l. rewrite app_nil_r. split; [reflexivity|]. split; [exact Hs | reflexivity].
  - cbn [length for_loop]. cbn [length] in Hlen.
    destruct (sort_insert_spec l x (todo ++ rest) ltac:(lia) Hs) as (l1 & Hi & Hs1 & Hp1).
    cbn [app]. rewrite Hi.
    assert (Hl1 : length l1 = S (length l)).
    { rewrite (Permutation_length Hp1), length_app. cbn [length]. lia. }
    destruct (IH l1 rest ltac:(lia) Hs1) as (l' & Hl' & Hs' & Hp').
    exists l'. split.
    + rewrite <- Hl'. f_equal. rewrite Hl1. lia.
    + split; [exact Hs'|]. rewrite Hp', Hp1, <- app_assoc. reflexivity.
Qed.

(** [sort_asteroids] leaves the live asteroids sorted by row and a
    permutation of what they were; it touches nothing else. *)
Lemma sort_asteroids_spec s :
  fits (numAsteroids s) (asteroids s) ->
  exists a', sort_asteroids s = set_asteroids a' s
             /\ fits (numAsteroids s) a'
             /\ length a' = length (asteroids s)
             /\ sorted_by_y (take (Z.to_nat (numAsteroids s)) a')
             /\ take (Z.to_nat (numAsteroids s)) a' ≡ₚ live_asteroids s.
Proof.
  intros Hf. unfold sort_asteroids, for_range. rewrite for_loop_set_asteroids.
  destruct (live_split _ _ _ Hf eq_refl) as (r & Ha & Hn).
  pose proof Hf as (Hn0 & Hcap & Hb).
  fold (live_asteroids s) in Ha, Hn.
  destruct (live_asteroids s) as [|x l] eqn:El.
  - cbn [length] in Hn. replace (Z.to_nat (numAsteroids s - 1)) with O by lia.
    exists (asteroids s). cbn [for_loop]. split; [reflexivity|]. split; [exact Hf|].
    split; [reflexivity|]. unfold live_asteroids in El. rewrite El.
    split; [constructor | reflexivity].
  - cbn [length] in Hn.
    destruct (sort_loop_spec l [x] r) as (l' & Hl' & Hs' & Hp').
    { cbn [length]. rewrite Ha, length_app in Hcap. cbn [length] in Hcap. lia. }
    { repeat constructor. }
    replace (Z.to_nat (numAsteroids s - 1)) with (length l) by lia.
    cbn [length] in Hl'. change (Z.of_nat 1) with 1 in Hl'.
    rewrite Ha. cbn [app] in Hl' |- *. rewrite Hl'.
    exists (l' ++ r).
    assert (Hlen : length l' = S (length l)).
    { rewrite (Permutation_length Hp'). reflexivity. }
    assert (Htake : take (Z.to_nat (numAsteroids s)) (l' ++ r) = l').
    { apply take_live. lia. }
    split; [reflexivity|]. split; [|split; [|split]].
    + split; [rewrite length_app; lia|]. split.
      * rewrite Ha in Hcap. rewrite length_app in *. cbn [length] in Hcap. lia.
      * rewrite Ha in Hb. apply Forall_app in Hb as [Hb1 Hb2].
        apply Forall_app. split; [|exact Hb2].
        rewrite Hp'. exact Hb1.
    + cbn [length]. rewrite !length_app. lia.
    + rewrite Htake. exact Hs'.
    + rewrite Htake. exact Hp'.
Qed.

(** ** Drawing leaves the game alone *)

Lemma draws_only_emit e : draws_only (emit e).
Proof. intros s. exists (e :: trace s). reflexivity. Qed.

Lemma draws_only_redraw_asteroid i c : draws_only (redraw_asteroid i c).
Proof.
  intros s. unfold redraw_asteroid. destruct (_ <? _).
  - apply draws_only_emit.
  - exists (trace s). destruct s; reflexivity.
Qed.

Lemma draws_only_redraw_projectile i c : draws_only (redraw_projectile i c).
Proof.
  intros s. unfold redraw_projectile. destruct (_ <? _).
  - apply draws_only_emit.
  - exists (trace s). destruct s; reflexivity.
Qed.

Lemma draws_only_compose f g : draws_only f -> draws_only g -> draws_only (fun s => g (f s)).
Proof.
  intros Hf Hg s. destruct (Hf s) as [t ->]. destruct (Hg (set_trace t s)) as [t' ->].
  exists t'. reflexivity.
Qed.

Lemma draws_only_for_loop (body : Z -> State -> State) n :
  (forall i, draws_only (body i)) -> forall i, draws_only (for_loop n i body).
Proof.
  intros Hb. induction n as [|n IH]; intros i s; cbn [for_loop].
  - exists (trace s). destruct s; reflexivity.
  - destruct (Hb i s) as [t ->]. destruct (IH (i + 1) (set_trace t s)) as [t' ->].
    exists t'. reflexivity.
Qed.

(** One round of the loop of [redraw_base] only draws. *)
Lemma redraw_base_round x c s :
  exists t, (if (0 <=? x) && (x <? FIELD_WIDTH) then emit (set_pixel x 0 c) s else s)
            = set_trace t s.
Proof.
  destruct (_ && _); [apply draws_only_emit | exists (trace s); destruct s; reflexivity].
Qed.

(** When the loop of [redraw_base] ends, it has only drawn. *)
Lemma redraw_base_loop_Some fuel c : forall x s s',
  redraw_base_loop fuel x c s = Some s' -> exists t, s' = set_trace t s.
Proof.
  induction fuel as [|fuel IH]; intros x s s' H; cbn [redraw_base_loop] in H; [discriminate|].
  destruct (x <=? basePosition s + 1).
  - cbv zeta in H. destruct (redraw_base_round x c s) as [t1 E]. rewrite E in H.
    destruct (IH _ _ _ H) as [t ->]. exists t. reflexivity.
  - injection H as <-. exists (trace s). destruct s; reflexivity.
Qed.

Lemma redraw_base_Some fuel c s s' :
  redraw_base fuel c s = Some s' -> exists t, s' = set_trace t s.
Proof.
  unfold redraw_base. intros H.
  destruct (redraw_base_loop fuel _ c s) as [s1|] eqn:E; [|discriminate].
  injection H as <-. destruct (redraw_base_loop_Some _ _ _ _ _ E) as [t ->].
  eexists. reflexivity.
Qed.

(** The loop ends, after the rounds from [x] to basePosition+1, when
    basePosition+1 is below 127. *)
Lemma redraw_base_loop_returns c n : forall fuel x s,
  basePosition s + 1 < 127 -> -128 <= x < 128 ->
  n = Z.to_nat (basePosition s + 2 - x) -> (n < fuel)%nat ->
  exists t, redraw_base_loop fuel x c s = Some (set_trace t s).
Proof.
  induction n as [|n IH]; intros fuel x s Hb Hx Hn Hfuel;
    (destruct fuel as [|fuel]; [lia|]); cbn [redraw_base_loop].
  - destruct (Z.leb_spec x (basePosition s + 1)); [lia|].
    exists (trace s). destruct s; reflexivity.
  - destruct (Z.leb_spec x (basePosition s + 1)); [|lia]. cbv zeta.
    destruct (redraw_base_round x c s) as [t1 ->].
    rewrite to_int8_small by lia.
    assert (Hb' : basePosition (set_trace t1 s) + 1 < 127) by exact Hb.
    assert (Hn' : n = Z.to_nat (basePosition (set_trace t1 s) + 2 - (x + 1))).
    { change (basePosition (set_trace t1 s)) with (basePosition s). lia. }
    destruct (IH fuel (x + 1) (set_trace t1 s) Hb' ltac:(lia) Hn' ltac:(lia)) as [t E].
    exists t. rewrite E. reflexivity.
Qed.

(** [redraw_base] returns, given four rounds of fuel, when basePosition is
    below 126 ... *)
Lemma redraw_base_returns fuel c s :
  -128 <= basePosition s < 126 -> (4 <= fuel)%nat ->
  exists t, redraw_base fuel c s = Some (set_trace t s).
Proof.
  intros Hb Hfuel. unfold redraw_base.
  destruct (redraw_base_loop_returns c
              (Z.to_nat (basePosition s + 2 - to_int8 (basePosition s - 1)))
              fuel (to_int8 (basePosition s - 1)) s) as [t ->];
    try lia; try apply to_int8_range; try reflexivity.
  - destruct (Z.eq_dec (basePosition s) (-128)) as [E | E].
    + rewrite E. change (to_int8 (-128 - 1)) with 127. lia.
    + rewrite to_int8_small by lia. lia.
  - eexists. reflexivity.
Qed.

(** ... and never at 126 or 127: the counter cannot pass basePosition+1. *)
Lemma redraw_base_loop_diverges c fuel : forall x s,
  126 <= basePosition s -> -128 <= x < 128 -> redraw_base_loop fuel x c s = None.
Proof.
  induction fuel as [|fuel IH]; intros x s Hb Hx; cbn [redraw_base_loop]; [reflexivity|].
  destruct (Z.leb_spec x (basePosition s + 1)); [|lia]. cbv zeta.
  destruct (redraw_base_round x c s) as [t1 ->].
  apply IH; [exact Hb | apply to_int8_range].
Qed.

Lemma redraw_base_diverges fuel c s :
  126 <= basePosition s -> redraw_base fuel c s = None.
Proof.
  intros Hb. unfold redraw_base.
  rewrite redraw_base_loop_diverges by (try exact Hb; apply to_int8_range). reflexivity.
Qed.

Lemma draws_only_redraw_all_asteroids : draws_only redraw_all_asteroids.
Proof.
  intros s. unfold redraw_all_asteroids, for_range.
  apply draws_only_for_loop. intros i. apply draws_only_redraw_asteroid.
Qed.

Lemma draws_only_redraw_all_projectiles : draws_only redraw_all_projectiles.
Proof.
  intros s. unfold redraw_all_projectiles, for_range.
  apply draws_only_for_loop. intros i. apply draws_only_redraw_projectile.
Qed.

Lemma redraw_whole_display_Some fuel s s' :
  redraw_whole_display fuel s = Some s' -> exists t, s' = set_trace t s.
Proof.
  unfold redraw_whole_display. cbv zeta. intros H.
  destruct (redraw_base fuel COLOUR_BASE (emit ledmatrix_clear s)) as [s1|] eqn:E; [|discriminate].
  injection H as <-. destruct (redraw_base_Some _ _ _ _ E) as [t1 ->].
  destruct (draws_only_redraw_all_asteroids (set_trace t1 (emit ledmatrix_clear s))) as [t2 ->].
  destruct (draws_only_redraw_all_projectiles
              (set_trace t2 (set_trace t1 (emit ledmatrix_clear s)))) as [t3 ->].
  exists t3. reflexivity.
Qed.

Lemma redraw_whole_display_returns fuel s :
  -128 <= basePosition s < 126 -> (4 <= fuel)%nat ->
  exists t, redraw_whole_display fuel s = Some (set_trace t s).
Proof.
  intros Hb Hfuel. unfold redraw_whole_display. cbv zeta.
  destruct (redraw_base_returns fuel COLOUR_BASE (emit ledmatrix_clear s) Hb Hfuel) as [t1 ->].
  destruct (draws_only_redraw_all_asteroids (set_trace t1 (emit ledmatrix_clear s))) as [t2 ->].
  destruct (draws_only_redraw_all_projectiles
              (set_trace t2 (set_trace t1 (emit ledmatrix_clear s)))) as [t3 ->].
  exists t3. reflexivity.
Qed.

(** What the operations that end with [redraw_base] return, when they
    return. *)
Lemma advance_asteroids_view fuel s s' :
  advance_asteroids fuel s = Some s' ->
  exists s1 t,
    advance_asteroids_loop fuel 0
      (emit s_invalidate_mode (emit set_display_attribute_TERM_RESET (emit new_frame s)))
    = Some s1
    /\ s' = set_trace t (add_missing_asteroids (check_all_base_hits s1)).
Proof.
  unfold advance_asteroids. cbv zeta. intros H.
  destruct (advance_asteroids_loop fuel 0 _) as [s1|] eqn:Hloop; [|discriminate].
  destruct (redraw_base_Some _ _ _ _ H) as [t ->].
  exists s1, t. split; reflexivity.
Qed.

Lemma move_base_view fuel direction s s' r :
  move_base fuel direction s = Some (s', r) ->
  if (basePosition s =? 0) && (to_int8 direction =? MOVE_LEFT)
     || (basePosition s =? 7) && (to_int8 direction =? MOVE_RIGHT)
  then s' = s /\ r = 0
  else r = 1
       /\ exists t1 t2,
            s' = set_trace t2
                   (check_all_base_hits
                      (set_basePosition (to_int8 (basePosition s + (2 * to_int8 direction - 1)))
                                        (set_trace t1 s))).
Proof.
  unfold move_base. cbv zeta. intros H.
  destruct (_ || _).
  - injection H as <- <-. split; reflexivity.
  - destruct (redraw_base fuel COLOUR_BLACK _) as [s1|] eqn:E1; [|discriminate].
    destruct (redraw_base_Some _ _ _ _ E1) as [t1 ->].
    destruct (redraw_base fuel COLOUR_BASE _) as [s2|] eqn:E2; [|discriminate].
    destruct (redraw_base_Some _ _ _ _ E2) as [t2 ->].
    injection H as <- <-. split; [reflexivity|]. exists t1. eexists. reflexivity.
Qed.

Lemma initialise_game_shape fuel s0 s :
  initialise_game fuel s0 = Some s ->
  exists t,
    s = set_trace t
          (sort_asteroids
             (for_range 0 MAX_ASTEROIDS (fun _ s => add_asteroid s) (reset_game s0))).
Proof.
  unfold initialise_game. cbv zeta. intros H.
  destruct (redraw_whole_display fuel _) as [s1|] eqn:E; [|discriminate].
  destruct (redraw_whole_display_Some _ _ _ E) as [t ->].
  injection H as <-. eexists. reflexivity.
Qed.

(** ** Reading and writing a live entry *)

Lemma rd_live n a l1 x l2 :
  fits n a -> take (Z.to_nat n) a = l1 ++ x :: l2 ->
  rd a (Z.of_nat (length l1)) = x
  /\ byte x
  /\ n = Z.of_nat (length l1) + 1 + Z.of_nat (length l2)
  /\ exists r, a = l1 ++ x :: l2 ++ r.
Proof.
  intros Hf Hl. destruct (live_split _ _ _ Hf Hl) as (r & Ha & Hn).
  rewrite <- app_assoc in Ha. cbn [app] in Ha.
  rewrite length_app in Hn. cbn [length] in Hn.
  destruct Hf as (_ & _ & Hb).
  split; [rewrite Ha; apply rd_app_middle; reflexivity|].
  split; [|split; [lia | exists r; exact Ha]].
  rewrite Ha in Hb. apply Forall_app in Hb as [_ Hb]. apply Forall_cons in Hb as [Hb _]. exact Hb.
Qed.

Lemma wr_live n a l1 x l2 v :
  fits n a -> take (Z.to_nat n) a = l1 ++ x :: l2 -> byte v ->
  fits n (wr a (Z.of_nat (length l1)) v)
  /\ take (Z.to_nat n) (wr a (Z.of_nat (length l1)) v) = l1 ++ v :: l2
  /\ length (wr a (Z.of_nat (length l1)) v) = length a.
Proof.
  intros Hf Hl Hv. destruct (rd_live _ _ _ _ _ Hf Hl) as (_ & _ & Hn & r & Ha).
  destruct Hf as (Hn0 & Hcap & Hb).
  assert (Hlen : length (wr a (Z.of_nat (length l1)) v) = length a).
  { unfold wr. apply length_insert. }
  split; [|split; [|exact Hlen]].
  - split; [rewrite Hlen; exact Hn0|]. split; [rewrite Hlen; exact Hcap|].
    unfold wr. apply Forall_insert; assumption.
  - rewrite Ha. rewrite (wr_app_middle l1 x (l2 ++ r)) by reflexivity.
    replace (l1 ++ v :: l2 ++ r) with ((l1 ++ v :: l2) ++ r)
      by (rewrite <- app_assoc; reflexivity).
    apply take_live. rewrite length_app. cbn [length]. lia.
Qed.

Lemma sublist_app_middle (l1 l2 : list Z) x : l1 ++ l2 `sublist_of` l1 ++ x :: l2.
Proof. apply sublist_app; [reflexivity|]. apply sublist_cons, reflexivity. Qed.

(** ** One iteration of the projectile loop *)

Lemma advance_projectiles_body_spec s done p todo :
  fits (numProjectiles s) (projectiles s) ->
  fits (numAsteroids s) (asteroids s) ->
  live_projectiles s = done ++ p :: todo ->
  exists s' i',
    advance_projectiles_body (Z.of_nat (length done)) s = (s', i')
    /\ fits (numProjectiles s') (projectiles s')
    /\ fits (numAsteroids s') (asteroids s')
    /\ length (projectiles s') = length (projectiles s)
    /\ length (asteroids s') = length (asteroids s)
    /\ basePosition s' = basePosition s
    /\ rand_calls s' = rand_calls s
    /\ lives s' = lives s
    /\ live_asteroids s' `sublist_of` live_asteroids s
    /\ ((i' = Z.of_nat (length done) /\ live_projectiles s' = done ++ todo)
        \/ (i' = Z.of_nat (length done) + 1
            /\ live_projectiles s' = done ++ (p + 1) :: todo
            /\ GET_Y_POSITION p + 1 < 16
            /\ live_asteroids s' = live_asteroids s)).
Proof.
  intros Hfp Hfa Hl.
  destruct (rd_live _ _ _ _ _ Hfp Hl) as (Hrd & Hp & Hn & r & HP).
  pose proof (GET_X_range p Hp) as Hx. pose proof (GET_Y_range p Hp) as Hy.
  pose proof Hfp as (Hn0 & Hcap & _).
  unfold advance_projectiles_body. rewrite Hrd.
  rewrite (to_uint8_small (GET_X_POSITION p)), (to_uint8_small (GET_Y_POSITION p)) by lia.
  rewrite (to_uint8_small (GET_Y_POSITION p + 1)) by lia.
  destruct (Z.eqb_spec (GET_Y_POSITION p + 1) FIELD_HEIGHT) as [Htop | Hin].
  - destruct (remove_projectile_in s done p todo _ Hfp Hl eq_refl) as (ps' & t & Hg & ->).
    destruct (closed_gap_fits _ _ _ _ _ _ Hfp Hl Hg) as (Hf' & Hl' & Hlen).
    eexists _, _. split; [reflexivity|]. unfold live_projectiles, live_asteroids. simpl_state.
    split_and!; try assumption; try reflexivity. left. split; [reflexivity | exact Hl'].
  - unfold FIELD_HEIGHT in Hin.
    destruct (position_up p Hp ltac:(lia)) as [Hup Hyup].
    assert (Hcell : packed (GET_X_POSITION p) (GET_Y_POSITION p + 1) = p + 1).
    { unfold packed.
      rewrite (to_uint8_small (GET_X_POSITION p)), (to_uint8_small (GET_Y_POSITION p + 1)) by lia.
      exact Hup. }
    destruct (asteroid_at_spec (GET_X_POSITION p) (GET_Y_POSITION p + 1) s Hfa)
      as [[Hnot Hat] | (al1 & al2 & Hal & Hn1 & Hat)]; rewrite Hat.
    + rewrite check_asteroid_hit_miss by (right; reflexivity).
      change (negb (0 =? 0)) with false. cbv iota.
      destruct (draws_only_redraw_projectile (Z.of_nat (length done)) COLOUR_BLACK s) as [t1 ->].
      destruct (draws_only_redraw_projectile (Z.of_nat (length done)) COLOUR_PROJECTILE
                  (set_projectiles
                     (wr (projectiles (set_trace t1 s)) (Z.of_nat (length done))
                         (to_uint8 (GAME_POSITION (GET_X_POSITION p) (GET_Y_POSITION p + 1))))
                     (set_trace t1 s))) as [t2 ->].
      rewrite Hup.
      destruct (wr_live _ _ _ _ _ (p + 1) Hfp Hl) as (Hf' & Hl' & Hlen).
      { unfold byte. pose proof (to_uint8_range
          (GAME_POSITION (GET_X_POSITION p) (GET_Y_POSITION p + 1))). lia. }
      eexists _, _. split; [reflexivity|]. unfold live_projectiles, live_asteroids. simpl_state.
      split_and!; try assumption; try reflexivity.
      right. rewrite to_int8_small by lia. split_and!; try reflexivity; try lia. exact Hl'.
    + rewrite Hcell in Hal.
      destruct (check_asteroid_hit_hit s done p todo al1 (p + 1) al2 _ _ Hfp Hfa Hl eq_refl Hal eq_refl)
        as (ps' & as' & t & Hgp & Hga & ->).
      destruct (closed_gap_fits _ _ _ _ _ _ Hfp Hl Hgp) as (Hfp' & Hlp' & Hlenp).
      destruct (closed_gap_fits _ _ _ _ _ _ Hfa Hal Hga) as (Hfa' & Hla' & Hlena).
      change (negb (1 =? 0)) with true. cbv iota.
      eexists _, _. split; [reflexivity|]. unfold live_projectiles, live_asteroids. simpl_state.
      split_and!; try assumption; try reflexivity.
      * rewrite Hla'. fold (live_asteroids s). rewrite Hal. apply sublist_app_middle.
      * left. split; [reflexivity | exact Hlp'].
Qed.

(** ** The projectile loop *)

(** Entered at the projectile number [length done], with the projectiles
    [todo] still to move, the loop ends within [length todo] iterations;
    some of [todo] have moved up by one row, the others are gone. *)
Lemma advance_projectiles_loop_spec todo : forall fuel done s,
  fits (numProjectiles s) (projectiles s) ->
  fits (numAsteroids s) (asteroids s) ->
  live_projectiles s = done ++ todo ->
  (length todo < fuel)%nat ->
  exists s',
    advance_projectiles_loop fuel (Z.of_nat (length done)) s = Some s'
    /\ fits (numProjectiles s') (projectiles s')
    /\ fits (numAsteroids s') (asteroids s')
    /\ length (projectiles s') = length (projectiles s)
    /\ length (asteroids s') = length (asteroids s)
    /\ basePosition s' = basePosition s
    /\ rand_calls s' = rand_calls s
    /\ lives s' = lives s
    /\ live_asteroids s' `sublist_of` live_asteroids s
    /\ exists todo',
         live_projectiles s' = done ++ map (fun p => p + 1) todo'
         /\ todo' `sublist_of` todo
         /\ Forall (fun p => GET_Y_POSITION p + 1 < 16) todo'.
Proof.
  induction todo as [|p todo IH]; intros fuel done s Hfp Hfa Hl Hfuel;
    (destruct fuel as [|fuel]; [cbn [length] in Hfuel; lia|]);
    pose proof (live_length _ _ Hfp) as Hn; fold (live_projectiles s) in Hn;
    rewrite Hl, length_app in Hn; cbn [length] in Hn, Hfuel; cbn [advance_projectiles_loop].
  - destruct (Z.ltb_spec (Z.of_nat (length done)) (numProjectiles s)); [lia|].
    exists s. split_and!; try assumption; try reflexivity.
    exists []. split_and!; [exact Hl | constructor | constructor].
  - destruct (Z.ltb_spec (Z.of_nat (length done)) (numProjectiles s)); [|lia].
    destruct (advance_projectiles_body_spec s done p todo Hfp Hfa Hl)
      as (s1 & i1 & -> & Hfp1 & Hfa1 & Hlp1 & Hla1 & Hb1 & Hr1 & Hv1 & Hsub1 & Hcase).
    destruct Hcase as [[-> Hl1] | (-> & Hl1 & Hy & Hsame)].
    + destruct (IH fuel done s1 Hfp1 Hfa1 Hl1 ltac:(lia))
        as (s' & -> & Hfp' & Hfa' & Hlp' & Hla' & Hb' & Hr' & Hv' & Hsub' & todo' & Hl' & Hs' & Hall').
      exists s'. split_and!; try assumption; try reflexivity; try congruence.
      * trans (live_asteroids s1); assumption.
      * exists todo'. split_and!; [exact Hl' | apply sublist_cons, Hs' | exact Hall'].
    + replace (done ++ (p + 1) :: todo) with ((done ++ [p + 1]) ++ todo) in Hl1
        by (rewrite <- app_assoc; reflexivity).
      destruct (IH fuel (done ++ [p + 1]) s1 Hfp1 Hfa1 Hl1 ltac:(lia))
        as (s' & Hloop & Hfp' & Hfa' & Hlp' & Hla' & Hb' & Hr' & Hv' & Hsub' & todo' & Hl' & Hs' & Hall').
      rewrite length_app in Hloop. cbn [length] in Hloop.
      replace (Z.of_nat (length done + 1)) with (Z.of_nat (length done) + 1) in Hloop by lia.
      exists s'. split_and!; try assumption; try reflexivity; try congruence.
      exists (p :: todo'). split_and!.
      * rewrite Hl', <- app_assoc. reflexivity.
      * apply sublist_skip, Hs'.
      * constructor; assumption.
Qed.

(** ** One iteration of the asteroid loop *)

Lemma advance_asteroids_body_spec s done p todo :
  fits (numProjectiles s) (projectiles s) ->
  fits (numAsteroids s) (asteroids s) ->
  live_asteroids s = done ++ p :: todo ->
  exists s' i',
    advance_asteroids_body (Z.of_nat (length done)) s = (s', i')
    /\ fits (numProjectiles s') (projectiles s')
    /\ fits (numAsteroids s') (asteroids s')
    /\ length (projectiles s') = length (projectiles s)
    /\ length (asteroids s') = length (asteroids s)
    /\ basePosition s' = basePosition s
    /\ rand_calls s' = rand_calls s
    /\ lives s' = lives s
    /\ live_projectiles s' `sublist_of` live_projectiles s
    /\ ((i' = Z.of_nat (length done) /\ live_asteroids s' = done ++ todo)
        \/ (i' = Z.of_nat (length done) + 1
            /\ live_asteroids s' = done ++ (p - 1) :: todo
            /\ 1 <= GET_Y_POSITION p
            /\ live_projectiles s' = live_projectiles s)).
Proof.
  intros Hfp Hfa Hl.
  destruct (rd_live _ _ _ _ _ Hfa Hl) as (Hrd & Hp & Hn & r & HA).
  pose proof (GET_X_range p Hp) as Hx. pose proof (GET_Y_range p Hp) as Hy.
  pose proof Hfa as (Hn0 & Hcap & _).
  unfold advance_asteroids_body. rewrite Hrd.
  rewrite (to_int8_small (GET_X_POSITION p)), (to_int8_small (GET_Y_POSITION p)) by lia.
  rewrite (to_int8_small (GET_Y_POSITION p - 1)) by lia.
  destruct (draws_only_redraw_asteroid (Z.of_nat (length done)) COLOUR_BLACK s) as [t0 ->].
  destruct (Z.ltb_spec (GET_Y_POSITION p - 1) 0) as [Hbottom | Hin].
  - destruct (remove_asteroid_in (set_trace t0 s) done p todo _ Hfa Hl eq_refl) as (as' & t & Hg & ->).
    destruct (closed_gap_fits _ _ _ _ _ _ Hfa Hl Hg) as (Hf' & Hl' & Hlen).
    eexists _, _. split; [reflexivity|]. unfold live_projectiles, live_asteroids. simpl_state.
    split_and!; try assumption; try reflexivity. left. split; [reflexivity | exact Hl'].
  - destruct (position_down p Hp ltac:(lia)) as [Hdown Hydown].
    assert (Hcell : packed (GET_X_POSITION p) (GET_Y_POSITION p - 1) = p - 1).
    { unfold packed.
      rewrite (to_uint8_small (GET_X_POSITION p)), (to_uint8_small (GET_Y_POSITION p - 1)) by lia.
      exact Hdown. }
    destruct (projectile_at_spec (GET_X_POSITION p) (GET_Y_POSITION p - 1) (set_trace t0 s) Hfp)
      as [[Hnot Hat] | (pl1 & pl2 & Hpl & Hn1 & Hat)]; rewrite Hat.
    + rewrite check_asteroid_hit_miss by (left; reflexivity).
      change (negb (0 =? 0)) with false. cbv iota.
      destruct (draws_only_redraw_asteroid (Z.of_nat (length done)) COLOUR_ASTEROID
                  (set_asteroids
                     (wr (asteroids (set_trace t0 s)) (Z.of_nat (length done))
                         (to_uint8 (GAME_POSITION (GET_X_POSITION p) (GET_Y_POSITION p - 1))))
                     (set_trace t0 s))) as [t2 ->].
      rewrite Hdown.
      destruct (wr_live _ _ _ _ _ (p - 1) Hfa Hl) as (Hf' & Hl' & Hlen).
      { unfold byte. pose proof (to_uint8_range
          (GAME_POSITION (GET_X_POSITION p) (GET_Y_POSITION p - 1))). lia. }
      eexists _, _. split; [reflexivity|]. unfold live_projectiles, live_asteroids. simpl_state.
      split_and!; try assumption; try reflexivity.
      right. rewrite to_uint8_small by lia. split_and!; try reflexivity; try lia. exact Hl'.
    + rewrite Hcell in Hpl.
      destruct (check_asteroid_hit_hit (set_trace t0 s) pl1 (p - 1) pl2 done p todo _ _
                  Hfp Hfa Hpl eq_refl Hl eq_refl)
        as (ps' & as' & t & Hgp & Hga & ->).
      destruct (closed_gap_fits _ _ _ _ _ _ Hfp Hpl Hgp) as (Hfp' & Hlp' & Hlenp).
      destruct (closed_gap_fits _ _ _ _ _ _ Hfa Hl Hga) as (Hfa' & Hla' & Hlena).
      change (negb (1 =? 0)) with true. cbv iota.
      eexists _, _. split; [reflexivity|]. unfold live_projectiles, live_asteroids. simpl_state.
      split_and!; try assumption; try reflexivity.
      * rewrite Hlp'. fold (live_projectiles s).
        unfold live_projectiles in Hpl. simpl_state. fold (live_projectiles s) in Hpl.
        rewrite Hpl. apply sublist_app_middle.
      * left. split; [reflexivity | exact Hla'].
Qed.

(** ** The asteroid loop *)

Lemma advance_asteroids_loop_spec todo : forall fuel done s,
  fits (numProjectiles s) (projectiles s) ->
  fits (numAsteroids s) (asteroids s) ->
  live_asteroids s = done ++ todo ->
  (length todo < fuel)%nat ->
  exists s',
    advance_asteroids_loop fuel (Z.of_nat (length done)) s = Some s'
    /\ fits (numProjectiles s') (projectiles s')
    /\ fits (numAsteroids s') (asteroids s')
    /\ length (projectiles s') = length (projectiles s)
    /\ length (asteroids s') = length (asteroids s)
    /\ basePosition s' = basePosition s
    /\ rand_calls s' = rand_calls s
    /\ lives s' = lives s
    /\ live_projectiles s' `sublist_of` live_projectiles s
    /\ exists todo',
         live_asteroids s' = done ++ map (fun p => p - 1) todo'
         /\ todo' `sublist_of` todo
         /\ Forall (fun p => 1 <= GET_Y_POSITION p) todo'.
Proof.
  induction todo as [|p todo IH]; intros fuel done s Hfp Hfa Hl Hfuel;
    (destruct fuel as [|fuel]; [cbn [length] in Hfuel; lia|]);
    pose proof (live_length _ _ Hfa) as Hn; fold (live_asteroids s) in Hn;
    rewrite Hl, length_app in Hn; cbn [length] in Hn, Hfuel; cbn [advance_asteroids_loop].
  - destruct (Z.ltb_spec (Z.of_nat (length done)) (numAsteroids s)); [lia|].
    exists s. split_and!; try assumption; try reflexivity.
    exists []. split_and!; [exact Hl | constructor | constructor].
  - destruct (Z.ltb_spec (Z.of_nat (length done)) (numAsteroids s)); [|lia].
    destruct (advance_asteroids_body_spec s done p todo Hfp Hfa Hl)
      as (s1 & i1 & -> & Hfp1 & Hfa1 & Hlp1 & Hla1 & Hb1 & Hr1 & Hv1 & Hsub1 & Hcase).
    destruct Hcase as [[-> Hl1] | (-> & Hl1 & Hy & Hsame)].
    + destruct (IH fuel done s1 Hfp1 Hfa1 Hl1 ltac:(lia))
        as (s' & -> & Hfp' & Hfa' & Hlp' & Hla' & Hb' & Hr' & Hv' & Hsub' & todo' & Hl' & Hs' & Hall').
      exists s'. split_and!; try assumption; try reflexivity; try congruence.
      * trans (live_projectiles s1); assumption.
      * exists todo'. split_and!; [exact Hl' | apply sublist_cons, Hs' | exact Hall'].
    + replace (done ++ (p - 1) :: todo) with ((done ++ [p - 1]) ++ todo) in Hl1
        by (rewrite <- app_assoc; reflexivity).
      destruct (IH fuel (done ++ [p - 1]) s1 Hfp1 Hfa1 Hl1 ltac:(lia))
        as (s' & Hloop & Hfp' & Hfa' & Hlp' & Hla' & Hb' & Hr' & Hv' & Hsub' & todo' & Hl' & Hs' & Hall').
      rewrite length_app in Hloop. cbn [length] in Hloop.
      replace (Z.of_nat (length done + 1)) with (Z.of_nat (length done) + 1) in Hloop by lia.
      exists s'. split_and!; try assumption; try reflexivity; try congruence.
      exists (p :: todo'). split_and!.
      * rewrite Hl', <- app_assoc. reflexivity.
      * apply sublist_skip, Hs'.
      * constructor; assumption.
Qed.

(** ** Spawning, seen from the live list *)

Lemma take_snoc_insert (a : list Z) n v :
  (n < length a)%nat -> take (S n) (<[n := v]> a) = take n a ++ [v].
Proof.
  intros Hn. rewrite (take_S_r _ _ v) by (apply list_lookup_insert_eq; exact Hn).
  rewrite take_insert_ge by lia. reflexivity.
Qed.

(** The three outcomes of one call of [add_asteroid_in_rows]: the list was
    full; a free cell was sampled and appended; or 129 attempts in a row
    sampled occupied cells and only the count of random() calls moved. *)
Lemma add_asteroid_in_rows_view r s :
  fits (numAsteroids s) (asteroids s) ->
  Z.of_nat (length (asteroids s)) = MAX_ASTEROIDS ->
  let s' := add_asteroid_in_rows r s in
  fits (numAsteroids s') (asteroids s')
  /\ length (asteroids s') = length (asteroids s)
  /\ numProjectiles s' = numProjectiles s
  /\ projectiles s' = projectiles s
  /\ basePosition s' = basePosition s
  /\ lives s' = lives s
  /\ score s' = score s
  /\ (rand_calls s <= rand_calls s')%nat
  /\ ((numAsteroids s = MAX_ASTEROIDS /\ s' = s)
      \/ (exists n, (rand_calls s <= n)%nat /\ rand_calls s' = S (S n)
            /\ (sample_cell (to_uint8 r) n ∉ live_asteroids s)
            /\ live_asteroids s' = live_asteroids s ++ [sample_cell (to_uint8 r) n]
            /\ numAsteroids s' = numAsteroids s + 1)
      \/ (numAsteroids s < MAX_ASTEROIDS
          /\ s' = set_rand_calls (rand_calls s + 258) s
          /\ forall j, (j < 129)%nat ->
               sample_cell (to_uint8 r) (rand_calls s + 2 * j) ∈ live_asteroids s)).
Proof.
  intros Hf Hlen s'. subst s'. pose proof (add_asteroid_in_rows_spec r s Hf) as H.
  pose proof Hf as (Hn0 & Hcap & Hb).
  destruct (Z.eqb_spec (numAsteroids s) MAX_ASTEROIDS) as [Hfull | Hroom].
  - rewrite H. split_and!; try assumption; try reflexivity. left. split; [exact Hfull | reflexivity].
  - destruct (first_free _ _ _ _) as [n|] eqn:Efree.
    + destruct H as [t ->]. apply first_free_Some in Efree as (Hnot & j & Hj & Hn & Hprev).
      unfold live_asteroids. simpl_state.
      rewrite to_int8_small by lia.
      assert (Htake : take (Z.to_nat (numAsteroids s + 1))
                        (wr (asteroids s) (numAsteroids s) (sample_cell (to_uint8 r) n))
                      = take (Z.to_nat (numAsteroids s)) (asteroids s) ++ [sample_cell (to_uint8 r) n]).
      { unfold wr. replace (Z.to_nat (numAsteroids s + 1)) with (S (Z.to_nat (numAsteroids s))) by lia.
        apply take_snoc_insert. lia. }
      split_and!; try reflexivity; try lia.
      * split; [unfold wr; rewrite length_insert; lia|].
        split; [unfold wr; rewrite length_insert; lia|].
        unfold wr. apply Forall_insert; [exact Hb|].
        unfold byte, sample_cell. apply to_uint8_range.
      * unfold wr. apply length_insert.
      * right. left. exists n. split_and!; try assumption; try reflexivity; lia.
    + rewrite H. simpl_state. split_and!; try assumption; try reflexivity; try lia.
      right. right. split; [lia|]. split; [reflexivity|].
      intros j Hj. exact (first_free_None _ _ _ _ Efree j Hj).
Qed.

(** [k] calls of [add_asteroid_in_rows] in a row append at most [k] cells,
    each free when it is appended; when fewer than [k] are appended, either
    the list became full or one of the calls sampled occupied cells 129
    times in a row. *)
Lemma spawn_many r k : forall i s,
  fits (numAsteroids s) (asteroids s) ->
  Z.of_nat (length (asteroids s)) = MAX_ASTEROIDS ->
  let s' := for_loop k i (fun _ s => add_asteroid_in_rows r s) s in
  fits (numAsteroids s') (asteroids s')
  /\ length (asteroids s') = length (asteroids s)
  /\ numProjectiles s' = numProjectiles s
  /\ projectiles s' = projectiles s
  /\ basePosition s' = basePosition s
  /\ lives s' = lives s
  /\ score s' = score s
  /\ (rand_calls s <= rand_calls s')%nat
  /\ exists extra,
       live_asteroids s' = live_asteroids s ++ extra
       /\ numAsteroids s' = numAsteroids s + Z.of_nat (length extra)
       /\ (length extra <= k)%nat
       /\ (NoDup (live_asteroids s) -> NoDup (live_asteroids s'))
       /\ Forall (fun p => exists n, p = sample_cell (to_uint8 r) n) extra
       /\ (length extra = k
           \/ numAsteroids s' = MAX_ASTEROIDS
           \/ exists n, (rand_calls s <= n)%nat /\ (n + 258 <= rand_calls s')%nat
                /\ forall j, (j < 129)%nat ->
                     sample_cell (to_uint8 r) (n + 2 * j) ∈ live_asteroids s').
Proof.
  induction k as [|k IH]; intros i s Hf Hlen; cbn [for_loop]; cbv zeta.
  - split_and!; try assumption; try reflexivity.
    exists []. rewrite app_nil_r. cbn [length].
    split_and!; try reflexivity; try lia; try tauto; try (left; reflexivity).
  - destruct (add_asteroid_in_rows_view r s Hf Hlen)
      as (Hf1 & Hl1 & Hnp1 & Hp1 & Hb1 & Hv1 & Hs1 & Hr1 & Hcase).
    set (s1 := add_asteroid_in_rows r s) in *.
    assert (Hlen1 : Z.of_nat (length (asteroids s1)) = MAX_ASTEROIDS) by congruence.
    destruct (IH (i + 1) s1 Hf1 Hlen1)
      as (Hf' & Hl' & Hnp' & Hp' & Hb' & Hv' & Hs' & Hr' & extra & Hlive & Hn & Hk & Hnd & Hall & Hend).
    set (s' := for_loop k (i + 1) _ s1) in *.
    split_and!; try assumption; try congruence; try lia.
    destruct Hcase as [[Hfull Hsame] | [(n & Hrn & Hrc & Hfree & Hlive1 & Hn1) | (Hroom & Hsame & Hocc)]].
    + exists extra. rewrite Hsame in *.
      split_and!; try assumption; try lia.
      right. left. destruct Hf' as (Hn' & _). lia.
    + exists (sample_cell (to_uint8 r) n :: extra). cbn [length].
      split_and!.
      * rewrite Hlive, Hlive1, <- app_assoc. reflexivity.
      * lia.
      * lia.
      * intros Hnd0. apply Hnd. rewrite Hlive1. apply NoDup_app.
        split; [exact Hnd0|]. split; [|apply NoDup_singleton].
        intros x Hx Hx'. apply list_elem_of_singleton in Hx'. subst x. contradiction.
      * constructor; [exists n; reflexivity | exact Hall].
      * destruct Hend as [Hk' | [Hfull | (m & Hm1 & Hm2 & Hm3)]].
        -- left. lia.
        -- right. left. exact Hfull.
        -- right. right. exists m. split_and!; try assumption. lia.
    + exists extra.
      assert (Hlive0 : live_asteroids s1 = live_asteroids s) by (rewrite Hsame; reflexivity).
      assert (Hn0 : numAsteroids s1 = numAsteroids s) by (rewrite Hsame; reflexivity).
      assert (Hrc0 : rand_calls s1 = (rand_calls s + 258)%nat) by (rewrite Hsame; reflexivity).
      rewrite Hlive0 in *. rewrite Hn0 in *.
      split_and!; try assumption; try lia.
      right. right. exists (rand_calls s). split_and!; try lia.
      intros j Hj. rewrite Hlive. apply elem_of_app. left. apply Hocc, Hj.
Qed.

(** ** Sorted lists of positions *)

Lemma sorted_by_y_sublist l l' : l' `sublist_of` l -> sorted_by_y l -> sorted_by_y l'.
Proof.
  unfold sorted_by_y. induction 1 as [|x l1 l2 Hsub IH|x l1 l2 Hsub IH]; intros Hs.
  - constructor.
  - apply StronglySorted_inv in Hs as [Hs Hall]. constructor; [apply IH, Hs|].
    rewrite Forall_forall in *. intros y Hy. apply Hall. eapply sublist_subseteq; eassumption.
  - apply StronglySorted_inv in Hs as [Hs _]. apply IH, Hs.
Qed.

Lemma sorted_by_y_map (f : Z -> Z) (d : Z) l :
  Forall (fun p => GET_Y_POSITION (f p) = GET_Y_POSITION p + d) l ->
  sorted_by_y l -> sorted_by_y (map f l).
Proof.
  unfold sorted_by_y. induction l as [|x l IH]; intros Hf Hs; [constructor|].
  apply Forall_cons in Hf as [Hx Hf]. apply StronglySorted_inv in Hs as [Hs Hall].
  cbn [map]. constructor; [apply IH; assumption|].
  rewrite Forall_forall in *. intros y Hy. apply list_elem_of_fmap in Hy as (z & -> & Hz).
  specialize (Hall z Hz). specialize (Hf z Hz). unfold le_y in *. lia.
Qed.

Lemma NoDup_map_shift (d : Z) (l : list Z) : NoDup l -> NoDup (map (fun p => p + d) l).
Proof.
  intros Hnd. apply (NoDup_fmap_2_strong (fun p => p + d)); [|exact Hnd].
  intros x y _ _ Heq. lia.
Qed.

Lemma sorted_by_y_append_top l extra :
  Forall byte l -> Forall (fun p => GET_Y_POSITION p = 15) extra ->
  sorted_by_y l -> sorted_by_y (l ++ extra).
Proof.
  intros Hb Htop Hs. unfold sorted_by_y. apply StronglySorted_app. split; [|split; [exact Hs|]].
  - intros x y Hx Hy. rewrite Forall_forall in Hb, Htop.
    pose proof (GET_Y_range x (Hb x Hx)). specialize (Htop y Hy). unfold le_y. lia.
  - induction Htop as [|y extra Hy Htop IH]; constructor; [exact IH|].
    eapply Forall_impl; [exact Htop|]. intros z Hz. unfold le_y. simpl in *. lia.
Qed.

(** A cell sampled for the top row is in the top row. *)
Lemma sample_cell_top n : GET_Y_POSITION (sample_cell (to_uint8 (FIELD_HEIGHT - 1)) n) = 15.
Proof.
  unfold sample_cell, sample_y. change (to_uint8 (FIELD_HEIGHT - 1)) with 15.
  change (FIELD_HEIGHT - 15) with 1. rewrite Z.rem_1_r. change (to_uint8 (15 + 0)) with 15.
  assert (H : forall x, 0 <= x < 256 -> (GET_Y_POSITION (to_uint8 (GAME_POSITION x 15)) =? 15) = true).
  { apply (forall_bytes (fun x => GET_Y_POSITION (to_uint8 (GAME_POSITION x 15)) =? 15)).
    vm_compute. reflexivity. }
  apply Z.eqb_eq, H. unfold sample_x. apply to_uint8_range.
Qed.

Lemma live_bytes n a : fits n a -> Forall byte (take (Z.to_nat n) a).
Proof. intros (_ & _ & Hb). apply Forall_take, Hb. Qed.

(** ** Replenishment *)

(** [add_missing_asteroids] appends cells of the top row, free when they
    are appended, and fills the list unless one of its spawn calls sampled
    occupied cells 129 times in a row. *)
Lemma add_missing_asteroids_spec s :
  fits (numAsteroids s) (asteroids s) ->
  Z.of_nat (length (asteroids s)) = MAX_ASTEROIDS ->
  let s' := add_missing_asteroids s in
  fits (numAsteroids s') (asteroids s')
  /\ length (asteroids s') = length (asteroids s)
  /\ numProjectiles s' = numProjectiles s
  /\ projectiles s' = projectiles s
  /\ basePosition s' = basePosition s
  /\ lives s' = lives s
  /\ score s' = score s
  /\ (rand_calls s <= rand_calls s')%nat
  /\ (exists extra,
        live_asteroids s' = live_asteroids s ++ extra
        /\ Forall (fun p => GET_Y_POSITION p = 15) extra)
  /\ (NoDup (live_asteroids s) -> NoDup (live_asteroids s'))
  /\ (numAsteroids s' = MAX_ASTEROIDS
      \/ exists n, (rand_calls s <= n)%nat /\ (n + 258 <= rand_calls s')%nat
           /\ forall j, (j < 129)%nat ->
                sample_cell (to_uint8 (FIELD_HEIGHT - 1)) (n + 2 * j) ∈ live_asteroids s').
Proof.
  intros Hf Hlen. unfold add_missing_asteroids, for_range.
  pose proof Hf as (Hn0 & Hcap & _).
  destruct (spawn_many (FIELD_HEIGHT - 1)
              (Z.to_nat (MAX_ASTEROIDS - to_uint8 (numAsteroids (emit s_invalidate_mode s))))
              (to_uint8 (numAsteroids (emit s_invalidate_mode s)))
              (emit s_invalidate_mode s) Hf Hlen)
    as (Hf' & Hl' & Hnp' & Hp' & Hb' & Hv' & Hs' & Hr' & extra & Hlive & Hn & Hk & Hnd & Hall & Hend).
  cbv zeta. split_and!; try assumption.
  - exists extra. split; [exact Hlive|].
    eapply Forall_impl; [exact Hall|]. intros p [n ->]. apply sample_cell_top.
  - destruct Hend as [Hk' | [Hfull | Hex]]; [left | left; exact Hfull | right; exact Hex].
    rewrite Hn. simpl_state. rewrite to_uint8_small in Hk' by lia. lia.
Qed.

(** ** The invariant is kept *)

Lemma invariant_add_missing_asteroids s :
  invariant s -> invariant (add_missing_asteroids s).
Proof.
  intros ((Hfp & Hfa & Hlp & Hla) & Hbase & Hsorted & Hnda & Hndp).
  destruct (add_missing_asteroids_spec s Hfa Hla)
    as (Hf' & Hl' & Hnp' & Hp' & Hb' & Hv' & Hs' & Hr' & (extra & Hlive & Htop) & Hnd & _).
  set (s' := add_missing_asteroids s) in *.
  assert (Hlp' : live_projectiles s' = live_projectiles s).
  { unfold live_projectiles. rewrite Hnp', Hp'. reflexivity. }
  split; [|split; [|split; [|split]]].
  - split_and!; try assumption; congruence.
  - rewrite Hb'. exact Hbase.
  - rewrite Hlive. apply sorted_by_y_append_top; try assumption. apply live_bytes, Hfa.
  - apply Hnd, Hnda.
  - rewrite Hlp'. exact Hndp.
Qed.

(** More fuel does not change the result of a loop that has ended. *)
Lemma advance_projectiles_loop_mono fuel : forall fuel' i s s',
  advance_projectiles_loop fuel i s = Some s' -> (fuel <= fuel')%nat ->
  advance_projectiles_loop fuel' i s = Some s'.
Proof.
  induction fuel as [|fuel IH]; intros fuel' i s s' H Hle; [discriminate|].
  destruct fuel' as [|fuel']; [lia|]. cbn [advance_projectiles_loop] in *.
  destruct (i <? numProjectiles s); [|exact H].
  destruct (advance_projectiles_body i s) as [s1 i1]. apply (IH fuel' _ _ _ H). lia.
Qed.

Lemma advance_asteroids_loop_mono fuel : forall fuel' i s s',
  advance_asteroids_loop fuel i s = Some s' -> (fuel <= fuel')%nat ->
  advance_asteroids_loop fuel' i s = Some s'.
Proof.
  induction fuel as [|fuel IH]; intros fuel' i s s' H Hle; [discriminate|].
  destruct fuel' as [|fuel']; [lia|]. cbn [advance_asteroids_loop] in *.
  destruct (i <? numAsteroids s); [|exact H].
  destruct (advance_asteroids_body i s) as [s1 i1]. apply (IH fuel' _ _ _ H). lia.
Qed.

(** What the whole projectile loop leaves, whenever it ends. *)
Lemma advance_projectiles_loop_result fuel s s' :
  fits (numProjectiles s) (projectiles s) ->
  fits (numAsteroids s) (asteroids s) ->
  advance_projectiles_loop fuel 0 s = Some s' ->
  fits (numProjectiles s') (projectiles s')
  /\ fits (numAsteroids s') (asteroids s')
  /\ length (projectiles s') = length (projectiles s)
  /\ length (asteroids s') = length (asteroids s)
  /\ basePosition s' = basePosition s
  /\ rand_calls s' = rand_calls s
  /\ lives s' = lives s
  /\ live_asteroids s' `sublist_of` live_asteroids s
  /\ exists todo',
       live_projectiles s' = map (fun p => p + 1) todo'
       /\ todo' `sublist_of` live_projectiles s
       /\ Forall (fun p => GET_Y_POSITION p + 1 < 16) todo'.
Proof.
  intros Hfp Hfa Hloop.
  set (fuel' := Nat.max fuel (S (length (live_projectiles s)))).
  apply (advance_projectiles_loop_mono fuel fuel') in Hloop; [|lia].
  destruct (advance_projectiles_loop_spec (live_projectiles s) fuel' [] s Hfp Hfa eq_refl ltac:(lia))
    as (s'' & Hloop' & H).
  cbn [length] in Hloop'. change (Z.of_nat 0) with 0 in Hloop'.
  rewrite Hloop in Hloop'. inversion Hloop'; subst s''. exact H.
Qed.

Lemma advance_asteroids_loop_result fuel s s' :
  fits (numProjectiles s) (projectiles s) ->
  fits (numAsteroids s) (asteroids s) ->
  advance_asteroids_loop fuel 0 s = Some s' ->
  fits (numProjectiles s') (projectiles s')
  /\ fits (numAsteroids s') (asteroids s')
  /\ length (projectiles s') = length (projectiles s)
  /\ length (asteroids s') = length (asteroids s)
  /\ basePosition s' = basePosition s
  /\ rand_calls s' = rand_calls s
  /\ lives s' = lives s
  /\ live_projectiles s' `sublist_of` live_projectiles s
  /\ exists todo',
       live_asteroids s' = map (fun p => p - 1) todo'
       /\ todo' `sublist_of` live_asteroids s
       /\ Forall (fun p => 1 <= GET_Y_POSITION p) todo'.
Proof.
  intros Hfp Hfa Hloop.
  set (fuel' := Nat.max fuel (S (length (live_asteroids s)))).
  apply (advance_asteroids_loop_mono fuel fuel') in Hloop; [|lia].
  destruct (advance_asteroids_loop_spec (live_asteroids s) fuel' [] s Hfp Hfa eq_refl ltac:(lia))
    as (s'' & Hloop' & H).
  cbn [length] in Hloop'. change (Z.of_nat 0) with 0 in Hloop'.
  rewrite Hloop in Hloop'. inversion Hloop'; subst s''. exact H.
Qed.

Lemma sublist_bytes (l l' : list Z) : l' `sublist_of` l -> Forall byte l -> Forall byte l'.
Proof.
  intros Hsub Hb. rewrite Forall_forall in *. intros x Hx. apply Hb.
  eapply sublist_subseteq; eassumption.
Qed.

Lemma invariant_projectile_loop fuel s s' :
  invariant s -> advance_projectiles_loop fuel 0 s = Some s' -> invariant s'.
Proof.
  intros ((Hfp & Hfa & Hlp & Hla) & Hbase & Hsorted & Hnda & Hndp) Hloop.
  destruct (advance_projectiles_loop_result fuel s s' Hfp Hfa Hloop)
    as (Hfp' & Hfa' & Hlp' & Hla' & Hb' & _ & _ & Hsub & todo' & Hlive & Hsub' & _).
  split; [|split; [|split; [|split]]].
  - split_and!; try assumption; congruence.
  - rewrite Hb'. exact Hbase.
  - exact (sorted_by_y_sublist _ _ Hsub Hsorted).
  - exact (sublist_NoDup _ _ Hnda Hsub).
  - rewrite Hlive. apply NoDup_map_shift. exact (sublist_NoDup _ _ Hndp Hsub').
Qed.

Lemma invariant_asteroid_loop fuel s s' :
  invariant s -> advance_asteroids_loop fuel 0 s = Some s' -> invariant s'.
Proof.
  intros ((Hfp & Hfa & Hlp & Hla) & Hbase & Hsorted & Hnda & Hndp) Hloop.
  destruct (advance_asteroids_loop_result fuel s s' Hfp Hfa Hloop)
    as (Hfp' & Hfa' & Hlp' & Hla' & Hb' & _ & _ & Hsub & todo' & Hlive & Hsub' & Hrows).
  split; [|split; [|split; [|split]]].
  - split_and!; try assumption; congruence.
  - rewrite Hb'. exact Hbase.
  - rewrite Hlive. apply (sorted_by_y_map _ (-1)).
    + pose proof (sublist_bytes _ _ Hsub' (live_bytes _ _ Hfa)) as Hbytes.
      rewrite Forall_forall in *. intros p Hp.
      destruct (position_down p (Hbytes p Hp) (Hrows p Hp)) as [_ ->]. lia.
    + exact (sorted_by_y_sublist _ _ Hsub' Hsorted).
  - rewrite Hlive. apply (NoDup_map_shift (-1)). exact (sublist_NoDup _ _ Hnda Hsub').
  - exact (sublist_NoDup _ _ Hndp Hsub).
Qed.

Lemma invariant_check_all_base_hits s :
  invariant s -> invariant (check_all_base_hits s).
Proof.
  intros ((Hfp & Hfa & Hlp & Hla) & Hbase & Hsorted & Hnda & Hndp).
  unfold FIELD_WIDTH in Hbase.
  destruct (check_all_base_hits_spec s Hfa ltac:(lia)) as (as' & t & -> & Hf' & Hlive & Hlen).
  assert (Hsub : take (Z.to_nat (numAsteroids s - base_hits s)) as' `sublist_of` live_asteroids s).
  { rewrite Hlive. repeat (etrans; [apply remove_first_sublist|]). reflexivity. }
  unfold invariant, wf, live_asteroids, live_projectiles, FIELD_WIDTH. simpl_state.
  split_and!; try assumption; try congruence; try lia.
  - exact (sorted_by_y_sublist _ _ Hsub Hsorted).
  - exact (sublist_NoDup _ _ Hnda Hsub).
Qed.

Lemma invariant_draws_only f s : draws_only f -> invariant s -> invariant (f s).
Proof. intros Hf Hs. destruct (Hf s) as [t ->]. exact Hs. Qed.

Lemma invariant_advance_projectiles fuel s s' :
  invariant s -> advance_projectiles fuel s = Some s' -> invariant s'.
Proof.
  intros Hs H. unfold advance_projectiles in H.
  destruct (advance_projectiles_loop fuel 0 _) as [s1|] eqn:Hloop; [|discriminate].
  inversion H; subst s'. apply (invariant_draws_only (emit draw_frame)); [apply draws_only_emit|].
  apply invariant_add_missing_asteroids.
  exact (invariant_projectile_loop fuel (emit s_invalidate_mode (emit new_frame s)) s1 Hs Hloop).
Qed.

Lemma invariant_advance_asteroids fuel s s' :
  invariant s -> advance_asteroids fuel s = Some s' -> invariant s'.
Proof.
  intros Hs H. unfold advance_asteroids in H.
  destruct (advance_asteroids_loop fuel 0 _) as [s1|] eqn:Hloop; [|discriminate].
  destruct (redraw_base_Some _ _ _ _ H) as [t ->].
  change (invariant (add_missing_asteroids (check_all_base_hits s1))).
  apply invariant_add_missing_asteroids, invariant_check_all_base_hits.
  exact (invariant_asteroid_loop fuel
           (emit s_invalidate_mode (emit set_display_attribute_TERM_RESET (emit new_frame s)))
           s1 Hs Hloop).
Qed.

Lemma invariant_move_base fuel direction s s' moved :
  direction = MOVE_LEFT \/ direction = MOVE_RIGHT ->
  invariant s -> move_base fuel direction s = Some (s', moved) -> invariant s'.
Proof.
  intros Hd Hs H. apply move_base_view in H.
  assert (Hdir : to_int8 direction = direction).
  { destruct Hd as [-> | ->]; reflexivity. }
  rewrite Hdir in H.
  destruct ((basePosition s =? 0) && (direction =? MOVE_LEFT)
            || (basePosition s =? 7) && (direction =? MOVE_RIGHT)) eqn:Hguard.
  { destruct H as [-> _]. exact Hs. }
  destruct H as (_ & t & t2 & ->).
  match goal with
  | |- invariant (set_trace _ ?st) => change (invariant st)
  end.
  apply invariant_check_all_base_hits.
  destruct Hs as (Hwf & Hbase & Hrest). unfold FIELD_WIDTH in Hbase.
  split; [exact Hwf|]. split; [|exact Hrest]. simpl_state. unfold FIELD_WIDTH.
  apply orb_false_iff in Hguard as [Hl Hr]. apply andb_false_iff in Hl, Hr.
  unfold MOVE_LEFT, MOVE_RIGHT in *.
  rewrite to_int8_small by (destruct Hd; subst; lia).
  destruct Hd as [-> | ->].
  - destruct Hl as [Hl | Hl]; [apply Z.eqb_neq in Hl; lia | discriminate].
  - destruct Hr as [Hr | Hr]; [apply Z.eqb_neq in Hr; lia | discriminate].
Qed.

(** ** Firing *)

(** The position [fire_projectile] stores is the one [projectile_at] and
    [asteroid_at] look for. *)
Lemma spawn_cell_packed base :
  -128 <= base < 128 -> to_uint8 (GAME_POSITION base 2) = packed base 2.
Proof.
  intros Hb.
  set (test := fun p : Z => to_uint8 (GAME_POSITION (p - 128) 2) =? packed (p - 128) 2).
  assert (H : test (base + 128) = true).
  { apply (forall_bytes test); [vm_compute; reflexivity | lia]. }
  unfold test in H. replace (base + 128 - 128) with base in H by lia.
  apply Z.eqb_eq, H.
Qed.

Lemma fire_projectile_reject s :
  fits (numProjectiles s) (projectiles s) ->
  MAX_PROJECTILES <= numProjectiles s \/ packed (basePosition s) 2 ∈ live_projectiles s ->
  fire_projectile s = (s, 0).
Proof.
  intros Hf H. unfold fire_projectile.
  destruct (Z.ltb_spec (numProjectiles s) MAX_PROJECTILES) as [Hlt | Hge]; [|reflexivity].
  destruct H as [H | H]; [lia|]. cbn [andb].
  rewrite projectile_at_free by assumption.
  rewrite bool_decide_eq_true_2 by assumption. reflexivity.
Qed.

Lemma fire_projectile_accept s :
  fits (numProjectiles s) (projectiles s) ->
  fits (numAsteroids s) (asteroids s) ->
  Z.of_nat (length (projectiles s)) = MAX_PROJECTILES ->
  -128 <= basePosition s < 128 ->
  numProjectiles s < MAX_PROJECTILES ->
  (packed (basePosition s) 2 ∉ live_projectiles s) ->
  let c := packed (basePosition s) 2 in
  exists s',
    fire_projectile s = (s', 1)
    /\ fits (numProjectiles s') (projectiles s')
    /\ fits (numAsteroids s') (asteroids s')
    /\ length (projectiles s') = length (projectiles s)
    /\ length (asteroids s') = length (asteroids s)
    /\ basePosition s' = basePosition s
    /\ lives s' = lives s
    /\ rand_calls s' = rand_calls s
    /\ (((c ∉ live_asteroids s)
         /\ live_projectiles s' = live_projectiles s ++ [c]
         /\ numProjectiles s' = numProjectiles s + 1
         /\ live_asteroids s' = live_asteroids s
         /\ numAsteroids s' = numAsteroids s
         /\ score s' = score s)
        \/ (exists al1 al2,
              live_asteroids s = al1 ++ c :: al2 /\ (c ∉ al1)
              /\ live_projectiles s' = live_projectiles s
              /\ numProjectiles s' = numProjectiles s
              /\ live_asteroids s' = al1 ++ al2
              /\ numAsteroids s' = numAsteroids s - 1
              /\ score s' = score s + 1)).
Proof.
  intros Hfp Hfa Hlen Hbase Hroom Hfree c.
  pose proof Hfp as (Hn0 & Hcap & Hb).
  unfold fire_projectile.
  destruct (Z.ltb_spec (numProjectiles s) MAX_PROJECTILES) as [_ | ?]; [|lia]. cbn [andb].
  rewrite projectile_at_free by assumption.
  rewrite bool_decide_eq_false_2 by assumption. cbn [negb].
  simpl_state.
  rewrite to_uint8_small by lia. rewrite to_int8_small by lia.
  rewrite spawn_cell_packed by assumption. fold c.
  set (s3 := mkState _ _ _ _ _ _ _ _ _ _).
  assert (Hlive3 : live_projectiles s3 = live_projectiles s ++ [c]).
  { unfold live_projectiles, s3. simpl_state. unfold wr.
    replace (Z.to_nat (numProjectiles s + 1)) with (S (Z.to_nat (numProjectiles s))) by lia.
    apply take_snoc_insert. lia. }
  assert (Hfp3 : fits (numProjectiles s3) (projectiles s3)).
  { unfold s3. simpl_state. unfold wr. split; [rewrite length_insert; lia|].
    split; [rewrite length_insert; lia|].
    apply Forall_insert; [exact Hb|]. unfold byte, c, packed. apply to_uint8_range. }
  assert (Hlen3 : length (projectiles s3) = length (projectiles s)).
  { unfold s3. simpl_state. unfold wr. apply length_insert. }
  destruct (asteroid_at_spec (basePosition s) 2 s3 Hfa)
    as [[Hnot Hat] | (al1 & al2 & Hal & Hn1 & Hat)]; rewrite Hat.
  - rewrite check_asteroid_hit_miss by (right; reflexivity).
    change (0 =? -1) with false. cbv iota.
    destruct (draws_only_redraw_projectile (numProjectiles s) COLOUR_PROJECTILE s3) as [t ->].
    eexists. split; [reflexivity|].
    split_and!; try assumption; try reflexivity.
    left. split_and!; try assumption; try reflexivity.
  - fold c in Hal, Hn1.
    assert (Hidx : numProjectiles s = Z.of_nat (length (live_projectiles s))).
    { symmetry. apply live_length, Hfp. }
    destruct (check_asteroid_hit_hit s3 (live_projectiles s) c [] al1 c al2 _ _
                Hfp3 Hfa Hlive3 Hidx Hal eq_refl)
      as (ps' & as' & t & Hgp & Hga & ->).
    destruct (closed_gap_fits _ _ _ _ _ _ Hfp3 Hlive3 Hgp) as (Hfp' & Hlp' & Hlenp).
    destruct (closed_gap_fits _ _ _ _ _ _ Hfa Hal Hga) as (Hfa' & Hla' & Hlena).
    change (1 =? -1) with false. cbv iota.
    match goal with
    | |- context [redraw_projectile ?i ?c ?st] =>
        destruct (draws_only_redraw_projectile i c st) as [t' ->]
    end.
    rewrite app_nil_r in Hlp'.
    eexists. split; [reflexivity|].
    unfold live_projectiles, live_asteroids in *. unfold s3 in *. simpl_state.
    replace (numProjectiles s + 1 - 1) with (numProjectiles s) in * by lia.
    split_and!; try assumption; try reflexivity; try congruence.
    right. exists al1, al2. split_and!; try assumption; try reflexivity.
Qed.

Lemma invariant_fire_projectile s :
  invariant s -> invariant (fst (fire_projectile s)).
Proof.
  intros Hs. pose proof Hs as ((Hfp & Hfa & Hlp & Hla) & Hbase & Hsorted & Hnda & Hndp).
  unfold FIELD_WIDTH in Hbase.
  destruct (Z.ltb_spec (numProjectiles s) MAX_PROJECTILES) as [Hroom | Hfull].
  - destruct (decide (packed (basePosition s) 2 ∈ live_projectiles s)) as [Hin | Hfree].
    + rewrite fire_projectile_reject by (try assumption; right; exact Hin). exact Hs.
    + destruct (fire_projectile_accept s Hfp Hfa Hlp ltac:(lia) Hroom Hfree)
        as (s' & -> & Hfp' & Hfa' & Hlenp & Hlena & Hb' & _ & _ & Hcase).
      cbn [fst]. unfold invariant, wf, FIELD_WIDTH.
      destruct Hcase as [(Hc & Hlp' & _ & Hla' & _) | (al1 & al2 & Hal & Hc & Hlp' & _ & Hla' & _)].
      * rewrite Hlp', Hla'. split_and!; try assumption; try congruence; try lia.
        apply NoDup_app. split; [exact Hndp|]. split; [|apply NoDup_singleton].
        intros x Hx Hx'. apply list_elem_of_singleton in Hx'. subst x. contradiction.
      * assert (Hsub : al1 ++ al2 `sublist_of` live_asteroids s).
        { rewrite Hal. apply sublist_app_middle. }
        rewrite Hlp', Hla'. split_and!; try assumption; try congruence; try lia.
        -- exact (sorted_by_y_sublist _ _ Hsub Hsorted).
        -- exact (sublist_NoDup _ _ Hnda Hsub).
  - rewrite fire_projectile_reject by (try assumption; left; exact Hfull). exact Hs.
Qed.

Lemma invariant_initialise_game fuel s0 s :
  memory_ok s0 -> initialise_game fuel s0 = Some s -> invariant s.
Proof.
  intros (Hfp & Hfa & Hlp & Hla) H. destruct (initialise_game_shape _ _ _ H) as [t ->].
  match goal with
  | |- invariant (set_trace _ ?st) => change (invariant st)
  end.
  unfold reset_game. set (s1 := emit new_frame _).
  assert (Hfa1 : fits (numAsteroids s1) (asteroids s1)) by exact Hfa.
  assert (Hla1 : Z.of_nat (length (asteroids s1)) = MAX_ASTEROIDS) by exact Hla.
  unfold for_range, add_asteroid.
  destruct (spawn_many 3 (Z.to_nat (MAX_ASTEROIDS - 0)) 0 s1 Hfa1 Hla1)
    as (Hf2 & Hl2 & Hnp2 & Hp2 & Hb2 & _ & _ & _ & extra & _ & _ & _ & Hnd & _).
  set (s2 := for_loop _ 0 _ s1) in *.
  destruct (sort_asteroids_spec s2 Hf2) as (a' & -> & Hf3 & Hl3 & Hsorted & Hperm).
  unfold invariant, wf, live_asteroids, live_projectiles, FIELD_WIDTH. simpl_state.
  rewrite Hnp2, Hp2, Hb2. subst s1. simpl_state.
  split_and!; try assumption; try congruence; try lia.
  - rewrite Hperm. apply Hnd. constructor.
  - constructor.
Qed.

Lemma invariant_set_paused pause s : invariant s -> invariant (set_paused pause s).
Proof. intros Hs. exact Hs. Qed.

(** Every reachable state satisfies the invariant. *)
Lemma reachable_invariant s : reachable s -> invariant s.
Proof.
  induction 1 as [s0 fuel s Hmem Hinit | s fuel d s' moved _ IH Hd Hstep | s _ IH
                  | s fuel s' _ IH Hstep | s fuel s' _ IH Hstep | s pause _ IH].
  - exact (invariant_initialise_game fuel s0 s Hmem Hinit).
  - exact (invariant_move_base fuel d s s' moved Hd IH Hstep).
  - apply invariant_fire_projectile, IH.
  - exact (invariant_advance_projectiles fuel s s' IH Hstep).
  - exact (invariant_advance_asteroids fuel s s' IH Hstep).
  - apply invariant_set_paused, IH.
Qed.

(** ** Checking concrete states *)

Lemma fitsb_fits n a : fitsb n a = true -> fits n a.
Proof.
  unfold fitsb, fits. rewrite !andb_true_iff, forallb_forall.
  intros (((H0 & H1) & H2) & Hb). split; [lia|]. split; [lia|].
  apply Forall_forall. intros p Hp. apply list_elem_of_In in Hp.
  specialize (Hb p Hp). unfold byteb in Hb. apply andb_true_iff in Hb. unfold byte. lia.
Qed.

Lemma wf_check s :
  fitsb (numProjectiles s) (projectiles s) = true ->
  fitsb (numAsteroids s) (asteroids s) = true ->
  Z.of_nat (length (projectiles s)) = MAX_PROJECTILES ->
  Z.of_nat (length (asteroids s)) = MAX_ASTEROIDS ->
  wf s.
Proof. intros Hp Ha Hlp Hla. split_and!; auto using fitsb_fits. Qed.

Lemma memory_ok_check s :
  fitsb 0 (projectiles s) = true ->
  fitsb 0 (asteroids s) = true ->
  Z.of_nat (length (projectiles s)) = MAX_PROJECTILES ->
  Z.of_nat (length (asteroids s)) = MAX_ASTEROIDS ->
  memory_ok s.
Proof. intros Hp Ha Hlp Hla. split_and!; auto using fitsb_fits. Qed.

(** ** The driver stays within the reachable states *)

Lemma run_reachable fuel ops : forall s s',
  Forall left_or_right ops -> reachable s -> run fuel ops s = Some s' -> reachable s'.
Proof.
  induction ops as [|op ops IH]; intros s s' Hops Hs Hrun.
  - inversion Hrun; subst s'. exact Hs.
  - apply Forall_cons in Hops as [Hop Hops]. destruct op as [d| | |]; cbn [run] in Hrun.
    + destruct (move_base fuel d s) as [[s1 moved]|] eqn:Hstep; [|discriminate].
      apply (IH _ _ Hops (reach_move_base s fuel d s1 moved Hs Hop Hstep) Hrun).
    + apply (IH _ _ Hops (reach_fire_projectile s Hs) Hrun).
    + destruct (advance_projectiles fuel s) as [s1|] eqn:Hstep; [|discriminate].
      apply (IH _ _ Hops (reach_advance_projectiles s fuel s1 Hs Hstep) Hrun).
    + destruct (advance_asteroids fuel s) as [s1|] eqn:Hstep; [|discriminate].
      apply (IH _ _ Hops (reach_advance_asteroids s fuel s1 Hs Hstep) Hrun).
Qed.

(** ** The base position is only changed by [move_base] *)

Lemma basePosition_for_loop_set_asteroids (f : Z -> list Z -> list Z) n i s :
  basePosition (for_loop n i (fun i s => set_asteroids (f i (asteroids s)) s) s) = basePosition s.
Proof. rewrite for_loop_set_asteroids. reflexivity. Qed.

Lemma basePosition_remove_asteroid i s : basePosition (remove_asteroid i s) = basePosition s.
Proof.
  unfold remove_asteroid. destruct (_ || _); [reflexivity|].
  unfold for_range, set_numAsteroids. cbn [basePosition].
  rewrite basePosition_for_loop_set_asteroids.
  destruct (draws_only_redraw_asteroid (to_int8 i) COLOUR_BLACK s) as [t ->]. reflexivity.
Qed.

Lemma basePosition_check_base_hit x y s :
  basePosition (fst (check_base_hit x y s)) = basePosition s.
Proof.
  unfold check_base_hit. destruct (_ =? _); [reflexivity|].
  cbn [fst]. simpl_state. apply basePosition_remove_asteroid.
Qed.

Lemma basePosition_check_all_base_hits s :
  basePosition (check_all_base_hits s) = basePosition s.
Proof. unfold check_all_base_hits. rewrite !basePosition_check_base_hit. reflexivity. Qed.

(** With the base inside the field, both calls of [redraw_base] in
    [move_base] return: four rounds of fuel are enough. *)
Lemma move_base_returns fuel direction s :
  (4 <= fuel)%nat -> 0 <= basePosition s <= FIELD_WIDTH - 1 ->
  direction = MOVE_LEFT \/ direction = MOVE_RIGHT ->
  exists s' moved, move_base fuel direction s = Some (s', moved).
Proof.
  intros Hfuel Hbase Hd. unfold FIELD_WIDTH in Hbase. unfold move_base. cbv zeta.
  assert (Hdir : to_int8 direction = direction) by (destruct Hd as [-> | ->]; reflexivity).
  rewrite Hdir.
  destruct (_ || _); [eexists _, _; reflexivity|].
  destruct (redraw_base_returns fuel COLOUR_BLACK (emit s_invalidate_mode (emit draw_frame s)))
    as [t1 ->]; [change (-128 <= basePosition s < 126); lia | exact Hfuel |].
  match goal with
  | |- context [redraw_base fuel COLOUR_BASE ?st] =>
      destruct (redraw_base_returns fuel COLOUR_BASE st) as [t2 ->]; [|exact Hfuel|]
  end.
  - rewrite basePosition_check_all_base_hits. simpl_state.
    pose proof (to_int8_range (basePosition s + (2 * direction - 1))).
    rewrite to_int8_small by (destruct Hd as [-> | ->]; unfold MOVE_LEFT, MOVE_RIGHT; lia).
    destruct Hd as [-> | ->]; unfold MOVE_LEFT, MOVE_RIGHT; lia.
  - eexists _, _. reflexivity.
Qed.

(** * The properties of the specification *)

(** ** Removal by index *)

(** What closing the gap at the index [i] means entry by entry. *)
Lemma closed_gap_index n a a' i x :
  fits n a -> 0 <= i < n ->
  let live := take (Z.to_nat n) a in
  closed_gap (take (Z.to_nat i) live) x (drop (S (Z.to_nat i)) live) a a' ->
  live = take (Z.to_nat i) live ++ x :: drop (S (Z.to_nat i)) live ->
  (forall j, 0 <= j < i -> rd a' j = rd a j)
  /\ (forall j, i < j < n -> rd a' (j - 1) = rd a j)
  /\ take (Z.to_nat (n - 1)) a' = delete (Z.to_nat i) live.
Proof.
  intros Hf Hi live Hg Hl.
  pose proof (live_length _ _ Hf) as Hn. fold live in Hn.
  destruct (closed_gap_rd _ _ _ _ _ Hg) as [Hlow Hhigh].
  destruct (closed_gap_fits _ _ _ _ _ _ Hf Hl Hg) as (_ & Hlive' & _).
  assert (Hl1 : Z.of_nat (length (take (Z.to_nat i) live)) = i).
  { rewrite length_take_le by lia. lia. }
  assert (Hl2 : Z.of_nat (length (drop (S (Z.to_nat i)) live)) = n - i - 1).
  { rewrite length_drop. lia. }
  split; [|split].
  - intros j Hj. apply Hlow. lia.
  - intros j Hj. apply Hhigh. lia.
  - rewrite Hlive'. symmetry. apply delete_take_drop.
Qed.

(** C9. Removing by an index outside the live range changes nothing; removing
    by a live index [i] leaves the entries below [i] in place, moves every
    live entry above [i] down by one and lowers the count by one, so that
    the live prefix is the old one with the entry [i] deleted.  This holds
    of [remove_asteroid] and of [remove_projectile]. *)
Theorem remove_by_index s i :
  fits (numAsteroids s) (asteroids s) ->
  fits (numProjectiles s) (projectiles s) ->
  -128 <= i < 128 ->
  (~ 0 <= i < numAsteroids s -> remove_asteroid i s = s)
  /\ (0 <= i < numAsteroids s ->
        numAsteroids (remove_asteroid i s) = numAsteroids s - 1
        /\ (forall j, 0 <= j < i ->
              rd (asteroids (remove_asteroid i s)) j = rd (asteroids s) j)
        /\ (forall j, i < j < numAsteroids s ->
              rd (asteroids (remove_asteroid i s)) (j - 1) = rd (asteroids s) j)
        /\ live_asteroids (remove_asteroid i s) = delete (Z.to_nat i) (live_asteroids s))
  /\ (~ 0 <= i < numProjectiles s -> remove_projectile i s = s)
  /\ (0 <= i < numProjectiles s ->
        numProjectiles (remove_projectile i s) = numProjectiles s - 1
        /\ (forall j, 0 <= j < i ->
              rd (projectiles (remove_projectile i s)) j = rd (projectiles s) j)
        /\ (forall j, i < j < numProjectiles s ->
              rd (projectiles (remove_projectile i s)) (j - 1) = rd (projectiles s) j)
        /\ live_projectiles (remove_projectile i s) = delete (Z.to_nat i) (live_projectiles s)).
Proof.
  intros Hfa Hfp Hi8. split; [|split; [|split]].
  - intros Hout. apply remove_asteroid_out. rewrite to_int8_small by lia. lia.
  - intros Hi. pose proof (live_length _ _ Hfa) as Hn.
    destruct (live_middle (live_asteroids s) i ltac:(unfold live_asteroids; lia)) as (x & Hl & Hl1).
    destruct (remove_asteroid_in s _ x _ i Hfa Hl ltac:(lia)) as (a' & t & Hg & ->).
    destruct (closed_gap_index _ _ _ i x Hfa Hi Hg Hl) as (Hlow & Hhigh & Hlive).
    unfold live_asteroids. simpl_state. split_and!; [reflexivity | exact Hlow | exact Hhigh | exact Hlive].
  - intros Hout. apply remove_projectile_out. rewrite to_int8_small by lia. lia.
  - intros Hi. pose proof (live_length _ _ Hfp) as Hn.
    destruct (live_middle (live_projectiles s) i ltac:(unfold live_projectiles; lia)) as (x & Hl & Hl1).
    destruct (remove_projectile_in s _ x _ i Hfp Hl ltac:(lia)) as (a' & t & Hg & ->).
    destruct (closed_gap_index _ _ _ i x Hfp Hi Hg Hl) as (Hlow & Hhigh & Hlive).
    unfold live_projectiles. simpl_state. split_and!; [reflexivity | exact Hlow | exact Hhigh | exact Hlive].
Qed.

(** ** The base *)

(** C7. With the base inside the field and a direction that is left or
    right, [move_base] returns, four rounds of fuel being enough for the
    loop of [redraw_base].  It returns 0 exactly when the base is at 0 and
    asked to go left or at FIELD_WIDTH-1 and asked to go right, and then
    the state is what it was; otherwise it returns 1 and the base position
    has changed by one, in the direction asked, and is still inside the
    field. *)
Theorem move_base_bounds fuel s direction :
  (4 <= fuel)%nat ->
  0 <= basePosition s <= FIELD_WIDTH - 1 ->
  direction = MOVE_LEFT \/ direction = MOVE_RIGHT ->
  let rejected := (basePosition s = 0 /\ direction = MOVE_LEFT)
                  \/ (basePosition s = FIELD_WIDTH - 1 /\ direction = MOVE_RIGHT) in
  exists s' moved,
    move_base fuel direction s = Some (s', moved)
    /\ (moved = 0 <-> rejected)
    /\ (rejected -> move_base fuel direction s = Some (s, 0))
    /\ (~ rejected ->
          moved = 1
          /\ basePosition s'
             = (if direction =? MOVE_LEFT then basePosition s - 1 else basePosition s + 1)
          /\ 0 <= basePosition s' <= FIELD_WIDTH - 1).
Proof.
  clear MAX_PROJECTILES MAX_ASTEROIDS random.
  intros Hfuel Hbase Hd rejected.
  destruct (move_base_returns fuel direction s Hfuel Hbase Hd) as (s' & moved & Hmove).
  exists s', moved. split; [exact Hmove|].
  pose proof (move_base_view _ _ _ _ _ Hmove) as Hview. clear Hmove.
  unfold FIELD_WIDTH, MOVE_LEFT, MOVE_RIGHT in *.
  assert (Hdir : to_int8 direction = direction) by (destruct Hd as [-> | ->]; reflexivity).
  unfold move_base. cbv zeta. rewrite Hdir in Hview |- *. unfold MOVE_LEFT, MOVE_RIGHT.
  destruct ((basePosition s =? 0) && (direction =? 0)
            || (basePosition s =? 7) && (direction =? 1)) eqn:Hguard.
  - assert (Hrej : rejected).
    { apply orb_true_iff in Hguard as [H | H]; apply andb_true_iff in H as [H1 H2];
        apply Z.eqb_eq in H1, H2; [left | right]; split; assumption || lia. }
    destruct Hview as [-> ->]. split_and!; try tauto.
  - assert (Hrej : ~ rejected).
    { intros [[H1 H2] | [H1 H2]]; rewrite H1, H2 in Hguard; discriminate. }
    destruct Hview as (-> & t & t' & ->).
    split; [split; [discriminate | tauto]|]. split; [tauto|]. intros _.
    simpl_state. rewrite basePosition_check_all_base_hits. simpl_state.
    assert (Hmove : to_int8 (basePosition s + (2 * direction - 1))
                    = if direction =? 0 then basePosition s - 1 else basePosition s + 1).
    { rewrite to_int8_small by (destruct Hd; subst; lia).
      destruct Hd as [-> | ->]; cbn; lia. }
    rewrite Hmove. split; [reflexivity|]. split; [reflexivity|].
    subst rejected. destruct Hd as [-> | ->]; cbn [Z.eqb]; lia.
Qed.

(** ** Firing *)

(** C8. [fire_projectile] returns 1 exactly when there is room for one more
    projectile and no live projectile is at the cell above the base; it
    returns 0 otherwise, and then the state is what it was. *)
Theorem fire_projectile_guard s :
  fits (numProjectiles s) (projectiles s) ->
  (snd (fire_projectile s) = 1
   <-> numProjectiles s < MAX_PROJECTILES
       /\ (packed (basePosition s) 2 ∉ live_projectiles s))
  /\ (snd (fire_projectile s) = 0 \/ snd (fire_projectile s) = 1)
  /\ (snd (fire_projectile s) = 0 -> fst (fire_projectile s) = s).
Proof.
  intros Hf. unfold fire_projectile.
  rewrite projectile_at_free by assumption.
  destruct (Z.ltb_spec (numProjectiles s) MAX_PROJECTILES) as [Hroom | Hfull];
    destruct (bool_decide_reflect (packed (basePosition s) 2 ∈ live_projectiles s))
      as [Hin | Hfree]; cbn [andb negb fst snd].
  - split; [split; [discriminate | tauto]|]. split; [left|]; reflexivity.
  - destruct (check_asteroid_hit _ _ _) as [s1 hit]. cbn [fst snd].
    split; [split; [tauto | reflexivity]|]. split; [right; reflexivity | discriminate].
  - split; [split; [discriminate | lia]|]. split; [left|]; reflexivity.
  - split; [split; [discriminate | lia]|]. split; [left|]; reflexivity.
Qed.

(** C5. With the base at 3, no projectile in flight and a single asteroid,
    at (3,2), [fire_projectile] returns 1 and leaves no projectile and no
    asteroid, the score being one higher. *)
Theorem fire_resolves_immediate_hit s :
  wf s -> 0 < MAX_PROJECTILES ->
  basePosition s = 3 -> numProjectiles s = 0 ->
  numAsteroids s = 1 -> rd (asteroids s) 0 = GAME_POSITION 3 2 ->
  snd (fire_projectile s) = 1
  /\ numProjectiles (fst (fire_projectile s)) = 0
  /\ numAsteroids (fst (fire_projectile s)) = 0
  /\ asteroid_at 3 2 (fst (fire_projectile s)) = -1
  /\ score (fst (fire_projectile s)) = score s + 1.
Proof.
  intros (Hfp & Hfa & Hlp & Hla) Hmax Hbase Hnp Hna Hrd.
  assert (Hlive : live_asteroids s = [packed 3 2]).
  { unfold live_asteroids. rewrite Hna. unfold rd in Hrd. change (Z.to_nat 0) with O in Hrd.
    destruct Hfa as (Hn & _). destruct (asteroids s) as [|x a]; [cbn [length] in Hn; lia|].
    cbn in Hrd. subst x. reflexivity. }
  assert (Hlivep : live_projectiles s = []).
  { unfold live_projectiles. rewrite Hnp. reflexivity. }
  destruct (fire_projectile_accept s Hfp Hfa Hlp ltac:(lia) ltac:(lia))
    as (s' & -> & Hfp' & Hfa' & _ & _ & _ & _ & _ & Hcase).
  { rewrite Hlivep. apply not_elem_of_nil. }
  rewrite Hbase in Hcase. cbn [fst snd].
  destruct Hcase as [(Hnot & _) | (al1 & al2 & Hal & Hnot & Hlp' & Hnp' & Hla' & Hna' & Hsc)].
  - exfalso. apply Hnot. rewrite Hlive. left.
  - rewrite Hlive in Hal. destruct al1 as [|y al1].
    + inversion Hal; subst al2. cbn [app] in Hla'.
      split_and!; try reflexivity; try lia.
      destruct (asteroid_at_spec 3 2 s' Hfa') as [[_ Hat] | (l1 & l2 & Hl & _)]; [exact Hat|].
      rewrite Hla' in Hl. destruct l1; discriminate.
    + inversion Hal as [[Hy Htl]]. destruct al1; discriminate.
Qed.

(** ** Base hits *)

(** C6. One call of [check_all_base_hits] looks at the four cells of the
    base, whatever it finds in the others: it takes as many lives and
    removes as many asteroids as there are cells of the base holding an
    asteroid; when no two asteroids share a cell, the asteroids left are
    those that were not on a cell of the base. *)
Theorem check_all_base_hits_penalty s :
  fits (numAsteroids s) (asteroids s) ->
  -128 <= basePosition s < 128 ->
  lives (check_all_base_hits s) = lives s - base_hits s
  /\ numAsteroids (check_all_base_hits s) = numAsteroids s - base_hits s
  /\ 0 <= base_hits s <= 4
  /\ live_asteroids (check_all_base_hits s) `sublist_of` live_asteroids s
  /\ (NoDup (live_asteroids s) ->
        live_asteroids (check_all_base_hits s)
        = filter (fun p => p ∉ footprint s) (live_asteroids s)).
Proof.
  intros Hf Hb.
  destruct (check_all_base_hits_spec s Hf Hb) as (as' & t & Heq & Hf' & Hlive & Hlen).
  assert (Hlive' : live_asteroids (check_all_base_hits s)
                   = remove_first (base_cell (basePosition s + 1) 0)
                       (remove_first (base_cell (basePosition s) 0)
                          (remove_first (base_cell (basePosition s - 1) 0)
                             (remove_first (base_cell (basePosition s) 1) (live_asteroids s))))).
  { rewrite Heq. exact Hlive. }
  rewrite Hlive'. rewrite Heq. simpl_state. clear Hlive.
  split; [reflexivity|]. split; [reflexivity|]. split; [|split].
  - unfold base_hits. pose proof (length_filter (fun c => c ∈ live_asteroids s) (footprint s)) as H.
    change (length (footprint s)) with 4%nat in H. lia.
  - repeat (etrans; [apply remove_first_sublist|]). reflexivity.
  - intros Hnd.
    assert (Hstep : forall c l, NoDup l ->
              remove_first c l = filter (fun p => p <> c) l /\ NoDup (remove_first c l)).
    { intros c l Hl. split; [apply remove_first_NoDup, Hl|].
      exact (sublist_NoDup _ _ Hl (remove_first_sublist c l)). }
    destruct (Hstep (base_cell (basePosition s) 1) _ Hnd) as [E1 N1].
    destruct (Hstep (base_cell (basePosition s - 1) 0) _ N1) as [E2 N2].
    destruct (Hstep (base_cell (basePosition s) 0) _ N2) as [E3 N3].
    destruct (Hstep (base_cell (basePosition s + 1) 0) _ N3) as [E4 _].
    rewrite E4, E3, E2, E1. rewrite !list_filter_filter.
    apply list_filter_iff. intros p. unfold footprint, footprint_of.
    rewrite !not_elem_of_cons. pose proof (not_elem_of_nil p). tauto.
Qed.

(** ** Termination of the two advance loops *)

Lemma is_Some_advance_projectiles fuel s :
  wf s -> (Z.to_nat (numProjectiles s) < fuel)%nat -> is_Some (advance_projectiles fuel s).
Proof.
  intros (Hfp & Hfa & _) Hfuel. unfold advance_projectiles.
  pose proof (live_length _ _ Hfp) as Hn.
  destruct (advance_projectiles_loop_spec (live_projectiles s) fuel []
              (emit s_invalidate_mode (emit new_frame s)) Hfp Hfa eq_refl)
    as (s' & Hloop & _).
  { unfold live_projectiles. lia. }
  cbn [length] in Hloop. change (Z.of_nat 0) with 0 in Hloop. rewrite Hloop. eexists. reflexivity.
Qed.

(** The while loop of [advance_asteroids] ends, with any fuel above the
    count. *)
Lemma is_Some_advance_asteroids_loop fuel s :
  wf s -> (Z.to_nat (numAsteroids s) < fuel)%nat ->
  is_Some (advance_asteroids_loop fuel 0
             (emit s_invalidate_mode (emit set_display_attribute_TERM_RESET (emit new_frame s)))).
Proof.
  intros (Hfp & Hfa & _) Hfuel.
  pose proof (live_length _ _ Hfa) as Hn.
  destruct (advance_asteroids_loop_spec (live_asteroids s) fuel []
              (emit s_invalidate_mode (emit set_display_attribute_TERM_RESET (emit new_frame s)))
              Hfp Hfa eq_refl)
    as (s' & Hloop & _).
  { unfold live_asteroids. lia. }
  cbn [length] in Hloop. change (Z.of_nat 0) with 0 in Hloop. rewrite Hloop. eexists. reflexivity.
Qed.

(** [advance_asteroids] returns when, besides, the base is where
    [redraw_base] returns. *)
Lemma is_Some_advance_asteroids fuel s :
  wf s -> -128 <= basePosition s < 126 ->
  (Z.to_nat (numAsteroids s) < fuel)%nat -> (4 <= fuel)%nat ->
  is_Some (advance_asteroids fuel s).
Proof.
  intros Hwf Hbase Hfuel Hfuel4. pose proof Hwf as (Hfp & Hfa & Hlp & Hla).
  destruct (is_Some_advance_asteroids_loop fuel s Hwf Hfuel) as [s1 Hloop].
  unfold advance_asteroids. cbv zeta. rewrite Hloop.
  destruct (advance_asteroids_loop_result fuel
              (emit s_invalidate_mode (emit set_display_attribute_TERM_RESET (emit new_frame s)))
              s1 Hfp Hfa Hloop)
    as (_ & Hfa1 & _ & Hla1 & Hb1 & _).
  assert (Hb1' : basePosition s1 = basePosition s) by exact Hb1.
  destruct (check_all_base_hits_spec s1 Hfa1 ltac:(lia)) as (as' & t & Heq & Hfa2 & _ & Hla2).
  rewrite Heq.
  match goal with
  | |- context [add_missing_asteroids ?st] =>
      destruct (add_missing_asteroids_spec st Hfa2 ltac:(simpl_state; congruence))
        as (_ & _ & _ & _ & Hb2 & _);
      set (s2 := add_missing_asteroids st) in *
  end.
  destruct (redraw_base_returns fuel COLOUR_BASE (emit draw_frame s2)) as [t' ->];
    [|exact Hfuel4 | eexists; reflexivity].
  change (-128 <= basePosition s2 < 126). rewrite Hb2. simpl_state. lia.
Qed.

(** C10. From a state whose counts are within the arrays, one iteration of
    either advance loop keeps the counts within the arrays and either moves
    the index up by one, the count staying, or takes one off the count, the
    index staying: count minus index goes down and stays non-negative.
    Hence both while loops end, as soon as the fuel exceeds the count:
    [advance_projectiles] returns, and so does [advance_asteroids] when the
    base is below column 126, which its last call, [redraw_base], needs to
    return (four rounds of fuel are enough for it). *)
Theorem advance_loops_terminate s :
  wf s ->
  (forall i, 0 <= i < numProjectiles s ->
     let s' := fst (advance_projectiles_body i s) in
     let i' := snd (advance_projectiles_body i s) in
     wf s'
     /\ ((i' = i + 1 /\ numProjectiles s' = numProjectiles s)
         \/ (i' = i /\ numProjectiles s' = numProjectiles s - 1))
     /\ 0 <= numProjectiles s' - i' < numProjectiles s - i)
  /\ (forall i, 0 <= i < numAsteroids s ->
        let s' := fst (advance_asteroids_body i s) in
        let i' := snd (advance_asteroids_body i s) in
        wf s'
        /\ ((i' = i + 1 /\ numAsteroids s' = numAsteroids s)
            \/ (i' = i /\ numAsteroids s' = numAsteroids s - 1))
        /\ 0 <= numAsteroids s' - i' < numAsteroids s - i)
  /\ (forall fuel, (Z.to_nat (numProjectiles s) < fuel)%nat ->
        is_Some (advance_projectiles fuel s))
  /\ (forall fuel, (Z.to_nat (numAsteroids s) < fuel)%nat ->
        is_Some (advance_asteroids_loop fuel 0
                   (emit s_invalidate_mode
                      (emit set_display_attribute_TERM_RESET (emit new_frame s)))))
  /\ (-128 <= basePosition s < 126 ->
      forall fuel, (Z.to_nat (numAsteroids s) < fuel)%nat -> (4 <= fuel)%nat ->
        is_Some (advance_asteroids fuel s)).
Proof.
  intros Hwf. pose proof Hwf as (Hfp & Hfa & Hlp & Hla).
  split; [|split; [|split; [|split]]].
  - intros i Hi. pose proof (live_length _ _ Hfp) as Hn.
    destruct (live_middle (live_projectiles s) i ltac:(unfold live_projectiles; lia))
      as (x & Hl & Hl1).
    destruct (advance_projectiles_body_spec s _ x _ Hfp Hfa Hl)
      as (s' & i' & Hbody & Hfp' & Hfa' & Hlenp & Hlena & _ & _ & _ & _ & Hcase).
    rewrite Hl1 in Hbody, Hcase. rewrite Hbody. cbn [fst snd].
    pose proof (live_length _ _ Hfp') as Hn'. fold (live_projectiles s') in Hn'.
    assert (Hrest : Z.of_nat (length (drop (S (Z.to_nat i)) (live_projectiles s)))
                    = numProjectiles s - i - 1).
    { rewrite length_drop. unfold live_projectiles in *. lia. }
    split; [split_and!; try assumption; congruence|].
    destruct Hcase as [[-> Hlive] | (-> & Hlive & _)];
      rewrite Hlive, length_app in Hn'; cbn [length] in Hn'.
    + split; [right; split; [reflexivity | lia] | lia].
    + split; [left; split; [reflexivity | lia] | lia].
  - intros i Hi. pose proof (live_length _ _ Hfa) as Hn.
    destruct (live_middle (live_asteroids s) i ltac:(unfold live_asteroids; lia))
      as (x & Hl & Hl1).
    destruct (advance_asteroids_body_spec s _ x _ Hfp Hfa Hl)
      as (s' & i' & Hbody & Hfp' & Hfa' & Hlenp & Hlena & _ & _ & _ & _ & Hcase).
    rewrite Hl1 in Hbody, Hcase. rewrite Hbody. cbn [fst snd].
    pose proof (live_length _ _ Hfa') as Hn'. fold (live_asteroids s') in Hn'.
    assert (Hrest : Z.of_nat (length (drop (S (Z.to_nat i)) (live_asteroids s)))
                    = numAsteroids s - i - 1).
    { rewrite length_drop. unfold live_asteroids in *. lia. }
    split; [split_and!; try assumption; congruence|].
    destruct Hcase as [[-> Hlive] | (-> & Hlive & _)];
      rewrite Hlive, length_app in Hn'; cbn [length] in Hn'.
    + split; [right; split; [reflexivity | lia] | lia].
    + split; [left; split; [reflexivity | lia] | lia].
  - intros fuel Hfuel. apply is_Some_advance_projectiles; assumption.
  - intros fuel Hfuel. apply is_Some_advance_asteroids_loop; assumption.
  - intros Hbase fuel Hfuel Hfuel4. apply is_Some_advance_asteroids; assumption.
Qed.

(** ** Invariants of the reachable states *)

Lemma sorted_by_y_lookup l : forall (i j : nat) p q,
  sorted_by_y l -> l !! i = Some p -> l !! j = Some q -> (i < j)%nat -> le_y p q.
Proof.
  unfold sorted_by_y. induction l as [|x l IH]; intros i j p q Hs Hi Hj Hij; [discriminate|].
  apply StronglySorted_inv in Hs as [Hs Hall]. destruct j as [|j]; [lia|].
  cbn in Hj. destruct i as [|i].
  - cbn in Hi. inversion Hi; subst p. rewrite Forall_forall in Hall.
    apply Hall. eapply list_elem_of_lookup_2, Hj.
  - cbn in Hi. apply (IH i j p q Hs Hi Hj). lia.
Qed.

(** C2. In every reachable state, that is after [initialise_game] and after
    every later call of a step operation, the live asteroids are in
    non-decreasing order of row. *)
Theorem reachable_sorted s :
  reachable s ->
  forall i j, 0 <= i <= j -> j < numAsteroids s ->
    GET_Y_POSITION (rd (asteroids s) i) <= GET_Y_POSITION (rd (asteroids s) j).
Proof.
  intros Hs i j Hij Hj.
  destruct (reachable_invariant s Hs) as ((_ & Hfa & _) & _ & Hsorted & _).
  pose proof Hfa as (Hn & _).
  assert (Hlookup : forall k, 0 <= k < numAsteroids s ->
            live_asteroids s !! Z.to_nat k = Some (rd (asteroids s) k)).
  { intros k Hk. unfold live_asteroids, rd. rewrite lookup_take_lt by lia.
    destruct (lookup_lt_is_Some_2 (asteroids s) (Z.to_nat k)) as [x ->]; [lia|]. reflexivity. }
  destruct (Z.eq_dec i j) as [-> | Hne]; [lia|].
  exact (sorted_by_y_lookup _ _ _ _ _ Hsorted
          (Hlookup i ltac:(lia)) (Hlookup j ltac:(lia)) ltac:(lia)).
Qed.

(** C4. In every reachable state no two live asteroids have the same packed
    position, and no two live projectiles have. *)
Theorem reachable_no_duplicates s :
  reachable s ->
  (forall i j, 0 <= i < numAsteroids s -> 0 <= j < numAsteroids s ->
     rd (asteroids s) i = rd (asteroids s) j -> i = j)
  /\ (forall i j, 0 <= i < numProjectiles s -> 0 <= j < numProjectiles s ->
        rd (projectiles s) i = rd (projectiles s) j -> i = j).
Proof.
  intros Hs.
  destruct (reachable_invariant s Hs) as ((Hfp & Hfa & _) & _ & _ & Hnda & Hndp).
  assert (Hgen : forall n a, fits n a -> NoDup (take (Z.to_nat n) a) ->
            forall i j, 0 <= i < n -> 0 <= j < n -> rd a i = rd a j -> i = j).
  { intros n a (Hn & _) Hnd i j Hi Hj Heq.
    assert (Hlookup : forall k, 0 <= k < n ->
              take (Z.to_nat n) a !! Z.to_nat k = Some (rd a k)).
    { intros k Hk. unfold rd. rewrite lookup_take_lt by lia.
      destruct (lookup_lt_is_Some_2 a (Z.to_nat k)) as [x ->]; [lia|]. reflexivity. }
    pose proof (NoDup_lookup _ _ _ _ Hnd (Hlookup i Hi) (eq_trans (Hlookup j Hj) (f_equal Some (eq_sym Heq)))).
    lia. }
  split; [exact (Hgen _ _ Hfa Hnda) | exact (Hgen _ _ Hfp Hndp)].
Qed.

(** ** Replenishment of the asteroids *)

Lemma numAsteroids_draws_only f s : draws_only f -> numAsteroids (f s) = numAsteroids s.
Proof. intros Hf. destruct (Hf s) as [t ->]. reflexivity. Qed.

(** Calls of [add_asteroid_in_rows] on a full list do nothing. *)
Lemma spawn_calls_full r k : forall i s,
  numAsteroids s = MAX_ASTEROIDS ->
  for_loop k i (fun _ s => add_asteroid_in_rows r s) s = s.
Proof.
  induction k as [|k IH]; intros i s Hfull; cbn [for_loop]; [reflexivity|].
  assert (E : add_asteroid_in_rows r s = s).
  { unfold add_asteroid_in_rows. rewrite (proj2 (Z.eqb_eq _ _) Hfull). reflexivity. }
  rewrite E. apply IH, Hfull.
Qed.

(** [k] calls of [add_asteroid_in_rows] in a row add [k] asteroids, unless
    they fill the list or the search of one of them gives up. *)
Lemma spawn_calls_fill_or_give_up r k : forall i s,
  fits (numAsteroids s) (asteroids s) ->
  Z.of_nat (length (asteroids s)) = MAX_ASTEROIDS ->
  numAsteroids (for_loop k i (fun _ s => add_asteroid_in_rows r s) s)
  = numAsteroids s + Z.of_nat k
  \/ numAsteroids (for_loop k i (fun _ s => add_asteroid_in_rows r s) s) = MAX_ASTEROIDS
  \/ exists k', (k' < k)%nat
       /\ search_gives_up r (for_loop k' i (fun _ s => add_asteroid_in_rows r s) s).
Proof.
  induction k as [|k IH]; intros i s Hf Hlen.
  - left. cbn [for_loop]. lia.
  - destruct (add_asteroid_in_rows_view r s Hf Hlen)
      as (Hf1 & Hl1 & _ & _ & _ & _ & _ & _ & Hcase).
    destruct Hcase as [[Hfull Hsame] | [(n & _ & _ & _ & _ & Hn1) | (Hroom & Hsame & Hocc)]].
    + right. left. rewrite spawn_calls_full by exact Hfull. exact Hfull.
    + cbn [for_loop].
      destruct (IH (i + 1) (add_asteroid_in_rows r s) Hf1 ltac:(congruence))
        as [Hall | [Hfull | (k' & Hk' & Hgive)]].
      * left. rewrite Hall, Hn1. lia.
      * right. left. exact Hfull.
      * right. right. exists (S k'). split; [lia | exact Hgive].
    + right. right. exists O. split; [lia|]. cbn [for_loop].
      split; [lia|]. exists 129%nat. split; [lia|]. split; [exact Hsame | exact Hocc].
Qed.

(** [add_missing_asteroids] fills the list unless one of its spawn
    searches gives up. *)
Lemma add_missing_asteroids_fills s :
  fits (numAsteroids s) (asteroids s) ->
  Z.of_nat (length (asteroids s)) = MAX_ASTEROIDS ->
  numAsteroids (add_missing_asteroids s) = MAX_ASTEROIDS \/ replenishment_gives_up s.
Proof.
  intros Hf Hlen. pose proof Hf as (Hn0 & Hcap & _).
  unfold add_missing_asteroids, for_range. cbv zeta.
  destruct (spawn_calls_fill_or_give_up (FIELD_HEIGHT - 1)
              (Z.to_nat (MAX_ASTEROIDS - to_uint8 (numAsteroids (emit s_invalidate_mode s))))
              (to_uint8 (numAsteroids (emit s_invalidate_mode s)))
              (emit s_invalidate_mode s) Hf Hlen)
    as [Hall | [Hfull | (k' & Hk' & Hgive)]].
  - left. rewrite Hall. simpl_state. rewrite to_uint8_small by lia. lia.
  - left. exact Hfull.
  - right. exists k'. split; [exact Hk' | exact Hgive].
Qed.

(** C1, as the code has it. The two advance operations end with a
    replenishment: when they return the asteroids are at most
    MAX_ASTEROIDS, and exactly MAX_ASTEROIDS unless one of the spawn
    searches of that replenishment gave up, that is, unless one of the
    calls of [add_asteroid_in_rows] that [add_missing_asteroids] made, in
    the state the while loop (and, in [advance_asteroids], the base-hit
    check) had left, found room in the list, made 8*16 attempts at least,
    each on a cell of the top row that held an asteroid when it was
    sampled, and changed nothing but the count of random() calls; the
    lives play no part in this.  [move_base] and [fire_projectile] do not
    replenish: they never raise the count of asteroids. *)
Theorem replenishment_after_advance s :
  wf s -> -128 <= basePosition s < 128 ->
  (forall fuel s', advance_projectiles fuel s = Some s' ->
     numAsteroids s' <= MAX_ASTEROIDS
     /\ (numAsteroids s' = MAX_ASTEROIDS
         \/ exists s1,
              advance_projectiles_loop fuel 0 (emit s_invalidate_mode (emit new_frame s))
              = Some s1
              /\ replenishment_gives_up s1))
  /\ (forall fuel s', advance_asteroids fuel s = Some s' ->
        numAsteroids s' <= MAX_ASTEROIDS
        /\ (numAsteroids s' = MAX_ASTEROIDS
            \/ exists s1,
                 advance_asteroids_loop fuel 0
                   (emit s_invalidate_mode
                      (emit set_display_attribute_TERM_RESET (emit new_frame s)))
                 = Some s1
                 /\ replenishment_gives_up (check_all_base_hits s1)))
  /\ (forall fuel direction s' moved,
        move_base fuel direction s = Some (s', moved) -> numAsteroids s' <= numAsteroids s)
  /\ numAsteroids (fst (fire_projectile s)) <= numAsteroids s.
Proof.
  intros (Hfp & Hfa & Hlp & Hla) Hbase. split; [|split; [|split]].
  - intros fuel s' H. unfold advance_projectiles in H.
    destruct (advance_projectiles_loop fuel 0 _) as [s1|] eqn:Hloop; [|discriminate].
    inversion H; subst s'. clear H.
    destruct (advance_projectiles_loop_result fuel (emit s_invalidate_mode (emit new_frame s))
                s1 Hfp Hfa Hloop)
      as (_ & Hfa1 & _ & Hla1 & _ & Hrc1 & _).
    assert (Hlen1 : Z.of_nat (length (asteroids s1)) = MAX_ASTEROIDS)
      by (simpl_state; congruence).
    destruct (add_missing_asteroids_spec s1 Hfa1 Hlen1) as ((Hn & _) & Hlen & _).
    change (numAsteroids (emit draw_frame (add_missing_asteroids s1)))
      with (numAsteroids (add_missing_asteroids s1)).
    split; [lia|].
    destruct (add_missing_asteroids_fills s1 Hfa1 Hlen1) as [Hfull | Hgive];
      [left; exact Hfull | right].
    exists s1. split; [reflexivity | exact Hgive].
  - intros fuel s' H. destruct (advance_asteroids_view _ _ _ H) as (s1 & t' & Hloop & ->).
    clear H.
    destruct (advance_asteroids_loop_result fuel
                (emit s_invalidate_mode (emit set_display_attribute_TERM_RESET (emit new_frame s)))
                s1 Hfp Hfa Hloop)
      as (_ & Hfa1 & _ & Hla1 & Hb1 & Hrc1 & _).
    destruct (check_all_base_hits_spec s1 Hfa1 ltac:(simpl_state; lia))
      as (as' & t & Heq & Hfa2 & _ & Hla2).
    assert (Hfa2' : fits (numAsteroids (check_all_base_hits s1))
                         (asteroids (check_all_base_hits s1))) by (rewrite Heq; exact Hfa2).
    assert (Hlen2 : Z.of_nat (length (asteroids (check_all_base_hits s1))) = MAX_ASTEROIDS).
    { rewrite Heq. simpl_state. congruence. }
    destruct (add_missing_asteroids_spec _ Hfa2' Hlen2) as ((Hn & _) & Hlen & _).
    change (numAsteroids (set_trace t' ?st)) with (numAsteroids st).
    split; [lia|].
    destruct (add_missing_asteroids_fills _ Hfa2' Hlen2) as [Hfull | Hgive];
      [left; exact Hfull | right].
    exists s1. split; [exact Hloop | exact Hgive].
  - intros fuel direction s' moved H. apply move_base_view in H.
    destruct (_ || _); [destruct H as [-> _]; lia|].
    destruct H as (_ & t1 & t2 & ->).
    change (numAsteroids (set_trace t2 ?st)) with (numAsteroids st).
    match goal with
    | |- context [check_all_base_hits ?st] =>
        destruct (check_all_base_hits_spec st Hfa
                    ltac:(simpl_state; apply to_int8_range))
          as (as' & t' & -> & _);
        pose proof (length_filter (fun c => c ∈ live_asteroids st) (footprint st)) as Hk
    end.
    unfold base_hits. simpl_state. lia.
  - destruct (Z.ltb_spec (numProjectiles s) MAX_PROJECTILES) as [Hroom | Hfull].
    + destruct (decide (packed (basePosition s) 2 ∈ live_projectiles s)) as [Hin | Hfree].
      * rewrite fire_projectile_reject by (try assumption; right; exact Hin). cbn [fst]. lia.
      * destruct (fire_projectile_accept s Hfp Hfa Hlp Hbase Hroom Hfree)
          as (s' & -> & _ & _ & _ & _ & _ & _ & _ & Hcase).
        cbn [fst].
        destruct Hcase as [(_ & _ & _ & _ & -> & _) | (al1 & al2 & _ & _ & _ & _ & _ & -> & _)]; lia.
    + rewrite fire_projectile_reject by (try assumption; left; exact Hfull). cbn [fst]. lia.
Qed.

(** * Further properties of the engine *)

(** ** Positions *)

(** X1. Packing and unpacking are inverse to each other: a column and a row
    below 16 are read back from the position they are packed into, which is
    a byte; every byte is the position its column and row are packed into;
    and no cell of the eight columns of the field is packed into
    INVALID_POSITION. *)
Theorem position_round_trip x y p :
  0 <= x < 16 -> 0 <= y < 16 -> 0 <= p < 256 ->
  (0 <= GAME_POSITION x y < 256
   /\ GET_X_POSITION (GAME_POSITION x y) = x
   /\ GET_Y_POSITION (GAME_POSITION x y) = y)
  /\ GAME_POSITION (GET_X_POSITION p) (GET_Y_POSITION p) = p
  /\ (x < FIELD_WIDTH -> GAME_POSITION x y <> INVALID_POSITION).
Proof.
  clear MAX_PROJECTILES MAX_ASTEROIDS random.
  intros Hx Hy Hp.
  assert (H : forall q, 0 <= q < 256 ->
            ((GAME_POSITION (q / 16) (q mod 16) =? q)
             && (GET_X_POSITION q =? q / 16) && (GET_Y_POSITION q =? q mod 16)) = true).
  { apply (forall_bytes (fun q =>
       (GAME_POSITION (q / 16) (q mod 16) =? q)
       && (GET_X_POSITION q =? q / 16) && (GET_Y_POSITION q =? q mod 16))).
    vm_compute. reflexivity. }
  pose proof (H (16 * x + y) ltac:(lia)) as Hq.
  replace ((16 * x + y) / 16) with x in Hq by (apply Z.div_unique with y; lia).
  replace ((16 * x + y) mod 16) with y in Hq by (apply Z.mod_unique with x; lia).
  apply andb_true_iff in Hq as [Hq Hq3]. apply andb_true_iff in Hq as [Hq1 Hq2].
  apply Z.eqb_eq in Hq1. rewrite Hq1.
  apply Z.eqb_eq in Hq2, Hq3.
  split; [split; [lia | split; lia]|].
  specialize (H p Hp).
  apply andb_true_iff in H as [H H3]. apply andb_true_iff in H as [H1 H2].
  apply Z.eqb_eq in H1, H2, H3. rewrite H2, H3.
  split; [exact H1|]. unfold FIELD_WIDTH, INVALID_POSITION. lia.
Qed.

(** ** Looking a cell up *)

(** The scanning loop returns -1 when no live entry holds the position, and
    otherwise the first index that does. *)
Lemma scan_index n a pos :
  fits n a ->
  let i := scan a pos (Z.to_nat n) 0 in
  (i = -1 /\ forall k, 0 <= k < n -> rd a k <> pos)
  \/ (0 <= i < n /\ rd a i = pos /\ forall k, 0 <= k < i -> rd a k <> pos).
Proof.
  intros Hf i. subst i.
  destruct (scan_live a n pos Hf) as [[Hout ->] | (l1 & l2 & Hl & Hl1 & ->)].
  - left. split; [reflexivity|]. intros k Hk Heq. apply Hout.
    pose proof Hf as (Hn & _).
    destruct (lookup_lt_is_Some_2 a (Z.to_nat k) ltac:(lia)) as [v Hv].
    unfold rd in Heq. rewrite Hv in Heq. cbn in Heq. subst v.
    apply list_elem_of_lookup. exists (Z.to_nat k).
    rewrite lookup_take_lt by lia. exact Hv.
  - right. destruct (rd_live n a l1 pos l2 Hf Hl) as (Hrd & _ & Hn & r & Ha).
    split; [lia|]. split; [exact Hrd|].
    intros k Hk Heq. apply Hl1.
    destruct (lookup_lt_is_Some_2 l1 (Z.to_nat k) ltac:(lia)) as [v Hv].
    unfold rd in Heq. rewrite Ha, (lookup_app_l_Some _ _ _ _ Hv) in Heq. cbn in Heq. subst v.
    apply list_elem_of_lookup. exists (Z.to_nat k). exact Hv.
Qed.

(** X2. [asteroid_at] and [projectile_at] return -1 when no live entry holds
    the cell asked for, and otherwise the index of the first live entry that
    does: the index is within the live range, the entry there is the packed
    cell and no entry before it is. *)
Theorem occupancy_first_index s x y :
  fits (numAsteroids s) (asteroids s) ->
  fits (numProjectiles s) (projectiles s) ->
  ((asteroid_at x y s = -1
    /\ forall k, 0 <= k < numAsteroids s -> rd (asteroids s) k <> packed x y)
   \/ (0 <= asteroid_at x y s < numAsteroids s
       /\ rd (asteroids s) (asteroid_at x y s) = packed x y
       /\ forall k, 0 <= k < asteroid_at x y s -> rd (asteroids s) k <> packed x y))
  /\ ((projectile_at x y s = -1
       /\ forall k, 0 <= k < numProjectiles s -> rd (projectiles s) k <> packed x y)
      \/ (0 <= projectile_at x y s < numProjectiles s
          /\ rd (projectiles s) (projectile_at x y s) = packed x y
          /\ forall k, 0 <= k < projectile_at x y s -> rd (projectiles s) k <> packed x y)).
Proof.
  intros Hfa Hfp. split.
  - exact (scan_index _ _ (packed x y) Hfa).
  - exact (scan_index _ _ (packed x y) Hfp).
Qed.

(** ** Removing what a lookup found *)

(** X3. [remove_asteroid (asteroid_at x y)] and
    [remove_projectile (projectile_at x y)] remove the first live entry at
    the cell, if there is one, and change nothing when there is none; when
    the live entries are pairwise distinct, a second lookup of the cell
    finds nothing. *)
Theorem remove_what_was_found s x y :
  fits (numAsteroids s) (asteroids s) ->
  fits (numProjectiles s) (projectiles s) ->
  let sa := remove_asteroid (asteroid_at x y s) s in
  let sp := remove_projectile (projectile_at x y s) s in
  (live_asteroids sa = remove_first (packed x y) (live_asteroids s)
   /\ ((packed x y ∉ live_asteroids s) -> sa = s)
   /\ (packed x y ∈ live_asteroids s -> numAsteroids sa = numAsteroids s - 1)
   /\ (NoDup (live_asteroids s) -> asteroid_at x y sa = -1))
  /\ (live_projectiles sp = remove_first (packed x y) (live_projectiles s)
      /\ ((packed x y ∉ live_projectiles s) -> sp = s)
      /\ (packed x y ∈ live_projectiles s -> numProjectiles sp = numProjectiles s - 1)
      /\ (NoDup (live_projectiles s) -> projectile_at x y sp = -1)).
Proof.
  intros Hfa Hfp sa sp. split.
  - subst sa. destruct (asteroid_at_spec x y s Hfa) as [[Hout Hi] | (l1 & l2 & Hl & Hl1 & Hi)];
      rewrite Hi.
    + rewrite (remove_asteroid_out (-1) s) by (left; reflexivity).
      split_and!.
      * rewrite remove_first_absent by exact Hout. reflexivity.
      * reflexivity.
      * intros Hin. contradiction.
      * intros _. exact Hi.
    + destruct (remove_asteroid_in s l1 _ l2 _ Hfa Hl eq_refl) as (a' & t & Hg & ->).
      destruct (closed_gap_fits _ _ _ _ _ _ Hfa Hl Hg) as (Hf' & Hlive' & _).
      assert (Hlive : live_asteroids (with_asteroids (numAsteroids s - 1) a' t s) = l1 ++ l2)
        by exact Hlive'.
      split_and!.
      * rewrite Hlive, Hl. symmetry. apply remove_first_split, Hl1.
      * intros Hout. exfalso. apply Hout. rewrite Hl. apply elem_of_app. right. left.
      * intros _. reflexivity.
      * intros Hnd. rewrite Hl in Hnd. apply NoDup_app in Hnd as (_ & Hdis & Hnd2).
        apply NoDup_cons in Hnd2 as [Hl2 _].
        pose proof (asteroid_at_free x y (with_asteroids (numAsteroids s - 1) a' t s) Hf') as Hq.
        rewrite Hlive in Hq. rewrite bool_decide_eq_false_2 in Hq.
        -- apply Z.eqb_eq in Hq. exact Hq.
        -- intros Hin. apply elem_of_app in Hin as [Hin | Hin]; contradiction.
  - subst sp. destruct (projectile_at_spec x y s Hfp) as [[Hout Hi] | (l1 & l2 & Hl & Hl1 & Hi)];
      rewrite Hi.
    + rewrite (remove_projectile_out (-1) s) by (left; reflexivity).
      split_and!.
      * rewrite remove_first_absent by exact Hout. reflexivity.
      * reflexivity.
      * intros Hin. contradiction.
      * intros _. exact Hi.
    + destruct (remove_projectile_in s l1 _ l2 _ Hfp Hl eq_refl) as (a' & t & Hg & ->).
      destruct (closed_gap_fits _ _ _ _ _ _ Hfp Hl Hg) as (Hf' & Hlive' & _).
      assert (Hlive : live_projectiles (with_projectiles (numProjectiles s - 1) a' t s) = l1 ++ l2)
        by exact Hlive'.
      split_and!.
      * rewrite Hlive, Hl. symmetry. apply remove_first_split, Hl1.
      * intros Hout. exfalso. apply Hout. rewrite Hl. apply elem_of_app. right. left.
      * intros _. reflexivity.
      * intros Hnd. rewrite Hl in Hnd. apply NoDup_app in Hnd as (_ & Hdis & Hnd2).
        apply NoDup_cons in Hnd2 as [Hl2 _].
        pose proof (projectile_at_free x y (with_projectiles (numProjectiles s - 1) a' t s) Hf') as Hq.
        rewrite Hlive in Hq. rewrite bool_decide_eq_false_2 in Hq.
        -- apply Z.eqb_eq in Hq. exact Hq.
        -- intros Hin. apply elem_of_app in Hin as [Hin | Hin]; contradiction.
Qed.

(** ** A hit between a projectile and an asteroid *)

(** [remove_projectile], seen through the live prefix, for any int8_t
    index. *)
Lemma remove_projectile_view s i :
  fits (numProjectiles s) (projectiles s) -> -128 <= i < 128 ->
  exists n' a' t,
    remove_projectile i s = with_projectiles n' a' t s
    /\ fits n' a' /\ length a' = length (projectiles s)
    /\ n' = (if decide (0 <= i < numProjectiles s) then numProjectiles s - 1
             else numProjectiles s)
    /\ take (Z.to_nat n') a'
       = (if decide (0 <= i < numProjectiles s)
          then delete (Z.to_nat i) (live_projectiles s) else live_projectiles s).
Proof.
  intros Hf Hi. destruct (decide (0 <= i < numProjectiles s)) as [Hin | Hout].
  - pose proof (live_length _ _ Hf) as Hn.
    destruct (live_middle (live_projectiles s) i ltac:(unfold live_projectiles; lia))
      as (x & Hl & Hl1).
    destruct (remove_projectile_in s _ x _ i Hf Hl ltac:(lia)) as (a' & t & Hg & ->).
    destruct (closed_gap_fits _ _ _ _ _ _ Hf Hl Hg) as (Hf' & Hlive' & Hlen).
    exists (numProjectiles s - 1), a', t.
    split_and!; try reflexivity; try assumption.
    rewrite Hlive'. symmetry. apply delete_take_drop.
  - rewrite remove_projectile_out by (rewrite to_int8_small by lia; lia).
    exists (numProjectiles s), (projectiles s), (trace s).
    split_and!; try reflexivity; try assumption. destruct s; reflexivity.
Qed.

Lemma remove_asteroid_view s i :
  fits (numAsteroids s) (asteroids s) -> -128 <= i < 128 ->
  exists n' a' t,
    remove_asteroid i s = with_asteroids n' a' t s
    /\ fits n' a' /\ length a' = length (asteroids s)
    /\ n' = (if decide (0 <= i < numAsteroids s) then numAsteroids s - 1
             else numAsteroids s)
    /\ take (Z.to_nat n') a'
       = (if decide (0 <= i < numAsteroids s)
          then delete (Z.to_nat i) (live_asteroids s) else live_asteroids s).
Proof.
  intros Hf Hi. destruct (decide (0 <= i < numAsteroids s)) as [Hin | Hout].
  - pose proof (live_length _ _ Hf) as Hn.
    destruct (live_middle (live_asteroids s) i ltac:(unfold live_asteroids; lia))
      as (x & Hl & Hl1).
    destruct (remove_asteroid_in s _ x _ i Hf Hl ltac:(lia)) as (a' & t & Hg & ->).
    destruct (closed_gap_fits _ _ _ _ _ _ Hf Hl Hg) as (Hf' & Hlive' & Hlen).
    exists (numAsteroids s - 1), a', t.
    split_and!; try reflexivity; try assumption.
    rewrite Hlive'. symmetry. apply delete_take_drop.
  - rewrite remove_asteroid_out by (rewrite to_int8_small by lia; lia).
    exists (numAsteroids s), (asteroids s), (trace s).
    split_and!; try reflexivity; try assumption. destruct s; reflexivity.
Qed.

(** X4. [check_asteroid_hit] does nothing and returns 0 when either index
    is -1.  With any other pair of int8_t indices it returns 1, adds one to
    the score and removes the projectile and the asteroid of those numbers;
    an index that is neither -1 nor live is not turned away: the other
    entity is still removed and the score still goes up.  The lives, the
    base and the count of random() calls are left alone. *)
Theorem check_asteroid_hit_cases s p a :
  fits (numProjectiles s) (projectiles s) ->
  fits (numAsteroids s) (asteroids s) ->
  -128 <= p < 128 -> -128 <= a < 128 ->
  (p = -1 \/ a = -1 -> check_asteroid_hit p a s = (s, 0))
  /\ (p <> -1 -> a <> -1 ->
        let s' := fst (check_asteroid_hit p a s) in
        snd (check_asteroid_hit p a s) = 1
        /\ score s' = score s + 1
        /\ lives s' = lives s
        /\ basePosition s' = basePosition s
        /\ rand_calls s' = rand_calls s
        /\ live_projectiles s'
           = (if decide (0 <= p < numProjectiles s)
              then delete (Z.to_nat p) (live_projectiles s) else live_projectiles s)
        /\ live_asteroids s'
           = (if decide (0 <= a < numAsteroids s)
              then delete (Z.to_nat a) (live_asteroids s) else live_asteroids s)).
Proof.
  intros Hfp Hfa Hp Ha. split.
  - intros H. apply check_asteroid_hit_miss. rewrite !to_int8_small by lia. exact H.
  - intros Hp1 Ha1. unfold check_asteroid_hit. rewrite !to_int8_small by lia.
    destruct (Z.eqb_spec p (-1)); [contradiction|].
    destruct (Z.eqb_spec a (-1)); [contradiction|]. cbn [orb fst snd].
    destruct (remove_projectile_view s p Hfp Hp) as (np & ps & t1 & -> & _ & _ & _ & Hlp).
    destruct (remove_asteroid_view (with_projectiles np ps t1 s) a Hfa Ha)
      as (na & az & t2 & -> & _ & _ & _ & Hla).
    unfold live_projectiles, live_asteroids in *. simpl_state.
    split_and!; try reflexivity; assumption.
Qed.

(** ** The insertion sort is stable *)

Lemma row_app y l1 l2 : row y (l1 ++ l2) = row y l1 ++ row y l2.
Proof. apply filter_app. Qed.

Lemma row_above y l :
  Forall (fun p => y < GET_Y_POSITION p) l -> row y l = [].
Proof.
  induction 1 as [|p l Hp _ IH]; [reflexivity|].
  unfold row in *. rewrite filter_cons_False by lia. exact IH.
Qed.

(** Inserting [x] after the part [l] keeps, within every row, the order the
    entries had. *)
Lemma sort_insert_rows l x rest :
  Z.of_nat (length l) <= 255 ->
  exists l', sort_insert (Z.of_nat (length l)) (l ++ x :: rest) = l' ++ rest
             /\ length l' = S (length l)
             /\ forall y, row y l' = row y (l ++ [x]).
Proof.
  intros Hlen. unfold sort_insert.
  rewrite (rd_app_middle l x rest) by reflexivity. rewrite Nat2Z.id.
  destruct (sort_shift_spec x l x rest Hlen) as (l1a & l1b & h' & Hl & -> & Hb & _).
  rewrite (wr_app_middle l1a h' (l1b ++ rest)) by reflexivity.
  exists (l1a ++ x :: l1b). split; [rewrite <- app_assoc; reflexivity|].
  subst l. split; [rewrite !length_app; cbn [length]; lia|].
  intros y. rewrite !row_app, <- app_assoc. f_equal.
  destruct (decide (GET_Y_POSITION x = y)) as [Hy | Hy].
  - assert (Hnone : row y l1b = []) by (apply row_above; rewrite <- Hy; exact Hb).
    unfold row in *. rewrite !filter_cons_True by exact Hy. rewrite Hnone. reflexivity.
  - unfold row. rewrite !filter_cons_False by exact Hy.
    rewrite filter_nil, app_nil_r. reflexivity.
Qed.

Lemma sort_loop_rows todo : forall l rest,
  Z.of_nat (length l + length todo) <= 255 ->
  exists l', for_loop (length todo) (Z.of_nat (length l)) sort_insert (l ++ todo ++ rest)
             = l' ++ rest
             /\ length l' = (length l + length todo)%nat
             /\ forall y, row y l' = row y (l ++ todo).
Proof.
  induction todo as [|x todo IH]; intros l rest Hlen.
  - exists l. rewrite app_nil_r. split; [reflexivity|]. split; [cbn [length]; lia | reflexivity].
  - cbn [length for_loop]. cbn [length] in Hlen.
    destruct (sort_insert_rows l x (todo ++ rest) ltac:(lia)) as (l1 & Hi & Hl1 & Hr1).
    cbn [app]. rewrite Hi.
    destruct (IH l1 rest ltac:(lia)) as (l' & Hl' & Hlen' & Hr').
    exists l'. split.
    + rewrite <- Hl'. f_equal. rewrite Hl1. lia.
    + split; [lia|]. intros y. rewrite Hr', row_app, Hr1, row_app, <- app_assoc.
      rewrite row_app. f_equal. symmetry. exact (row_app y [x] todo).
Qed.

(** X5. [sort_asteroids] leaves the live asteroids sorted by row, lowest
    row first, with the same asteroids as before, and it is stable: within
    each row the asteroids keep the order they had.  It changes nothing but
    the asteroid array: the counts, the projectiles, the score, the lives
    and the display are as they were. *)
Theorem sort_asteroids_stable s :
  fits (numAsteroids s) (asteroids s) ->
  exists a',
    sort_asteroids s = set_asteroids a' s
    /\ length a' = length (asteroids s)
    /\ sorted_by_y (live_asteroids (sort_asteroids s))
    /\ live_asteroids (sort_asteroids s) ≡ₚ live_asteroids s
    /\ forall y, row y (live_asteroids (sort_asteroids s)) = row y (live_asteroids s).
Proof.
  intros Hf. destruct (sort_asteroids_spec s Hf) as (a' & Hs & Hf' & Hlen & Hsorted & Hperm).
  exists a'. rewrite Hs.
  change (live_asteroids (set_asteroids a' s)) with (take (Z.to_nat (numAsteroids s)) a').
  split_and!; try assumption; try reflexivity.
  intros y.
  assert (Hs' : set_asteroids a' s
                = for_range 1 (numAsteroids s)
                    (fun i s => set_asteroids (sort_insert i (asteroids s)) s) s)
    by (symmetry; exact Hs).
  unfold for_range in Hs'. rewrite for_loop_set_asteroids in Hs'.
  assert (Ha' : a' = for_loop (Z.to_nat (numAsteroids s - 1)) 1 sort_insert (asteroids s)).
  { unfold set_asteroids in Hs'. injection Hs' as Hs'. exact Hs'. }
  destruct (live_split _ _ _ Hf eq_refl) as (r & Ha & Hn).
  pose proof Hf as (Hn0 & Hcap & Hb).
  fold (live_asteroids s) in Ha, Hn.
  destruct (live_asteroids s) as [|x l] eqn:El.
  - cbn [length] in Hn. replace (Z.to_nat (numAsteroids s)) with O by lia. reflexivity.
  - cbn [length] in Hn.
    destruct (sort_loop_rows l [x] r) as (l' & Hl' & Hlen' & Hr').
    { cbn [length]. rewrite Ha, length_app in Hcap. cbn [length] in Hcap. lia. }
    replace (Z.to_nat (numAsteroids s - 1)) with (length l) in Ha' by lia.
    cbn [length] in Hl'. change (Z.of_nat 1) with 1 in Hl'.
    rewrite Ha in Ha'. cbn [app] in Hl', Ha'. rewrite Hl' in Ha'.
    rewrite Ha', take_live by (cbn [length] in Hlen'; lia).
    rewrite Hr'. reflexivity.
Qed.

(** ** What each call does to the score, the lives and random()

    The lemmas of this part hold of every state, well formed or not. *)

Ltac simpl_scalars := unfold add_to_score, change_lives in *; simpl_state.

Lemma effect_refl s : effect 0 0 0 s s.
Proof. unfold effect. split_and!; try reflexivity; lia. Qed.

Lemma effect_trans a b c a' b' c' s1 s2 s3 :
  effect a b c s1 s2 -> effect a' b' c' s2 s3 -> effect (a + a') (b + b') (c + c') s1 s3.
Proof.
  clear MAX_PROJECTILES MAX_ASTEROIDS random.
  unfold effect. intros (H1 & H2 & H3 & H4 & H5) (G1 & G2 & G3 & G4 & G5).
  split_and!; try congruence; lia.
Qed.

Lemma effect_draws_only f s : draws_only f -> effect 0 0 0 s (f s).
Proof.
  intros Hf. destruct (Hf s) as [t ->]. unfold effect. simpl_scalars.
  split_and!; try reflexivity; lia.
Qed.

Lemma effect_remove_asteroid i s : effect 0 0 0 s (remove_asteroid i s).
Proof.
  unfold remove_asteroid. cbv zeta. destruct (_ || _); [apply effect_refl|].
  destruct (draws_only_redraw_asteroid (to_int8 i) COLOUR_BLACK s) as [t ->].
  unfold for_range. rewrite for_loop_set_asteroids.
  unfold effect. simpl_scalars. split_and!; try reflexivity; lia.
Qed.

Lemma effect_remove_projectile i s : effect 0 0 0 s (remove_projectile i s).
Proof.
  unfold remove_projectile. cbv zeta. destruct (_ || _); [apply effect_refl|].
  destruct (draws_only_redraw_projectile (to_int8 i) COLOUR_BLACK s) as [t ->].
  unfold for_range. rewrite for_loop_set_projectiles.
  unfold effect. simpl_scalars. split_and!; try reflexivity; lia.
Qed.

Lemma effect_check_asteroid_hit p a s :
  effect (snd (check_asteroid_hit p a s)) 0 0 s (fst (check_asteroid_hit p a s))
  /\ (snd (check_asteroid_hit p a s) = 0 \/ snd (check_asteroid_hit p a s) = 1).
Proof.
  unfold check_asteroid_hit. cbv zeta. destruct (_ || _); cbn [fst snd].
  - split; [apply effect_refl | left; reflexivity].
  - split; [|right; reflexivity].
    pose proof (effect_remove_projectile (to_int8 p) s) as H1.
    pose proof (effect_remove_asteroid (to_int8 a) (remove_projectile (to_int8 p) s)) as H2.
    pose proof (effect_trans _ _ _ _ _ _ _ _ _ H1 H2) as H.
    revert H. generalize (remove_asteroid (to_int8 a) (remove_projectile (to_int8 p) s)).
    intros s2. unfold effect. simpl_scalars. intros (? & ? & ? & ? & ?).
    split_and!; try assumption; lia.
Qed.

Lemma effect_check_base_hit x y s :
  effect 0 (snd (check_base_hit x y s)) 0 s (fst (check_base_hit x y s))
  /\ (snd (check_base_hit x y s) = 0 \/ snd (check_base_hit x y s) = 1).
Proof.
  unfold check_base_hit. cbv zeta. destruct (_ =? _); cbn [fst snd].
  - split; [|left; reflexivity]. unfold effect. split_and!; try reflexivity; lia.
  - split; [|right; reflexivity].
    pose proof (effect_remove_asteroid (asteroid_at (to_int8 x) (to_int8 y) s) s) as H.
    revert H. generalize (remove_asteroid (asteroid_at (to_int8 x) (to_int8 y) s) s).
    intros s2. unfold effect. simpl_scalars. intros (? & ? & ? & ? & ?).
    split_and!; try assumption; lia.
Qed.

Lemma effect_check_all_base_hits s :
  exists k, 0 <= k <= 4 /\ effect 0 k 0 s (check_all_base_hits s).
Proof.
  unfold check_all_base_hits. cbv zeta.
  set (s1 := fst (check_base_hit (basePosition s) 1 s)).
  set (s2 := fst (check_base_hit (basePosition s1 - 1) 0 s1)).
  set (s3 := fst (check_base_hit (basePosition s2) 0 s2)).
  destruct (effect_check_base_hit (basePosition s) 1 s) as [H1 R1].
  destruct (effect_check_base_hit (basePosition s1 - 1) 0 s1) as [H2 R2].
  destruct (effect_check_base_hit (basePosition s2) 0 s2) as [H3 R3].
  destruct (effect_check_base_hit (basePosition s3 + 1) 0 s3) as [H4 R4].
  fold s1 in H1. fold s2 in H2. fold s3 in H3.
  pose proof (effect_trans _ _ _ _ _ _ _ _ _ (effect_trans _ _ _ _ _ _ _ _ _
                (effect_trans _ _ _ _ _ _ _ _ _ H1 H2) H3) H4) as H.
  eexists. split; [|exact H]. lia.
Qed.

Lemma effect_spawn_loop fuel : forall r i attempts s,
  exists drand, effect 0 0 drand s (spawn_loop fuel r i attempts s).
Proof.
  induction fuel as [|fuel IH]; intros r i attempts s; cbn [spawn_loop]; cbv zeta.
  - exists O. apply effect_refl.
  - destruct (_ =? -1).
    + match goal with |- context [redraw_asteroid i COLOUR_ASTEROID ?s0] =>
        destruct (draws_only_redraw_asteroid i COLOUR_ASTEROID s0) as [t ->] end.
      exists 2%nat. unfold effect. simpl_scalars. split_and!; try reflexivity; lia.
    + destruct (_ <=? _).
      * match goal with |- context [spawn_loop fuel r i ?a ?s0] =>
          destruct (IH r i a s0) as [d Hd]; revert Hd; generalize (spawn_loop fuel r i a s0) end.
        intros s' Hd. exists (2 + d)%nat. revert Hd. unfold effect. simpl_scalars.
        intros (? & ? & ? & ? & ?). split_and!; try assumption; lia.
      * exists 2%nat. unfold effect. simpl_scalars. split_and!; try reflexivity; lia.
Qed.

Lemma effect_add_asteroid_in_rows r s :
  exists drand, effect 0 0 drand s (add_asteroid_in_rows r s).
Proof.
  unfold add_asteroid_in_rows. cbv zeta. destruct (_ =? _).
  - exists O. apply effect_refl.
  - apply effect_spawn_loop.
Qed.

Lemma effect_spawn_many r k : forall i s,
  exists drand, effect 0 0 drand s (for_loop k i (fun _ s => add_asteroid_in_rows r s) s).
Proof.
  induction k as [|k IH]; intros i s; cbn [for_loop].
  - exists O. apply effect_refl.
  - destruct (effect_add_asteroid_in_rows r s) as [d1 H1].
    destruct (IH (i + 1) (add_asteroid_in_rows r s)) as [d2 H2].
    exists (d1 + d2)%nat. exact (effect_trans _ _ _ _ _ _ _ _ _ H1 H2).
Qed.

Lemma effect_add_missing_asteroids s :
  exists drand, effect 0 0 drand s (add_missing_asteroids s).
Proof.
  unfold add_missing_asteroids, for_range. cbv zeta.
  destruct (effect_spawn_many (FIELD_HEIGHT - 1)
              (Z.to_nat (MAX_ASTEROIDS - to_uint8 (numAsteroids (emit s_invalidate_mode s))))
              (to_uint8 (numAsteroids (emit s_invalidate_mode s)))
              (emit s_invalidate_mode s)) as [d H].
  exists d. exact H.
Qed.

Lemma effect_advance_projectiles_body i s :
  exists k, 0 <= k <= 1 /\ effect k 0 0 s (fst (advance_projectiles_body i s)).
Proof.
  unfold advance_projectiles_body. cbv zeta. destruct (_ =? FIELD_HEIGHT); cbn [fst].
  - exists 0. split; [lia|]. apply effect_remove_projectile.
  - match goal with |- context [check_asteroid_hit i ?a s] =>
      destruct (effect_check_asteroid_hit i a s) as [H R];
      destruct (check_asteroid_hit i a s) as [s1 hit] end.
    cbn [fst snd] in *. exists hit. split; [lia|].
    destruct (negb (hit =? 0)); cbn [fst]; [exact H|].
    destruct (draws_only_redraw_projectile i COLOUR_BLACK s1) as [t1 ->].
    match goal with |- context [redraw_projectile i COLOUR_PROJECTILE ?s0] =>
      destruct (draws_only_redraw_projectile i COLOUR_PROJECTILE s0) as [t2 ->] end.
    revert H. unfold effect. simpl_scalars. tauto.
Qed.

Lemma effect_advance_projectiles_loop fuel : forall i s s',
  advance_projectiles_loop fuel i s = Some s' ->
  exists k, 0 <= k /\ effect k 0 0 s s'.
Proof.
  induction fuel as [|fuel IH]; intros i s s' Hrun; cbn [advance_projectiles_loop] in Hrun;
    [discriminate|].
  destruct (i <? numProjectiles s).
  - destruct (effect_advance_projectiles_body i s) as (k1 & Hk1 & H1).
    destruct (advance_projectiles_body i s) as [s1 i1]. cbn [fst] in H1.
    destruct (IH i1 s1 s' Hrun) as (k2 & Hk2 & H2).
    exists (k1 + k2). split; [lia|].
    exact (effect_trans _ _ _ _ _ _ _ _ _ H1 H2).
  - injection Hrun as <-. exists 0. split; [lia|]. apply effect_refl.
Qed.

Lemma effect_advance_asteroids_body i s :
  exists k, 0 <= k <= 1 /\ effect k 0 0 s (fst (advance_asteroids_body i s)).
Proof.
  unfold advance_asteroids_body. cbv zeta.
  destruct (draws_only_redraw_asteroid i COLOUR_BLACK s) as [t0 E0].
  destruct (_ <? 0); cbn [fst].
  - exists 0. split; [lia|]. rewrite E0.
    pose proof (effect_remove_asteroid i (set_trace t0 s)) as H. revert H.
    unfold effect. simpl_scalars. tauto.
  - rewrite E0.
    match goal with |- context [check_asteroid_hit ?p i ?s0] =>
      destruct (effect_check_asteroid_hit p i s0) as [H R];
      destruct (check_asteroid_hit p i s0) as [s1 hit] end.
    cbn [fst snd] in *. exists hit. split; [lia|].
    destruct (negb (hit =? 0)); cbn [fst].
    + revert H. unfold effect. simpl_scalars. tauto.
    + match goal with |- context [redraw_asteroid i COLOUR_ASTEROID ?s0] =>
        destruct (draws_only_redraw_asteroid i COLOUR_ASTEROID s0) as [t2 ->] end.
      revert H. unfold effect. simpl_scalars. tauto.
Qed.

Lemma effect_advance_asteroids_loop fuel : forall i s s',
  advance_asteroids_loop fuel i s = Some s' ->
  exists k, 0 <= k /\ effect k 0 0 s s'.
Proof.
  induction fuel as [|fuel IH]; intros i s s' Hrun; cbn [advance_asteroids_loop] in Hrun;
    [discriminate|].
  destruct (i <? numAsteroids s).
  - destruct (effect_advance_asteroids_body i s) as (k1 & Hk1 & H1).
    destruct (advance_asteroids_body i s) as [s1 i1]. cbn [fst] in H1.
    destruct (IH i1 s1 s' Hrun) as (k2 & Hk2 & H2).
    exists (k1 + k2). split; [lia|].
    exact (effect_trans _ _ _ _ _ _ _ _ _ H1 H2).
  - injection Hrun as <-. exists 0. split; [lia|]. apply effect_refl.
Qed.

(** X6. From a well-formed state, whose counts are within the arrays
    and whose base position is a signed byte, no step that returns lowers
    the score or gives a life back, and none touches the pause flag.
    [move_base] leaves the score and random() alone and costs at most four
    lives; [fire_projectile] leaves the base, the lives and random() alone
    and scores at most one point; [advance_projectiles] leaves the base and
    the lives alone; [advance_asteroids] leaves the base alone and costs at
    most four lives. *)
Theorem steps_on_score_and_lives s :
  wf s -> -128 <= basePosition s < 128 ->
  (forall fuel direction s' moved, move_base fuel direction s = Some (s', moved) ->
     paused s' = paused s /\ score s' = score s /\ rand_calls s' = rand_calls s
     /\ lives s - 4 <= lives s' <= lives s)
  /\ (let s' := fst (fire_projectile s) in
      paused s' = paused s /\ basePosition s' = basePosition s
      /\ lives s' = lives s /\ rand_calls s' = rand_calls s
      /\ score s <= score s' <= score s + 1)
  /\ (forall fuel s', advance_projectiles fuel s = Some s' ->
        paused s' = paused s /\ basePosition s' = basePosition s
        /\ lives s' = lives s /\ score s <= score s'
        /\ (rand_calls s <= rand_calls s')%nat)
  /\ (forall fuel s', advance_asteroids fuel s = Some s' ->
        paused s' = paused s /\ basePosition s' = basePosition s
        /\ lives s - 4 <= lives s' <= lives s /\ score s <= score s'
        /\ (rand_calls s <= rand_calls s')%nat).
Proof.
  intros _ _. split_and!.
  - intros fuel direction s' moved Hmove. apply move_base_view in Hmove.
    destruct (_ || _).
    { destruct Hmove as [-> _]. split_and!; try reflexivity; lia. }
    destruct Hmove as (_ & t1 & t2 & ->).
    match goal with |- context [check_all_base_hits ?s0] =>
      destruct (effect_check_all_base_hits s0) as (k & Hk & H); revert H;
      generalize (check_all_base_hits s0) end.
    intros s2 H.
    revert H. unfold effect. simpl_scalars. intros (? & ? & ? & ? & ?).
    split_and!; try assumption; lia.
  - unfold fire_projectile. cbv zeta. destruct (_ && _); cbn [fst].
    2:{ split_and!; try reflexivity; lia. }
    match goal with |- context [check_asteroid_hit ?p ?a ?s0] =>
      destruct (effect_check_asteroid_hit p a s0) as [H R];
      destruct (check_asteroid_hit p a s0) as [s1 hit] end.
    cbn [fst snd] in *.
    assert (Hd : exists t, (if hit =? -1 then s1
                            else redraw_projectile (to_uint8 (numProjectiles (emit new_frame s)))
                                   COLOUR_PROJECTILE s1) = set_trace t s1).
    { destruct (hit =? -1); [exists (trace s1); destruct s1; reflexivity|].
      apply draws_only_redraw_projectile. }
    destruct Hd as [t ->]. cbn [fst].
    revert H. unfold effect. simpl_scalars. intros (? & ? & ? & ? & ?).
    split_and!; try assumption; lia.
  - intros fuel s' Hrun. unfold advance_projectiles in Hrun. cbv zeta in Hrun.
    destruct (advance_projectiles_loop fuel 0 _) as [s1|] eqn:Hloop; [|discriminate].
    injection Hrun as <-.
    destruct (effect_advance_projectiles_loop _ _ _ _ Hloop) as (k & Hk & H1).
    destruct (effect_add_missing_asteroids s1) as (d & H2).
    revert H1 H2. generalize (add_missing_asteroids s1). intros s2.
    unfold effect. simpl_scalars. intros (? & ? & ? & ? & ?) (? & ? & ? & ? & ?).
    split_and!; try congruence; lia.
  - intros fuel s' Hrun. destruct (advance_asteroids_view _ _ _ Hrun) as (s1 & t & Hloop & ->).
    destruct (effect_advance_asteroids_loop _ _ _ _ Hloop) as (k & Hk & H1).
    destruct (effect_check_all_base_hits s1) as (k2 & Hk2 & H2).
    destruct (effect_add_missing_asteroids (check_all_base_hits s1)) as (d & H3).
    revert H1 H2 H3. generalize (add_missing_asteroids (check_all_base_hits s1)).
    generalize (check_all_base_hits s1). intros s2 s3.
    unfold effect. simpl_scalars.
    intros (? & ? & ? & ? & ?) (? & ? & ? & ? & ?) (? & ? & ? & ? & ?).
    split_and!; try congruence; lia.
Qed.

(** ** A new game *)

(** What [initialise_game] leaves behind: the scalars, and asteroids that
    were all sampled for the rows 3 and up. *)
Lemma initialise_game_view fuel s0 s :
  memory_ok s0 -> initialise_game fuel s0 = Some s ->
  basePosition s = 3 /\ numProjectiles s = 0 /\ paused s = 0
  /\ score s = score s0 /\ lives s = lives s0
  /\ 0 <= numAsteroids s <= MAX_ASTEROIDS
  /\ Forall (fun p => exists n, p = sample_cell 3 n) (live_asteroids s)
  /\ (numAsteroids s = MAX_ASTEROIDS \/ first_spawn_gives_up s0).
Proof.
  intros (Hfp & Hfa & Hlp & Hla) Hinit.
  destruct (initialise_game_shape _ _ _ Hinit) as [t ->]. clear Hinit.
  unfold first_spawn_gives_up, reset_game, for_range, add_asteroid.
  set (s1 := emit new_frame _).
  assert (Hfa1 : fits (numAsteroids s1) (asteroids s1)) by exact Hfa.
  assert (Hla1 : Z.of_nat (length (asteroids s1)) = MAX_ASTEROIDS) by exact Hla.
  destruct (effect_spawn_many 3 (Z.to_nat (MAX_ASTEROIDS - 0)) 0 s1) as (d & _ & Hpause & _).
  destruct (spawn_many 3 (Z.to_nat (MAX_ASTEROIDS - 0)) 0 s1 Hfa1 Hla1)
    as (Hf2 & Hl2 & Hnp2 & Hp2 & Hb2 & Hlv2 & Hsc2 & _ & extra & Hlive & Hn & Hk & _ & Hall & _).
  pose proof (spawn_calls_fill_or_give_up 3 (Z.to_nat (MAX_ASTEROIDS - 0)) 0 s1 Hfa1 Hla1)
    as Hend.
  set (s2 := for_loop _ 0 _ s1) in *.
  destruct (sort_asteroids_spec s2 Hf2) as (a' & -> & Hf3 & Hl3 & Hsorted & Hperm).
  change (live_asteroids (set_trace t (set_asteroids a' s2)))
    with (take (Z.to_nat (numAsteroids s2)) a').
  simpl_state. rewrite Hnp2, Hb2, Hpause, Hlv2, Hsc2.
  assert (Hlive1 : live_asteroids s1 = []) by reflexivity.
  rewrite Hlive1 in Hlive. cbn [app] in Hlive.
  assert (Hn1 : numAsteroids s1 = 0) by reflexivity. rewrite Hn1 in Hn, Hend.
  split_and!; try reflexivity.
  - lia.
  - destruct Hf2 as (Hn2 & _). lia.
  - rewrite Hperm, Hlive. exact Hall.
  - destruct Hend as [Hfull | [Hfull | Hgive]].
    + left. destruct Hf2 as (Hn2 & Hcap2 & _). lia.
    + left. exact Hfull.
    + right. exact Hgive.
Qed.

(** [initialise_game] returns: four rounds of fuel are enough for the loop
    of [redraw_base], the base being at column 3. *)
Lemma initialise_game_returns fuel s0 :
  memory_ok s0 -> (4 <= fuel)%nat -> exists s, initialise_game fuel s0 = Some s.
Proof.
  intros (Hfp & Hfa & Hlp & Hla) Hfuel. unfold initialise_game. cbv zeta.
  set (s1 := emit new_frame _).
  assert (Hfa1 : fits (numAsteroids s1) (asteroids s1)) by exact Hfa.
  assert (Hla1 : Z.of_nat (length (asteroids s1)) = MAX_ASTEROIDS) by exact Hla.
  unfold for_range, add_asteroid.
  destruct (spawn_many 3 (Z.to_nat (MAX_ASTEROIDS - 0)) 0 s1 Hfa1 Hla1)
    as (Hf2 & _ & _ & _ & Hb2 & _).
  set (s2 := for_loop _ 0 _ s1) in *.
  destruct (sort_asteroids_spec s2 Hf2) as (a' & -> & _).
  destruct (redraw_whole_display_returns fuel (set_asteroids a' s2)) as [t ->];
    [|exact Hfuel | eexists; reflexivity].
  change (-128 <= basePosition s2 < 126). rewrite Hb2. subst s1. simpl_state. lia.
Qed.

(** X7. From any memory with arrays of the declared sizes, and with a
    random() that returns no negative value, [initialise_game] returns and
    leaves the base at column 3, no projectile, the pause flag cleared and
    at most MAX_ASTEROIDS asteroids, each in a column of the field and in
    one of the rows 3 to 15.  The list is full unless one of the spawn
    searches of this call gave up: one of its calls of [add_asteroid], in
    the state the calls before it had left, found room in the list, made
    8*16 attempts at least, each on a cell that held an asteroid when it
    was sampled, and changed nothing but the count of random() calls.  The
    score and the lives are not reset: they are what the memory held. *)
Theorem initialise_game_fresh fuel s0 :
  memory_ok s0 -> (forall k, 0 <= random k) -> (4 <= fuel)%nat ->
  exists s,
    initialise_game fuel s0 = Some s
    /\ basePosition s = 3 /\ numProjectiles s = 0 /\ paused s = 0
    /\ score s = score s0 /\ lives s = lives s0
    /\ 0 <= numAsteroids s <= MAX_ASTEROIDS
    /\ Forall (fun p => 0 <= GET_X_POSITION p < FIELD_WIDTH
                        /\ 3 <= GET_Y_POSITION p < FIELD_HEIGHT) (live_asteroids s)
    /\ (numAsteroids s = MAX_ASTEROIDS \/ first_spawn_gives_up s0).
Proof.
  intros Hmem Hpos Hfuel.
  destruct (initialise_game_returns fuel s0 Hmem Hfuel) as [s Hinit]. exists s.
  destruct (initialise_game_view fuel s0 s Hmem Hinit)
    as (Hb & Hnp & Hpa & Hsc & Hlv & Hn & Hall & Hend).
  split_and!; try assumption; try lia.
  eapply Forall_impl; [exact Hall|].
  intros p [n ->]. cbv beta.
  assert (Hrow : 0 <= 3 < FIELD_HEIGHT) by (unfold FIELD_HEIGHT; lia).
  destruct (sample_in_range 3 n Hpos Hrow) as (Hx & Hy & -> & ->).
  lia.
Qed.

(** ** Nothing leaves the field *)

(** Moving a position up or down by one row keeps its column. *)
Lemma column_shift p :
  0 <= p < 256 ->
  (GET_Y_POSITION p + 1 < 16 -> GET_X_POSITION (p + 1) = GET_X_POSITION p)
  /\ (1 <= GET_Y_POSITION p -> GET_X_POSITION (p - 1) = GET_X_POSITION p).
Proof.
  clear MAX_PROJECTILES MAX_ASTEROIDS random.
  intros Hp.
  assert (H : forall q, 0 <= q < 256 ->
            ((negb (GET_Y_POSITION q + 1 <? 16) || (GET_X_POSITION (q + 1) =? GET_X_POSITION q))
             && (negb (1 <=? GET_Y_POSITION q) || (GET_X_POSITION (q - 1) =? GET_X_POSITION q)))
            = true).
  { apply (forall_bytes (fun q =>
       (negb (GET_Y_POSITION q + 1 <? 16) || (GET_X_POSITION (q + 1) =? GET_X_POSITION q))
       && (negb (1 <=? GET_Y_POSITION q) || (GET_X_POSITION (q - 1) =? GET_X_POSITION q)))).
    vm_compute. reflexivity. }
  specialize (H p Hp). apply andb_true_iff in H as [H1 H2]. split.
  - intros Hy. destruct (Z.ltb_spec (GET_Y_POSITION p + 1) 16); [|lia].
    cbn [negb orb] in H1. apply Z.eqb_eq in H1. exact H1.
  - intros Hy. destruct (Z.leb_spec 1 (GET_Y_POSITION p)); [|lia].
    cbn [negb orb] in H2. apply Z.eqb_eq in H2. exact H2.
Qed.

Lemma Forall_sublist_of (P : Z -> Prop) (l l' : list Z) :
  l' `sublist_of` l -> Forall P l -> Forall P l'.
Proof.
  intros Hsub Hb. rewrite Forall_forall in *. intros x Hx. apply Hb.
  eapply sublist_subseteq; eassumption.
Qed.

Lemma in_field_draws_only f s : draws_only f -> in_field s -> in_field (f s).
Proof. intros Hf Hs. destruct (Hf s) as [t ->]. exact Hs. Qed.

Lemma in_field_projectile_loop fuel s s' :
  invariant s -> in_field s -> advance_projectiles_loop fuel 0 s = Some s' -> in_field s'.
Proof.
  intros ((Hfp & Hfa & _) & _) [Ha Hp] Hloop.
  destruct (advance_projectiles_loop_result fuel s s' Hfp Hfa Hloop)
    as (_ & _ & _ & _ & _ & _ & _ & Hsub & todo' & Hlive & Hsub' & Hrows).
  split; [exact (Forall_sublist_of _ _ _ Hsub Ha)|].
  rewrite Hlive. apply Forall_map.
  pose proof (Forall_sublist_of _ _ _ Hsub' (live_bytes _ _ Hfp)) as Hbytes.
  pose proof (Forall_sublist_of _ _ _ Hsub' Hp) as Hin.
  rewrite Forall_forall in *. intros p Hpin. cbv beta.
  destruct (position_up p (Hbytes p Hpin) (Hrows p Hpin)) as [_ ->].
  destruct (column_shift p (Hbytes p Hpin)) as [Hup _]. rewrite (Hup (Hrows p Hpin)).
  destruct (Hin p Hpin). lia.
Qed.

Lemma in_field_asteroid_loop fuel s s' :
  invariant s -> in_field s -> advance_asteroids_loop fuel 0 s = Some s' -> in_field s'.
Proof.
  intros ((Hfp & Hfa & _) & _) [Ha Hp] Hloop.
  destruct (advance_asteroids_loop_result fuel s s' Hfp Hfa Hloop)
    as (_ & _ & _ & _ & _ & _ & _ & Hsub & todo' & Hlive & Hsub' & Hrows).
  split; [|exact (Forall_sublist_of _ _ _ Hsub Hp)].
  rewrite Hlive. apply Forall_map.
  pose proof (Forall_sublist_of _ _ _ Hsub' (live_bytes _ _ Hfa)) as Hbytes.
  pose proof (Forall_sublist_of _ _ _ Hsub' Ha) as Hin.
  rewrite Forall_forall in *. intros p Hpin. cbv beta.
  destruct (column_shift p (Hbytes p Hpin)) as [_ Hdown]. rewrite (Hdown (Hrows p Hpin)).
  exact (Hin p Hpin).
Qed.

Lemma in_field_check_all_base_hits s :
  invariant s -> in_field s -> in_field (check_all_base_hits s).
Proof.
  intros ((Hfp & Hfa & Hlp & Hla) & Hbase & _) [Ha Hp].
  unfold FIELD_WIDTH in Hbase.
  destruct (check_all_base_hits_spec s Hfa ltac:(lia)) as (as' & t & -> & Hf' & Hlive & Hlen).
  assert (Hsub : take (Z.to_nat (numAsteroids s - base_hits s)) as' `sublist_of` live_asteroids s).
  { rewrite Hlive. repeat (etrans; [apply remove_first_sublist|]). reflexivity. }
  split; [|exact Hp].
  exact (Forall_sublist_of _ _ _ Hsub Ha).
Qed.

Lemma in_field_add_missing_asteroids s :
  (forall k, 0 <= random k) ->
  invariant s -> in_field s -> in_field (add_missing_asteroids s).
Proof.
  intros Hpos ((Hfp & Hfa & Hlp & Hla) & _) [Ha Hp].
  unfold add_missing_asteroids, for_range. cbv zeta.
  destruct (spawn_many (FIELD_HEIGHT - 1)
              (Z.to_nat (MAX_ASTEROIDS - to_uint8 (numAsteroids (emit s_invalidate_mode s))))
              (to_uint8 (numAsteroids (emit s_invalidate_mode s)))
              (emit s_invalidate_mode s) Hfa Hla)
    as (_ & _ & Hnp' & Hp' & _ & _ & _ & _ & extra & Hlive & _ & _ & _ & Hall & _).
  split.
  - rewrite Hlive. apply Forall_app. split; [exact Ha|].
    eapply Forall_impl; [exact Hall|]. intros p [n ->]. cbv beta.
    destruct (sample_in_range (to_uint8 (FIELD_HEIGHT - 1)) n Hpos
                ltac:(vm_compute; split; [discriminate | reflexivity]))
      as (Hx & _ & -> & _).
    lia.
  - unfold live_projectiles. rewrite Hnp', Hp'. exact Hp.
Qed.

Lemma in_field_advance_projectiles fuel s s' :
  (forall k, 0 <= random k) ->
  invariant s -> in_field s -> advance_projectiles fuel s = Some s' -> in_field s'.
Proof.
  intros Hpos Hs Hin H. unfold advance_projectiles in H.
  destruct (advance_projectiles_loop fuel 0 _) as [s1|] eqn:Hloop; [|discriminate].
  inversion H; subst s'. apply (in_field_draws_only (emit draw_frame)); [apply draws_only_emit|].
  apply in_field_add_missing_asteroids; [exact Hpos| |].
  - exact (invariant_projectile_loop fuel (emit s_invalidate_mode (emit new_frame s)) s1 Hs Hloop).
  - exact (in_field_projectile_loop fuel (emit s_invalidate_mode (emit new_frame s)) s1
             Hs Hin Hloop).
Qed.

Lemma in_field_advance_asteroids fuel s s' :
  (forall k, 0 <= random k) ->
  invariant s -> in_field s -> advance_asteroids fuel s = Some s' -> in_field s'.
Proof.
  intros Hpos Hs Hin H. destruct (advance_asteroids_view _ _ _ H) as (s1 & t & Hloop & ->).
  change (in_field (add_missing_asteroids (check_all_base_hits s1))).
  pose proof (invariant_asteroid_loop fuel
           (emit s_invalidate_mode (emit set_display_attribute_TERM_RESET (emit new_frame s)))
           s1 Hs Hloop) as Hs1.
  pose proof (in_field_asteroid_loop fuel
           (emit s_invalidate_mode (emit set_display_attribute_TERM_RESET (emit new_frame s)))
           s1 Hs Hin Hloop) as Hin1.
  apply in_field_add_missing_asteroids; [exact Hpos| |].
  - apply invariant_check_all_base_hits, Hs1.
  - apply in_field_check_all_base_hits; assumption.
Qed.

Lemma in_field_move_base fuel direction s s' moved :
  direction = MOVE_LEFT \/ direction = MOVE_RIGHT ->
  invariant s -> in_field s -> move_base fuel direction s = Some (s', moved) -> in_field s'.
Proof.
  intros Hd Hs Hin Hmove. apply move_base_view in Hmove.
  destruct (_ || _); [destruct Hmove as [-> _]; exact Hin|].
  destruct Hmove as (_ & t1 & t2 & ->).
  match goal with |- in_field (set_trace _ ?st) => change (in_field st) end.
  match goal with |- in_field (check_all_base_hits ?s0) => set (s1 := s0) in * end.
  assert (Hin1 : in_field s1) by exact Hin.
  destruct Hs as ((Hfp & Hfa & Hlp & Hla) & Hbase & _).
  destruct Hin1 as [Ha Hp].
  assert (Hf1 : fits (numAsteroids s1) (asteroids s1)) by exact Hfa.
  assert (Hb1 : -128 <= basePosition s1 < 128) by (subst s1; simpl_state; apply to_int8_range).
  destruct (check_all_base_hits_spec s1 Hf1 Hb1) as (as' & t' & -> & Hf' & Hlive & Hlen).
  split.
  - assert (Hsub : take (Z.to_nat (numAsteroids s1 - base_hits s1)) as'
                     `sublist_of` live_asteroids s1).
    { rewrite Hlive. repeat (etrans; [apply remove_first_sublist|]). reflexivity. }
    exact (Forall_sublist_of _ _ _ Hsub Ha).
  - exact Hp.
Qed.

Lemma in_field_fire_projectile s :
  invariant s -> in_field s -> in_field (fst (fire_projectile s)).
Proof.
  intros Hs Hin. pose proof Hs as ((Hfp & Hfa & Hlp & Hla) & Hbase & _).
  destruct Hin as [Ha Hp]. unfold FIELD_WIDTH in Hbase.
  destruct (Z.ltb_spec (numProjectiles s) MAX_PROJECTILES) as [Hroom | Hfull].
  - destruct (decide (packed (basePosition s) 2 ∈ live_projectiles s)) as [Hocc | Hfree].
    + rewrite fire_projectile_reject by (try assumption; right; exact Hocc). split; assumption.
    + destruct (fire_projectile_accept s Hfp Hfa Hlp ltac:(lia) Hroom Hfree)
        as (s' & -> & _ & _ & _ & _ & _ & _ & _ & Hcase).
      cbn [fst].
      destruct Hcase as [(Hc & Hlp' & _ & Hla' & _) | (al1 & al2 & Hal & Hc & Hlp' & _ & Hla' & _)].
      * split; [rewrite Hla'; exact Ha|]. rewrite Hlp'. apply Forall_app. split; [exact Hp|].
        constructor; [|constructor].
        rewrite <- spawn_cell_packed by lia.
        assert (H : forall b, 0 <= b < 256 ->
                  (negb (b <? 8)
                   || ((GET_X_POSITION (to_uint8 (GAME_POSITION b 2)) =? b)
                       && (GET_Y_POSITION (to_uint8 (GAME_POSITION b 2)) =? 2))) = true).
        { apply (forall_bytes (fun b =>
             negb (b <? 8)
             || ((GET_X_POSITION (to_uint8 (GAME_POSITION b 2)) =? b)
                 && (GET_Y_POSITION (to_uint8 (GAME_POSITION b 2)) =? 2)))).
          vm_compute. reflexivity. }
        specialize (H (basePosition s) ltac:(lia)).
        destruct (Z.ltb_spec (basePosition s) 8); [|lia]. cbn [negb orb] in H.
        apply andb_true_iff in H as [H1 H2]. apply Z.eqb_eq in H1, H2.
        rewrite H1, H2. unfold FIELD_WIDTH. lia.
      * split; [|rewrite Hlp'; exact Hp]. rewrite Hla'.
        assert (Hsub : al1 ++ al2 `sublist_of` live_asteroids s).
        { rewrite Hal. apply sublist_app_middle. }
        exact (Forall_sublist_of _ _ _ Hsub Ha).
  - rewrite fire_projectile_reject by (try assumption; left; exact Hfull). split; assumption.
Qed.

Lemma reachable_in_field s :
  (forall k, 0 <= random k) -> reachable s -> in_field s.
Proof.
  intros Hpos. induction 1 as [s0 fuel s Hmem Hinit | s fuel d s' moved Hr IH Hd Hstep
                  | s Hr IH | s fuel s' Hr IH Hstep
                  | s fuel s' Hr IH Hstep | s pause Hr IH].
  - destruct (initialise_game_view fuel s0 s Hmem Hinit) as (_ & Hnp & _ & _ & _ & _ & Hall & _).
    split.
    + eapply Forall_impl; [exact Hall|]. cbv beta. intros p [n ->].
      assert (Hrow : 0 <= 3 < FIELD_HEIGHT) by (unfold FIELD_HEIGHT; lia).
      destruct (sample_in_range 3 n Hpos Hrow) as (Hx & _ & -> & _). lia.
    + unfold live_projectiles. rewrite Hnp. constructor.
  - exact (in_field_move_base fuel d s s' moved Hd (reachable_invariant s Hr) IH Hstep).
  - apply in_field_fire_projectile; try assumption. apply reachable_invariant, Hr.
  - exact (in_field_advance_projectiles fuel s s' Hpos (reachable_invariant s Hr) IH Hstep).
  - exact (in_field_advance_asteroids fuel s s' Hpos (reachable_invariant s Hr) IH Hstep).
  - exact IH.
Qed.

(** X8. In every state the driver can reach, the two counts are within the
    capacities, the arrays have their declared sizes and hold bytes, and the
    base is within the field. *)
Theorem reachable_counts_in_range s :
  reachable s ->
  0 <= numProjectiles s <= MAX_PROJECTILES
  /\ 0 <= numAsteroids s <= MAX_ASTEROIDS
  /\ Z.of_nat (length (projectiles s)) = MAX_PROJECTILES
  /\ Z.of_nat (length (asteroids s)) = MAX_ASTEROIDS
  /\ Forall byte (projectiles s) /\ Forall byte (asteroids s)
  /\ 0 <= basePosition s < FIELD_WIDTH.
Proof.
  intros Hr.
  destruct (reachable_invariant s Hr)
    as (((Hnp & _ & Hbp) & (Hna & _ & Hba) & Hlp & Hla) & Hbase & _).
  split_and!; try assumption; lia.
Qed.

(** X9. With a random() that returns no negative value, every live
    asteroid of a reachable state lies in one of the eight columns and
    sixteen rows of the field, and every live projectile in one of the
    eight columns and in one of the rows 2 to 15: nothing is ever stored
    outside the field, and no projectile at or below the base. *)
Theorem reachable_entities_in_field s :
  (forall k, 0 <= random k) -> reachable s ->
  (forall i, 0 <= i < numAsteroids s ->
     0 <= GET_X_POSITION (rd (asteroids s) i) < FIELD_WIDTH
     /\ 0 <= GET_Y_POSITION (rd (asteroids s) i) < FIELD_HEIGHT)
  /\ (forall i, 0 <= i < numProjectiles s ->
        0 <= GET_X_POSITION (rd (projectiles s) i) < FIELD_WIDTH
        /\ 2 <= GET_Y_POSITION (rd (projectiles s) i) < FIELD_HEIGHT).
Proof.
  intros Hpos Hr.
  destruct (reachable_in_field s Hpos Hr) as [Ha Hp].
  destruct (reachable_invariant s Hr) as ((Hfp & Hfa & _) & _).
  assert (Hrd : forall n a i, fits n a -> 0 <= i < n ->
            take (Z.to_nat n) a !! Z.to_nat i = Some (rd a i)).
  { intros n a i (Hn & _) Hi.
    destruct (lookup_lt_is_Some_2 a (Z.to_nat i) ltac:(lia)) as [v Hv].
    unfold rd. rewrite Hv. cbn. rewrite lookup_take_lt by lia. exact Hv. }
  split.
  - intros i Hi. pose proof (Hrd _ _ i Hfa Hi) as Hl.
    pose proof (Forall_lookup_1 _ _ _ _ Ha Hl) as Hx. cbv beta in Hx.
    pose proof (Forall_lookup_1 _ _ _ _ (live_bytes _ _ Hfa) Hl) as Hb.
    pose proof (GET_X_range _ Hb). pose proof (GET_Y_range _ Hb).
    unfold FIELD_HEIGHT. lia.
  - intros i Hi. pose proof (Hrd _ _ i Hfp Hi) as Hl.
    pose proof (Forall_lookup_1 _ _ _ _ Hp Hl) as Hx. cbv beta in Hx.
    pose proof (Forall_lookup_1 _ _ _ _ (live_bytes _ _ Hfp) Hl) as Hb.
    pose proof (GET_X_range _ Hb). pose proof (GET_Y_range _ Hb).
    unfold FIELD_HEIGHT. lia.
Qed.

(** ** What an advance does to the entities *)

Lemma sublist_map_inv (f : Z -> Z) (l : list Z) : forall l0,
  l0 `sublist_of` map f l -> exists l', l' `sublist_of` l /\ l0 = map f l'.
Proof.
  clear MAX_PROJECTILES MAX_ASTEROIDS random.
  induction l as [|x l IH]; intros l0 Hsub; cbn [map] in Hsub.
  - apply sublist_nil_r in Hsub as ->. exists []. split; [reflexivity | reflexivity].
  - apply sublist_cons_r in Hsub as [Hsub | (l1 & -> & Hsub)].
    + destruct (IH l0 Hsub) as (l' & Hl' & ->). exists l'. split; [|reflexivity].
      apply sublist_cons, Hl'.
    + destruct (IH l1 Hsub) as (l' & Hl' & ->). exists (x :: l'). split; [|reflexivity].
      apply sublist_skip, Hl'.
Qed.

(** X10. When [advance_projectiles] returns from a well-formed state, its
    live projectiles are some of the old ones, in their old order, each one
    row higher in the same column; none of them was in the top row, so a
    projectile of the top row is always removed.  The live asteroids are
    some of the old ones, in their old order and where they were, followed
    by new ones in the top row. *)
Theorem advance_projectiles_moves fuel s s' :
  wf s -> advance_projectiles fuel s = Some s' ->
  exists kept rest new,
    live_projectiles s' = map (fun p => p + 1) kept
    /\ kept `sublist_of` live_projectiles s
    /\ Forall (fun p => GET_Y_POSITION p + 1 < FIELD_HEIGHT
                        /\ GET_X_POSITION (p + 1) = GET_X_POSITION p
                        /\ GET_Y_POSITION (p + 1) = GET_Y_POSITION p + 1) kept
    /\ live_asteroids s' = rest ++ new
    /\ rest `sublist_of` live_asteroids s
    /\ Forall (fun p => GET_Y_POSITION p = FIELD_HEIGHT - 1) new.
Proof.
  intros (Hfp & Hfa & Hlp & Hla) H. unfold advance_projectiles in H. cbv zeta in H.
  destruct (advance_projectiles_loop fuel 0 _) as [s1|] eqn:Hloop; [|discriminate].
  injection H as <-.
  destruct (advance_projectiles_loop_result fuel (emit s_invalidate_mode (emit new_frame s))
              s1 Hfp Hfa Hloop)
    as (Hfp1 & Hfa1 & Hlp1 & Hla1 & _ & _ & _ & Hsub & kept & Hlive & Hsub' & Hrows).
  destruct (add_missing_asteroids_spec s1 Hfa1 ltac:(simpl_state; congruence))
    as (_ & _ & Hnp2 & Hp2 & _ & _ & _ & _ & (new & Hlive2 & Htop) & _).
  exists kept, (live_asteroids s1), new.
  change (live_projectiles (emit draw_frame (add_missing_asteroids s1)))
    with (live_projectiles (add_missing_asteroids s1)).
  change (live_asteroids (emit draw_frame (add_missing_asteroids s1)))
    with (live_asteroids (add_missing_asteroids s1)).
  split_and!.
  - unfold live_projectiles. rewrite Hnp2, Hp2. exact Hlive.
  - exact Hsub'.
  - pose proof (Forall_sublist_of _ _ _ Hsub' (live_bytes _ _ Hfp)) as Hbytes.
    rewrite Forall_forall in *. intros p Hp.
    destruct (position_up p (Hbytes p Hp) (Hrows p Hp)) as [_ Hy].
    destruct (column_shift p (Hbytes p Hp)) as [Hx _].
    split_and!; [exact (Hrows p Hp) | exact (Hx (Hrows p Hp)) | exact Hy].
  - exact Hlive2.
  - exact Hsub.
  - exact Htop.
Qed.

(** X11. When [advance_asteroids] returns from a well-formed state whose
    base is within the int8_t range, its live asteroids are some of the old
    ones, in their old order, each one row lower in the same column, followed
    by new ones in the top row; none of those kept was in row 0, so an
    asteroid of the bottom row is always removed.  The live projectiles are
    some of the old ones, in their old order and where they were. *)
Theorem advance_asteroids_moves fuel s s' :
  wf s -> -128 <= basePosition s < 128 -> advance_asteroids fuel s = Some s' ->
  exists kept new,
    live_asteroids s' = map (fun p => p - 1) kept ++ new
    /\ kept `sublist_of` live_asteroids s
    /\ Forall (fun p => 1 <= GET_Y_POSITION p
                        /\ GET_X_POSITION (p - 1) = GET_X_POSITION p
                        /\ GET_Y_POSITION (p - 1) = GET_Y_POSITION p - 1) kept
    /\ Forall (fun p => GET_Y_POSITION p = FIELD_HEIGHT - 1) new
    /\ live_projectiles s' `sublist_of` live_projectiles s.
Proof.
  intros (Hfp & Hfa & Hlp & Hla) Hbase H.
  destruct (advance_asteroids_view _ _ _ H) as (s1 & t3 & Hloop & ->). clear H.
  destruct (advance_asteroids_loop_result fuel
              (emit s_invalidate_mode (emit set_display_attribute_TERM_RESET (emit new_frame s)))
              s1 Hfp Hfa Hloop)
    as (Hfp1 & Hfa1 & Hlp1 & Hla1 & Hb1 & _ & _ & Hsub & todo & Hlive & Hsub' & Hrows).
  assert (Hbase1 : -128 <= basePosition s1 < 128) by (rewrite Hb1; exact Hbase).
  destruct (check_all_base_hits_spec s1 Hfa1 Hbase1) as (as2 & t2 & E2 & Hfa2 & Hlive2 & Hlen2).
  set (s2 := check_all_base_hits s1) in *.
  assert (Hfa2' : fits (numAsteroids s2) (asteroids s2)) by (rewrite E2; exact Hfa2).
  assert (Hla2 : Z.of_nat (length (asteroids s2)) = MAX_ASTEROIDS).
  { rewrite E2. simpl_state. congruence. }
  destruct (add_missing_asteroids_spec s2 Hfa2' Hla2)
    as (_ & _ & Hnp3 & Hp3 & _ & _ & _ & _ & (new & Hlive3 & Htop) & _).
  change (live_asteroids (set_trace t3 (add_missing_asteroids s2)))
    with (live_asteroids (add_missing_asteroids s2)).
  change (live_projectiles (set_trace t3 (add_missing_asteroids s2)))
    with (live_projectiles (add_missing_asteroids s2)).
  assert (Hsub2 : live_asteroids s2 `sublist_of` map (fun p => p - 1) todo).
  { rewrite <- Hlive. rewrite E2. unfold live_asteroids at 1. simpl_state. rewrite Hlive2.
    repeat (etrans; [apply remove_first_sublist|]). reflexivity. }
  destruct (sublist_map_inv _ _ _ Hsub2) as (kept & Hkept & Hmap).
  exists kept, new. split_and!.
  - rewrite Hlive3, Hmap. reflexivity.
  - etrans; [exact Hkept | exact Hsub'].
  - pose proof (Forall_sublist_of _ _ _ Hsub' (live_bytes _ _ Hfa)) as Hbytes.
    pose proof (Forall_sublist_of _ _ _ Hkept Hbytes) as Hbytes'.
    pose proof (Forall_sublist_of _ _ _ Hkept Hrows) as Hrows'.
    rewrite Forall_forall in *. intros p Hp.
    destruct (position_down p (Hbytes' p Hp) (Hrows' p Hp)) as [_ Hy].
    destruct (column_shift p (Hbytes' p Hp)) as [_ Hx].
    split_and!; [exact (Hrows' p Hp) | exact (Hx (Hrows' p Hp)) | exact Hy].
  - exact Htop.
  - unfold live_projectiles at 1. rewrite Hnp3, Hp3.
    assert (Hp2 : live_projectiles s2 = live_projectiles s1).
    { rewrite E2. reflexivity. }
    fold (live_projectiles s2). rewrite Hp2. exact Hsub.
Qed.

(** ** Firing twice *)

(** X12. An accepted shot that meets no asteroid at the cell above the base
    stores the new projectile at the end of the live list, at the column of
    the base and row 2; a second shot fired straight after it is turned
    away and changes nothing. *)
Theorem fire_then_fire s :
  wf s -> 0 <= basePosition s < FIELD_WIDTH ->
  snd (fire_projectile s) = 1 ->
  (packed (basePosition s) 2 ∉ live_asteroids s) ->
  let s1 := fst (fire_projectile s) in
  live_projectiles s1 = live_projectiles s ++ [GAME_POSITION (basePosition s) 2]
  /\ numProjectiles s1 = numProjectiles s + 1
  /\ GET_X_POSITION (GAME_POSITION (basePosition s) 2) = basePosition s
  /\ GET_Y_POSITION (GAME_POSITION (basePosition s) 2) = 2
  /\ live_asteroids s1 = live_asteroids s
  /\ fire_projectile s1 = (s1, 0).
Proof.
  intros (Hfp & Hfa & Hlp & Hla) Hbase Hret Hclear. unfold FIELD_WIDTH in Hbase.
  assert (Hcell : packed (basePosition s) 2 = GAME_POSITION (basePosition s) 2
                  /\ GET_X_POSITION (GAME_POSITION (basePosition s) 2) = basePosition s
                  /\ GET_Y_POSITION (GAME_POSITION (basePosition s) 2) = 2).
  { rewrite <- spawn_cell_packed by lia.
    assert (H : forall b, 0 <= b < 256 ->
              (negb (b <? 8)
               || ((to_uint8 (GAME_POSITION b 2) =? GAME_POSITION b 2)
                   && (GET_X_POSITION (GAME_POSITION b 2) =? b)
                   && (GET_Y_POSITION (GAME_POSITION b 2) =? 2))) = true).
    { apply (forall_bytes (fun b =>
         negb (b <? 8)
         || ((to_uint8 (GAME_POSITION b 2) =? GAME_POSITION b 2)
             && (GET_X_POSITION (GAME_POSITION b 2) =? b)
             && (GET_Y_POSITION (GAME_POSITION b 2) =? 2)))).
      vm_compute. reflexivity. }
    specialize (H (basePosition s) ltac:(lia)).
    destruct (Z.ltb_spec (basePosition s) 8); [|lia]. cbn [negb orb] in H.
    apply andb_true_iff in H as [H H3]. apply andb_true_iff in H as [H1 H2].
    apply Z.eqb_eq in H1, H2, H3. split_and!; assumption. }
  destruct Hcell as (Hc & Hx & Hy).
  assert (Hroom : numProjectiles s < MAX_PROJECTILES).
  { destruct (Z.ltb_spec (numProjectiles s) MAX_PROJECTILES) as [Hroom | Hfull]; [exact Hroom|].
    rewrite fire_projectile_reject in Hret by (try assumption; left; exact Hfull).
    discriminate. }
  assert (Hfree : packed (basePosition s) 2 ∉ live_projectiles s).
  { intros Hocc.
    rewrite fire_projectile_reject in Hret by (try assumption; right; exact Hocc).
    discriminate. }
  destruct (fire_projectile_accept s Hfp Hfa Hlp ltac:(lia) Hroom Hfree)
    as (s' & -> & Hfp' & Hfa' & Hlenp & Hlena & Hb' & _ & _ & Hcase).
  cbn [fst].
  destruct Hcase as [(_ & Hlp' & Hn' & Hla' & _) | (al1 & al2 & Hal & _)].
  - split_and!; try assumption.
    + rewrite <- Hc. exact Hlp'.
    + apply fire_projectile_reject; [exact Hfp'|]. right.
      rewrite Hb', Hlp'. apply elem_of_app. right. left.
  - exfalso. apply Hclear. rewrite Hal. apply elem_of_app. right. left.
Qed.

(** ** One spawn *)

(** X13. [add_asteroid_in_rows] does nothing, and draws no random number,
    when the list is full.  Otherwise, with a random() that returns no
    negative value, it samples up to 129 cells, two random numbers each, and
    appends the first one that holds no asteroid; that cell lies in a column
    of the field and in a row from the given one up.  When all 129 hold an
    asteroid, only the count of random() calls has moved, by 258. *)
Theorem add_asteroid_in_rows_cases r s :
  fits (numAsteroids s) (asteroids s) ->
  Z.of_nat (length (asteroids s)) = MAX_ASTEROIDS ->
  (forall k, 0 <= random k) -> 0 <= r < FIELD_HEIGHT ->
  let s' := add_asteroid_in_rows r s in
  let sampled := fun j => sample_cell r (rand_calls s + 2 * j) in
  (numAsteroids s = MAX_ASTEROIDS -> s' = s)
  /\ (numAsteroids s <> MAX_ASTEROIDS ->
        (exists j, (j < 129)%nat
           /\ (forall j', (j' < j)%nat -> sampled j' ∈ live_asteroids s)
           /\ (sampled j ∉ live_asteroids s)
           /\ live_asteroids s' = live_asteroids s ++ [sampled j]
           /\ numAsteroids s' = numAsteroids s + 1
           /\ rand_calls s' = (rand_calls s + 2 * (j + 1))%nat
           /\ 0 <= GET_X_POSITION (sampled j) < FIELD_WIDTH
           /\ r <= GET_Y_POSITION (sampled j) < FIELD_HEIGHT)
        \/ ((forall j, (j < 129)%nat -> sampled j ∈ live_asteroids s)
            /\ s' = set_rand_calls (rand_calls s + 258) s)).
Proof.
  intros Hf Hlen Hpos Hr s' sampled. subst s' sampled.
  assert (Hr8 : to_uint8 r = r) by (apply to_uint8_small; unfold FIELD_HEIGHT in Hr; lia).
  pose proof (add_asteroid_in_rows_spec r s Hf) as H. rewrite Hr8 in H.
  pose proof Hf as (Hn0 & Hcap & Hb).
  destruct (Z.eqb_spec (numAsteroids s) MAX_ASTEROIDS) as [Hfull | Hroom].
  - split; [intros _; exact H | intros Hne; contradiction].
  - split; [intros Heq; contradiction | intros _].
    destruct (first_free _ _ _ _) as [n|] eqn:Efree.
    + left. destruct H as [t ->].
      apply first_free_Some in Efree as (Hnot & j & Hj & Hn & Hprev).
      exists j. subst n. unfold live_asteroids at 3. simpl_state.
      rewrite to_int8_small by lia.
      destruct (sample_in_range r (rand_calls s + 2 * j) Hpos Hr) as (Hx & Hy & -> & ->).
      split_and!; try assumption; try lia.
      unfold wr. replace (Z.to_nat (numAsteroids s + 1)) with (S (Z.to_nat (numAsteroids s))) by lia.
      apply take_snoc_insert. lia.
    + right. split; [|exact H].
      intros j Hj. exact (first_free_None _ _ _ _ Efree j Hj).
Qed.

(** ** What is drawn *)

(** The calls [redraw_base] issues for a base within the field; its loop
    needs four rounds of fuel. *)
Lemma redraw_base_calls fuel colour s :
  (4 <= fuel)%nat ->
  0 <= basePosition s < FIELD_WIDTH ->
  redraw_base fuel colour s
  = Some (set_trace (rev (base_pixels colour (basePosition s)) ++ trace s) s).
Proof.
  clear MAX_PROJECTILES MAX_ASTEROIDS random.
  unfold FIELD_WIDTH. intros Hfuel Hbase.
  do 4 (destruct fuel as [|fuel]; [lia|]). clear Hfuel.
  assert (Hcases : basePosition s = 0 \/ basePosition s = 1 \/ basePosition s = 2
                   \/ basePosition s = 3 \/ basePosition s = 4 \/ basePosition s = 5
                   \/ basePosition s = 6 \/ basePosition s = 7) by lia.
  destruct s as [bp np ps na az pa sc lv rc tr]. cbn [basePosition trace] in *.
  unfold redraw_base, base_pixels, set_trace.
  destruct Hcases as [-> | [-> | [-> | [-> | [-> | [-> | [-> | ->]]]]]]]; reflexivity.
Qed.

(** X14. [redraw_base], for a base within the field, draws the cells of
    the base that lie in the field and no other: the cell to the left is
    left out when the base is at column 0 and the cell to the right when it
    is at column 7.  It changes nothing but the display, and its loop
    returns within four rounds. *)
Theorem redraw_base_clipped fuel colour s :
  (4 <= fuel)%nat ->
  0 <= basePosition s < FIELD_WIDTH ->
  redraw_base fuel colour s
  = Some (set_trace (rev (base_pixels colour (basePosition s)) ++ trace s) s)
  /\ Forall (fun e => e = print_terminal_buffer
                      \/ exists x y, e = set_pixel x y colour
                                     /\ 0 <= x < FIELD_WIDTH /\ 0 <= y <= 1)
            (base_pixels colour (basePosition s)).
Proof.
  intros Hfuel Hbase. split; [exact (redraw_base_calls fuel colour s Hfuel Hbase)|].
  clear MAX_PROJECTILES MAX_ASTEROIDS random.
  unfold FIELD_WIDTH in *.
  assert (Hcases : basePosition s = 0 \/ basePosition s = 1 \/ basePosition s = 2
                   \/ basePosition s = 3 \/ basePosition s = 4 \/ basePosition s = 5
                   \/ basePosition s = 6 \/ basePosition s = 7) by lia.
  destruct s as [bp np ps na az pa sc lv rc tr]. cbn [basePosition trace] in *.
  unfold base_pixels, FIELD_WIDTH.
  destruct Hcases as [-> | [-> | [-> | [-> | [-> | [-> | [-> | ->]]]]]]];
    cbn [Z.leb Z.ltb Z.sub Z.add Z.compare Z.opp Z.pos_sub Pos.compare Pos.compare_cont
         Pos.add Pos.succ Pos.pred_double Z.succ_double Z.pred_double Z.double app];
    repeat (constructor;
            [first [left; reflexivity
                   | right; eexists _, _; split; [reflexivity | lia]]|]);
    constructor.
Qed.

(** X27. [redraw_base] returns exactly when the base is below column 126.
    Its counter is an int8_t that runs from basePosition-1 up to
    basePosition+1.  With the base below 126 the loop ends within four
    rounds, and nothing but the display has changed.  With the base at 126
    or 127 the bound is 127 or more, which no int8_t exceeds: the counter
    wraps from 127 to -128 and the loop never ends, whatever the fuel.
    There, [move_base] does not return either, for any direction, and nor
    does [advance_asteroids] from a state whose counts are within the
    arrays. *)
Theorem redraw_base_returns_iff colour s :
  -128 <= basePosition s < 128 ->
  (basePosition s < 126 ->
     forall fuel, (4 <= fuel)%nat ->
       exists t, redraw_base fuel colour s = Some (set_trace t s))
  /\ (126 <= basePosition s ->
        (forall fuel, redraw_base fuel colour s = None)
        /\ (forall fuel direction, move_base fuel direction s = None)
        /\ (wf s -> forall fuel, advance_asteroids fuel s = None)).
Proof.
  intros Hbase. split.
  - intros Hlow fuel Hfuel. apply redraw_base_returns; [lia | exact Hfuel].
  - intros Hhigh. split_and!.
    + intros fuel. apply redraw_base_diverges, Hhigh.
    + intros fuel direction. unfold move_base. cbv zeta.
      destruct (Z.eqb_spec (basePosition s) 0) as [H0 | _]; [lia|].
      destruct (Z.eqb_spec (basePosition s) 7) as [H7 | _]; [lia|].
      cbn [andb orb].
      rewrite (redraw_base_diverges fuel COLOUR_BLACK
                 (emit s_invalidate_mode (emit draw_frame s)) Hhigh).
      reflexivity.
    + intros _ fuel. unfold advance_asteroids. cbv zeta.
      destruct (advance_asteroids_loop fuel 0 _) as [s1|] eqn:Hloop; [|reflexivity].
      destruct (effect_advance_asteroids_loop _ _ _ _ Hloop) as (k & _ & H1 & _).
      destruct (effect_check_all_base_hits s1) as (k2 & _ & H2 & _).
      destruct (effect_add_missing_asteroids (check_all_base_hits s1)) as (d & H3 & _).
      apply redraw_base_diverges.
      change (126 <= basePosition (add_missing_asteroids (check_all_base_hits s1))).
      rewrite H3, H2, H1. exact Hhigh.
Qed.

(** Drawing the entries [todo] that follow the entries [done]. *)
Lemma redraw_asteroids_loop colour todo : forall done s,
  fits (numAsteroids s) (asteroids s) ->
  live_asteroids s = done ++ todo ->
  for_loop (length todo) (Z.of_nat (length done)) (fun i => redraw_asteroid i colour) s
  = set_trace (rev (map (pixel_of colour) todo) ++ trace s) s.
Proof.
  induction todo as [|p todo IH]; intros done s Hf Hl; cbn [length for_loop map rev app].
  - destruct s; reflexivity.
  - destruct (rd_live _ _ _ _ _ Hf Hl) as (Hrd & _ & Hn & _).
    pose proof Hf as (Hn0 & Hcap & _).
    pose proof (live_length _ _ Hf) as Hlen. fold (live_asteroids s) in Hlen.
    rewrite Hl, length_app in Hlen. cbn [length] in Hlen.
    assert (E : redraw_asteroid (Z.of_nat (length done)) colour s
                = emit (pixel_of colour p) s).
    { unfold redraw_asteroid. cbv zeta. rewrite to_uint8_small by lia.
      destruct (Z.ltb_spec (Z.of_nat (length done)) (numAsteroids s)); [|lia].
      rewrite Hrd. reflexivity. }
    rewrite E.
    replace (Z.of_nat (length done) + 1) with (Z.of_nat (length (done ++ [p])))
      by (rewrite length_app; cbn [length]; lia).
    rewrite (IH (done ++ [p]) (emit (pixel_of colour p) s)).
    + unfold set_trace, emit. cbn [basePosition numProjectiles projectiles numAsteroids
        asteroids paused score lives rand_calls trace].
      rewrite <- app_assoc. reflexivity.
    + exact Hf.
    + change (live_asteroids (emit (pixel_of colour p) s)) with (live_asteroids s).
      rewrite Hl, <- app_assoc. reflexivity.
Qed.

Lemma redraw_projectiles_loop colour todo : forall done s,
  fits (numProjectiles s) (projectiles s) ->
  live_projectiles s = done ++ todo ->
  for_loop (length todo) (Z.of_nat (length done)) (fun i => redraw_projectile i colour) s
  = set_trace (rev (map (pixel_of colour) todo) ++ trace s) s.
Proof.
  induction todo as [|p todo IH]; intros done s Hf Hl; cbn [length for_loop map rev app].
  - destruct s; reflexivity.
  - destruct (rd_live _ _ _ _ _ Hf Hl) as (Hrd & _ & Hn & _).
    pose proof Hf as (Hn0 & Hcap & _).
    pose proof (live_length _ _ Hf) as Hlen. fold (live_projectiles s) in Hlen.
    rewrite Hl, length_app in Hlen. cbn [length] in Hlen.
    assert (E : redraw_projectile (Z.of_nat (length done)) colour s
                = emit (pixel_of colour p) s).
    { unfold redraw_projectile. cbv zeta. rewrite to_uint8_small by lia.
      destruct (Z.ltb_spec (Z.of_nat (length done)) (numProjectiles s)); [|lia].
      rewrite Hrd. reflexivity. }
    rewrite E.
    replace (Z.of_nat (length done) + 1) with (Z.of_nat (length (done ++ [p])))
      by (rewrite length_app; cbn [length]; lia).
    rewrite (IH (done ++ [p]) (emit (pixel_of colour p) s)).
    + unfold set_trace, emit. cbn [basePosition numProjectiles projectiles numAsteroids
        asteroids paused score lives rand_calls trace].
      rewrite <- app_assoc. reflexivity.
    + exact Hf.
    + change (live_projectiles (emit (pixel_of colour p) s)) with (live_projectiles s).
      rewrite Hl, <- app_assoc. reflexivity.
Qed.

(** X15. [redraw_whole_display] clears the display, draws the base, then
    one pixel for each live asteroid, in the order of the list and at the
    asteroid's position, then one pixel for each live projectile; entries
    beyond the counts are not drawn.  It changes nothing but the display. *)
Theorem redraw_whole_display_calls fuel s :
  (4 <= fuel)%nat ->
  fits (numAsteroids s) (asteroids s) ->
  fits (numProjectiles s) (projectiles s) ->
  0 <= basePosition s < FIELD_WIDTH ->
  redraw_whole_display fuel s
  = Some (set_trace (rev (map (pixel_of COLOUR_PROJECTILE) (live_projectiles s))
                     ++ rev (map (pixel_of COLOUR_ASTEROID) (live_asteroids s))
                     ++ rev (base_pixels COLOUR_BASE (basePosition s))
                     ++ ledmatrix_clear :: trace s) s).
Proof.
  intros Hfuel Hfa Hfp Hbase. unfold redraw_whole_display. cbv zeta.
  rewrite (redraw_base_calls fuel COLOUR_BASE (emit ledmatrix_clear s) Hfuel Hbase).
  set (s1 := set_trace _ (emit ledmatrix_clear s)).
  assert (Ea : redraw_all_asteroids s1
               = set_trace (rev (map (pixel_of COLOUR_ASTEROID) (live_asteroids s)) ++ trace s1) s1).
  { unfold redraw_all_asteroids, for_range.
    pose proof (live_length _ _ Hfa) as Hlen. fold (live_asteroids s) in Hlen.
    replace (Z.to_nat (numAsteroids s1 - 0)) with (length (live_asteroids s))
      by (change (numAsteroids s1) with (numAsteroids s); lia).
    exact (redraw_asteroids_loop COLOUR_ASTEROID (live_asteroids s) [] s1 Hfa eq_refl). }
  rewrite Ea. set (s2 := set_trace _ s1).
  assert (Ep : redraw_all_projectiles s2
               = set_trace (rev (map (pixel_of COLOUR_PROJECTILE) (live_projectiles s)) ++ trace s2) s2).
  { unfold redraw_all_projectiles, for_range.
    pose proof (live_length _ _ Hfp) as Hlen. fold (live_projectiles s) in Hlen.
    replace (Z.to_nat (numProjectiles s2 - 0)) with (length (live_projectiles s))
      by (change (numProjectiles s2) with (numProjectiles s); lia).
    exact (redraw_projectiles_loop COLOUR_PROJECTILE (live_projectiles s) [] s2 Hfp eq_refl). }
  rewrite Ep. reflexivity.
Qed.

(** ** The base is never left under an asteroid *)

(** The cells of the base lie in the rows 0 and 1. *)
Lemma footprint_rows base c : c ∈ footprint_of base -> GET_Y_POSITION c <= 1.
Proof.
  clear MAX_PROJECTILES MAX_ASTEROIDS random.
  assert (H : forall x, 0 <= x < 256 ->
            ((GET_Y_POSITION (to_uint8 (GAME_POSITION x 1)) =? 1)
             && (GET_Y_POSITION (to_uint8 (GAME_POSITION x 0)) =? 0)) = true).
  { apply (forall_bytes (fun x =>
       (GET_Y_POSITION (to_uint8 (GAME_POSITION x 1)) =? 1)
       && (GET_Y_POSITION (to_uint8 (GAME_POSITION x 0)) =? 0))).
    vm_compute. reflexivity. }
  assert (Hcell : forall x, GET_Y_POSITION (base_cell x 1) = 1
                            /\ GET_Y_POSITION (base_cell x 0) = 0).
  { intros x. unfold base_cell, packed.
    change (to_uint8 (to_int8 1)) with 1. change (to_uint8 (to_int8 0)) with 0.
    specialize (H (to_uint8 (to_int8 x)) (to_uint8_range _)).
    apply andb_true_iff in H as [H1 H0]. apply Z.eqb_eq in H1, H0. split; assumption. }
  unfold footprint_of. intros Hin.
  repeat (apply elem_of_cons in Hin as [-> | Hin];
          [first [rewrite (proj1 (Hcell _)) | rewrite (proj2 (Hcell _))]; lia|]).
  apply elem_of_nil in Hin. contradiction.
Qed.

Lemma remove_first_NoDup_absent c (l : list Z) : NoDup l -> c ∉ remove_first c l.
Proof.
  intros Hnd. rewrite remove_first_NoDup by exact Hnd.
  intros Hin. apply list_elem_of_filter in Hin as [Hne _]. apply Hne. reflexivity.
Qed.

Lemma remove_first_keeps_absent c c' (l : list Z) : (c' ∉ l) -> c' ∉ remove_first c l.
Proof.
  intros Hout Hin. apply Hout.
  eapply sublist_subseteq; [apply remove_first_sublist | exact Hin].
Qed.

(** After [check_all_base_hits], in a state whose asteroids are pairwise
    distinct, no asteroid is left on the base. *)
Lemma base_clear_check_all_base_hits s :
  invariant s -> base_clear (check_all_base_hits s).
Proof.
  intros ((Hfp & Hfa & Hlp & Hla) & Hbase & _ & Hnd & _). unfold FIELD_WIDTH in Hbase.
  destruct (check_all_base_hits_spec s Hfa ltac:(lia)) as (as' & t & -> & Hf' & Hlive & Hlen).
  unfold base_clear, footprint, footprint_of, live_asteroids. simpl_state. rewrite Hlive.
  set (c1 := base_cell (basePosition s) 1). set (c2 := base_cell (basePosition s - 1) 0).
  set (c3 := base_cell (basePosition s) 0). set (c4 := base_cell (basePosition s + 1) 0).
  assert (Hnd1 : NoDup (remove_first c1 (live_asteroids s)))
    by exact (sublist_NoDup _ _ Hnd (remove_first_sublist _ _)).
  assert (Hnd2 : NoDup (remove_first c2 (remove_first c1 (live_asteroids s))))
    by exact (sublist_NoDup _ _ Hnd1 (remove_first_sublist _ _)).
  assert (Hnd3 : NoDup (remove_first c3 (remove_first c2 (remove_first c1 (live_asteroids s)))))
    by exact (sublist_NoDup _ _ Hnd2 (remove_first_sublist _ _)).
  repeat constructor.
  - do 3 apply remove_first_keeps_absent. apply remove_first_NoDup_absent, Hnd.
  - do 2 apply remove_first_keeps_absent. apply remove_first_NoDup_absent, Hnd1.
  - apply remove_first_keeps_absent. apply remove_first_NoDup_absent, Hnd2.
  - apply remove_first_NoDup_absent, Hnd3.
Qed.

(** Removing asteroids, or adding some in the top row, leaves the base
    clear when the base has not moved. *)
Lemma base_clear_step s s' kept extra :
  base_clear s -> basePosition s' = basePosition s ->
  live_asteroids s' = kept ++ extra ->
  kept `sublist_of` live_asteroids s ->
  Forall (fun p => GET_Y_POSITION p = 15) extra ->
  base_clear s'.
Proof.
  intros Hc Hb Hl Hsub Htop. unfold base_clear, footprint in *. rewrite Hb, Hl.
  rewrite Forall_forall in *. intros c Hin Hocc.
  apply elem_of_app in Hocc as [Hocc | Hocc].
  - apply (Hc c Hin). eapply sublist_subseteq; eassumption.
  - pose proof (footprint_rows _ _ Hin). specialize (Htop c Hocc). cbv beta in Htop. lia.
Qed.

Lemma base_clear_draws_only f s : draws_only f -> base_clear s -> base_clear (f s).
Proof. intros Hf Hs. destruct (Hf s) as [t ->]. exact Hs. Qed.

Lemma base_clear_add_missing_asteroids s :
  invariant s -> base_clear s -> base_clear (add_missing_asteroids s).
Proof.
  intros ((Hfp & Hfa & Hlp & Hla) & _) Hc.
  destruct (add_missing_asteroids_spec s Hfa Hla)
    as (_ & _ & _ & _ & Hb & _ & _ & _ & (extra & Hlive & Htop) & _).
  exact (base_clear_step s _ (live_asteroids s) extra Hc Hb Hlive (reflexivity _) Htop).
Qed.

Lemma reachable_base_clear s :
  (forall k, 0 <= random k) -> reachable s -> base_clear s.
Proof.
  intros Hpos. induction 1 as [s0 fuel s Hmem Hinit | s fuel d s' moved Hr IH Hd Hstep
                  | s Hr IH | s fuel s' Hr IH Hstep
                  | s fuel s' Hr IH Hstep | s pause Hr IH].
  - destruct (initialise_game_view fuel s0 s Hmem Hinit) as (_ & _ & _ & _ & _ & _ & Hall & _).
    unfold base_clear, footprint. rewrite Forall_forall in *. intros c Hin Hocc.
    destruct (Hall c Hocc) as [n ->].
    assert (Hrow : 0 <= 3 < FIELD_HEIGHT) by (unfold FIELD_HEIGHT; lia).
    destruct (sample_in_range 3 n Hpos Hrow) as (_ & Hy & _ & Hy').
    pose proof (footprint_rows _ _ Hin). lia.
  - pose proof (reachable_invariant s Hr) as Hs.
    pose proof (invariant_move_base fuel d s s' moved Hd Hs Hstep) as Hinv'.
    apply move_base_view in Hstep.
    destruct (_ || _); [destruct Hstep as [-> _]; exact IH|].
    destruct Hstep as (_ & t1 & t2 & ->).
    assert (Hbase' : 0 <= basePosition
                            (check_all_base_hits
                               (set_basePosition
                                  (to_int8 (basePosition s + (2 * to_int8 d - 1)))
                                  (set_trace t1 s))) <= FIELD_WIDTH - 1)
      by (destruct Hinv' as (_ & Hbase' & _); exact Hbase').
    clear Hinv'.
    match goal with |- base_clear (set_trace _ ?st) => change (base_clear st) end.
    match goal with |- base_clear (check_all_base_hits ?s0) => set (s1 := s0) in * end.
    apply base_clear_check_all_base_hits.
    destruct Hs as (Hwf & Hbase & Hrest).
    split; [exact Hwf|]. split; [|exact Hrest].
    rewrite <- (basePosition_check_all_base_hits s1). exact Hbase'.
  - pose proof (reachable_invariant s Hr) as Hs.
    pose proof Hs as ((Hfp & Hfa & Hlp & Hla) & Hbase & _). unfold FIELD_WIDTH in Hbase.
    destruct (Z.ltb_spec (numProjectiles s) MAX_PROJECTILES) as [Hroom | Hfull].
    + destruct (decide (packed (basePosition s) 2 ∈ live_projectiles s)) as [Hocc | Hfree].
      * rewrite fire_projectile_reject by (try assumption; right; exact Hocc). exact IH.
      * destruct (fire_projectile_accept s Hfp Hfa Hlp ltac:(lia) Hroom Hfree)
          as (s' & -> & _ & _ & _ & _ & Hb' & _ & _ & Hcase).
        cbn [fst].
        destruct Hcase as [(_ & _ & _ & Hla' & _) | (al1 & al2 & Hal & _ & _ & _ & Hla' & _)].
        -- apply (base_clear_step s s' (live_asteroids s) [] IH Hb');
             [rewrite app_nil_r; exact Hla' | reflexivity | constructor].
        -- apply (base_clear_step s s' (al1 ++ al2) [] IH Hb');
             [rewrite app_nil_r; exact Hla' | rewrite Hal; apply sublist_app_middle | constructor].
    + rewrite fire_projectile_reject by (try assumption; left; exact Hfull). exact IH.
  - pose proof (reachable_invariant s Hr) as Hs.
    pose proof Hs as ((Hfp & Hfa & Hlp & Hla) & _).
    unfold advance_projectiles in Hstep. cbv zeta in Hstep.
    destruct (advance_projectiles_loop fuel 0 _) as [s1|] eqn:Hloop; [|discriminate].
    injection Hstep as <-.
    apply (base_clear_draws_only (emit draw_frame)); [apply draws_only_emit|].
    pose proof (invariant_projectile_loop fuel (emit s_invalidate_mode (emit new_frame s)) s1
                  Hs Hloop) as Hs1.
    destruct (advance_projectiles_loop_result fuel (emit s_invalidate_mode (emit new_frame s))
                s1 Hfp Hfa Hloop) as (_ & _ & _ & _ & Hb1 & _ & _ & Hsub & _).
    apply base_clear_add_missing_asteroids; [exact Hs1|].
    apply (base_clear_step s s1 (live_asteroids s1) [] IH Hb1);
      [rewrite app_nil_r; reflexivity | exact Hsub | constructor].
  - pose proof (reachable_invariant s Hr) as Hs.
    destruct (advance_asteroids_view _ _ _ Hstep) as (s1 & t & Hloop & ->).
    change (base_clear (add_missing_asteroids (check_all_base_hits s1))).
    pose proof (invariant_asteroid_loop fuel
             (emit s_invalidate_mode (emit set_display_attribute_TERM_RESET (emit new_frame s)))
             s1 Hs Hloop) as Hs1.
    apply base_clear_add_missing_asteroids.
    + apply invariant_check_all_base_hits, Hs1.
    + apply base_clear_check_all_base_hits, Hs1.
  - exact IH.
Qed.

(** X26. With a random() that returns no negative value, no reachable
    state has an asteroid on the base: when a public operation returns, no
    live asteroid is at the cell of row 1 above the base column or at one of
    the three cells of row 0 around it.  Every collision with the base has
    been resolved, and paid for, before the operation returns. *)
Theorem reachable_base_not_hit s :
  (forall k, 0 <= random k) -> reachable s ->
  asteroid_at (basePosition s) 1 s = -1
  /\ asteroid_at (basePosition s - 1) 0 s = -1
  /\ asteroid_at (basePosition s) 0 s = -1
  /\ asteroid_at (basePosition s + 1) 0 s = -1
  /\ check_all_base_hits s = s.
Proof.
  intros Hpos Hr. pose proof (reachable_base_clear s Hpos Hr) as Hc.
  destruct (reachable_invariant s Hr) as ((Hfp & Hfa & Hlp & Hla) & Hbase & _).
  unfold FIELD_WIDTH in Hbase.
  unfold base_clear, footprint, footprint_of in Hc.
  apply Forall_cons in Hc as [H1 Hc]. apply Forall_cons in Hc as [H2 Hc].
  apply Forall_cons in Hc as [H3 Hc]. apply Forall_cons in Hc as [H4 _].
  assert (Hat : forall x y, -128 <= x < 128 -> -128 <= y < 128 ->
            (base_cell x y ∉ live_asteroids s) -> asteroid_at x y s = -1).
  { intros x y Hx Hy Hout. unfold base_cell in Hout. rewrite !to_int8_small in Hout by lia.
    pose proof (asteroid_at_free x y s Hfa) as Hq.
    rewrite bool_decide_eq_false_2 in Hq by exact Hout. apply Z.eqb_eq in Hq. exact Hq. }
  split_and!; try (apply Hat; [lia | lia | assumption]).
  unfold check_all_base_hits. cbv zeta.
  rewrite (check_base_hit_free (basePosition s) 1 s Hfa) by exact H1. cbn [fst].
  rewrite (check_base_hit_free (basePosition s - 1) 0 s Hfa) by exact H2. cbn [fst].
  rewrite (check_base_hit_free (basePosition s) 0 s Hfa) by exact H3. cbn [fst].
  rewrite (check_base_hit_free (basePosition s + 1) 0 s Hfa) by exact H4. reflexivity.
Qed.

(** ** The driver is never stuck *)

(** X28. In every state the driver can reach, each of the step operations
    returns: [move_base] in both directions and [fire_projectile] always,
    [advance_projectiles] and [advance_asteroids] as soon as the fuel
    exceeds the capacities, four rounds of it being enough for the loop of
    [redraw_base], since the base is within the field. *)
Theorem reachable_steps_return s fuel :
  reachable s ->
  (Z.to_nat MAX_PROJECTILES < fuel)%nat -> (Z.to_nat MAX_ASTEROIDS < fuel)%nat ->
  (4 <= fuel)%nat ->
  (forall direction, direction = MOVE_LEFT \/ direction = MOVE_RIGHT ->
     exists s' moved, move_base fuel direction s = Some (s', moved) /\ reachable s')
  /\ reachable (fst (fire_projectile s))
  /\ (exists s', advance_projectiles fuel s = Some s' /\ reachable s')
  /\ (exists s', advance_asteroids fuel s = Some s' /\ reachable s').
Proof.
  intros Hr Hfp Hfa Hfuel.
  pose proof (reachable_invariant s Hr) as (Hwf & Hbase & _).
  pose proof Hwf as ((Hnp & Hcp & _) & (Hna & Hca & _) & Hlp & Hla).
  unfold FIELD_WIDTH in Hbase.
  split_and!.
  - intros direction Hd.
    destruct (move_base_returns fuel direction s Hfuel Hbase Hd) as (s' & moved & Hmove).
    exists s', moved. split; [exact Hmove|].
    exact (reach_move_base s fuel direction s' moved Hr Hd Hmove).
  - apply reach_fire_projectile, Hr.
  - destruct (is_Some_advance_projectiles fuel s Hwf ltac:(lia)) as [s' Hstep].
    exists s'. split; [exact Hstep|].
    exact (reach_advance_projectiles s fuel s' Hr Hstep).
  - destruct (is_Some_advance_asteroids fuel s Hwf ltac:(lia) ltac:(lia) Hfuel) as [s' Hstep].
    exists s'. split; [exact Hstep|].
    exact (reach_advance_asteroids s fuel s' Hr Hstep).
Qed.

End Engine.

(** * The engine at work on concrete games

    The capacities are 4 projectiles and 20 asteroids throughout. *)

Lemma blank_memory_ok : memory_ok 4 20 blank_memory.
Proof. apply memory_ok_check; reflexivity. Defined.

Lemma three_each_wf : wf 4 20 three_each.
Proof. apply wf_check; reflexivity. Defined.

Lemma one_asteroid_wf : wf 4 20 one_asteroid.
Proof. apply wf_check; reflexivity. Defined.

Lemma shoot_the_row_directions : Forall left_or_right shoot_the_row.
Proof. repeat constructor; (left; reflexivity) || (right; reflexivity). Qed.

(** A new game played with [demo_random]: [initialise_game] returns, with
    four rounds of fuel, and what it returns is reachable. *)
Lemma new_game_returns :
  initialise_game 20 demo_random 4 blank_memory
  = Some (default blank_memory (initialise_game 20 demo_random 4 blank_memory)).
Proof. vm_compute. reflexivity. Defined.

Lemma new_game_reachable :
  reachable 4 20 demo_random
    (default blank_memory (initialise_game 20 demo_random 4 blank_memory)).
Proof.
  exact (reach_initialise 4 20 demo_random blank_memory 4 _ blank_memory_ok new_game_returns).
Defined.

(** C1, as stated, fails. In a game played with [demo_random], firing at an
    asteroid right above the base leaves 19 asteroids when [fire_projectile]
    returns, with four lives left; and once nine asteroids are missing,
    [advance_asteroids] returns with 19 asteroids, three lives being left:
    the top row has room for eight only. *)
Lemma replenishment_counterexample :
  ~ (forall s, reachable 4 20 demo_random s -> 0 < lives s ->
       numAsteroids s < 20 \/ numAsteroids (fst (fire_projectile 4 s)) < 20 ->
       numAsteroids (fst (fire_projectile 4 s)) = 20)
  /\ ~ (forall s fuel s', reachable 4 20 demo_random s -> 0 < lives s ->
          advance_asteroids 20 demo_random fuel s = Some s' ->
          numAsteroids s < 20 \/ numAsteroids s' < 20 ->
          numAsteroids s' = 20).
Proof.
  split.
  - intros H.
    destruct (run 4 20 demo_random 30 (take 3 shoot_the_row)
                (default blank_memory (initialise_game 20 demo_random 4 blank_memory))) as [s|] eqn:E;
      [|vm_compute in E; discriminate].
    assert (Hs : reachable 4 20 demo_random s).
    { eapply run_reachable; [| exact new_game_reachable | exact E].
      apply Forall_take, shoot_the_row_directions. }
    assert (Hv : option_map (fun s => (lives s, numAsteroids (fst (fire_projectile 4 s))))
                   (run 4 20 demo_random 30 (take 3 shoot_the_row)
                      (default blank_memory (initialise_game 20 demo_random 4 blank_memory))) = Some (4, 19))
      by (vm_compute; reflexivity).
    rewrite E in Hv. cbn [option_map] in Hv. injection Hv as Hl Hn.
    specialize (H s Hs ltac:(lia) ltac:(lia)). lia.
  - intros H.
    destruct (run 4 20 demo_random 30 shoot_the_row
                (default blank_memory (initialise_game 20 demo_random 4 blank_memory))) as [s|] eqn:E;
      [|vm_compute in E; discriminate].
    assert (Hs : reachable 4 20 demo_random s).
    { eapply run_reachable; [| exact new_game_reachable | exact E].
      apply shoot_the_row_directions. }
    destruct (advance_asteroids 20 demo_random 30 s) as [s'|] eqn:E'.
    + assert (Hv : option_map (fun s => (lives s, option_map numAsteroids
                                           (advance_asteroids 20 demo_random 30 s)))
                     (run 4 20 demo_random 30 shoot_the_row
                        (default blank_memory (initialise_game 20 demo_random 4 blank_memory))) = Some (3, Some 19))
        by (vm_compute; reflexivity).
      rewrite E in Hv. cbn [option_map] in Hv. rewrite E' in Hv. cbn [option_map] in Hv.
      injection Hv as Hl Hn.
      specialize (H s 30%nat s' Hs ltac:(lia) E' ltac:(lia)). lia.
    + assert (Hv : option_map (fun s => option_map numAsteroids
                                           (advance_asteroids 20 demo_random 30 s))
                     (run 4 20 demo_random 30 shoot_the_row
                        (default blank_memory (initialise_game 20 demo_random 4 blank_memory))) = Some (Some 19))
        by (vm_compute; reflexivity).
      rewrite E in Hv. cbn [option_map] in Hv. rewrite E' in Hv. discriminate.
Qed.

(** C1 at work: from the game with one asteroid, [advance_asteroids] returns
    and what it leaves is as the theorem says: the asteroid has hit the
    base, the eight cells of the top row have been filled and the ninth
    search has given up, leaving 8 asteroids of 20; firing, from the same
    game, adds no asteroid. *)
Lemma replenishment_after_advance_witness :
  wf 4 20 one_asteroid /\ -128 <= basePosition one_asteroid < 128
  /\ (exists s', advance_asteroids 20 demo_random 30 one_asteroid = Some s'
        /\ numAsteroids s' = 8
        /\ numAsteroids s' <= 20
        /\ (numAsteroids s' = 20
            \/ exists s1,
                 advance_asteroids_loop 30 0
                   (emit s_invalidate_mode
                      (emit set_display_attribute_TERM_RESET (emit new_frame one_asteroid)))
                 = Some s1
                 /\ replenishment_gives_up 20 demo_random (check_all_base_hits s1)))
  /\ numAsteroids (fst (fire_projectile 4 one_asteroid)) <= numAsteroids one_asteroid.
Proof.
  assert (Hb : -128 <= basePosition one_asteroid < 128) by (cbn; lia).
  pose proof (replenishment_after_advance 4 20 demo_random one_asteroid one_asteroid_wf Hb)
    as (_ & Hadv & _ & Hfire).
  split; [exact one_asteroid_wf|]. split; [exact Hb|]. split; [|exact Hfire].
  assert (Hn : option_map numAsteroids (advance_asteroids 20 demo_random 30 one_asteroid)
               = Some 8) by (vm_compute; reflexivity).
  destruct (advance_asteroids 20 demo_random 30 one_asteroid) as [s'|] eqn:E;
    [|discriminate].
  injection Hn as Hn.
  exists s'. split; [reflexivity|]. split; [exact Hn|]. exact (Hadv 30%nat s' E).
Defined.

(** C2 at work: a new game played with [demo_random] is reachable and its
    first and last asteroids are in order. *)
Lemma reachable_sorted_witness :
  reachable 4 20 demo_random (default blank_memory (initialise_game 20 demo_random 4 blank_memory))
  /\ 0 <= 0 <= 19
  /\ 19 < numAsteroids (default blank_memory (initialise_game 20 demo_random 4 blank_memory))
  /\ GET_Y_POSITION (rd (asteroids (default blank_memory (initialise_game 20 demo_random 4 blank_memory))) 0)
     <= GET_Y_POSITION (rd (asteroids (default blank_memory (initialise_game 20 demo_random 4 blank_memory))) 19).
Proof.
  assert (Hr : reachable 4 20 demo_random (default blank_memory (initialise_game 20 demo_random 4 blank_memory)))
    by exact new_game_reachable.
  assert (Hij : 0 <= 0 <= 19) by lia.
  assert (Hj : 19 < numAsteroids (default blank_memory (initialise_game 20 demo_random 4 blank_memory)))
    by (vm_compute; reflexivity).
  split; [exact Hr|]. split; [exact Hij|]. split; [exact Hj|].
  exact (reachable_sorted 4 20 demo_random _ Hr 0 19 Hij Hj).
Defined.

(** C3, as stated, fails. With the top row full and fewer than
    MAX_ASTEROIDS asteroids, a call for the top row makes 129 attempts, two
    calls of random() each, before it gives up, changing nothing else.  And
    with an asteroid at (0,15) and a random() that turns from 0 to 1 after
    256 calls, the first 128 attempts fail and the attempt number 129 finds
    (1,15) free and appends it. *)
Lemma spawn_makes_129_attempts :
  add_asteroid_in_rows 20 demo_random 15 top_row_full
    = set_rand_calls (2 * 129) top_row_full
  /\ first_free late_random (live_asteroids top_left_asteroid) 15 0 128 = None
  /\ rand_calls (add_asteroid_in_rows 20 late_random 15 top_left_asteroid) = (2 * 129)%nat
  /\ live_asteroids (add_asteroid_in_rows 20 late_random 15 top_left_asteroid)
     = [GAME_POSITION 0 15; GAME_POSITION 1 15].
Proof. vm_compute. repeat split. Qed.

(** C4 at work: in a new game played with [demo_random] the first two
    asteroids are at different positions. *)
Lemma reachable_no_duplicates_witness :
  reachable 4 20 demo_random (default blank_memory (initialise_game 20 demo_random 4 blank_memory))
  /\ (rd (asteroids (default blank_memory (initialise_game 20 demo_random 4 blank_memory))) 0
      = rd (asteroids (default blank_memory (initialise_game 20 demo_random 4 blank_memory))) 1 -> 0 = 1).
Proof.
  assert (Hr : reachable 4 20 demo_random (default blank_memory (initialise_game 20 demo_random 4 blank_memory)))
    by exact new_game_reachable.
  split; [exact Hr|].
  apply (proj1 (reachable_no_duplicates 4 20 demo_random _ Hr)); vm_compute; split; congruence.
Defined.

(** C5 at work, on the game with one asteroid at (3,2). *)
Lemma fire_resolves_immediate_hit_witness :
  wf 4 20 one_asteroid /\ 0 < 4
  /\ basePosition one_asteroid = 3 /\ numProjectiles one_asteroid = 0
  /\ numAsteroids one_asteroid = 1 /\ rd (asteroids one_asteroid) 0 = GAME_POSITION 3 2
  /\ snd (fire_projectile 4 one_asteroid) = 1
  /\ numProjectiles (fst (fire_projectile 4 one_asteroid)) = 0
  /\ numAsteroids (fst (fire_projectile 4 one_asteroid)) = 0
  /\ asteroid_at 3 2 (fst (fire_projectile 4 one_asteroid)) = -1
  /\ score (fst (fire_projectile 4 one_asteroid)) = score one_asteroid + 1.
Proof.
  split; [exact one_asteroid_wf|]. split; [lia|].
  split; [reflexivity|]. split; [reflexivity|]. split; [reflexivity|]. split; [reflexivity|].
  apply (fire_resolves_immediate_hit 4 20 one_asteroid one_asteroid_wf); reflexivity || lia.
Defined.

(** C6 at work: in the game of [three_each] two cells of the base, (3,1)
    and (2,0), hold an asteroid. *)
Lemma check_all_base_hits_penalty_witness :
  fits (numAsteroids three_each) (asteroids three_each)
  /\ -128 <= basePosition three_each < 128
  /\ base_hits three_each = 2
  /\ lives (check_all_base_hits three_each) = lives three_each - base_hits three_each
  /\ numAsteroids (check_all_base_hits three_each)
     = numAsteroids three_each - base_hits three_each.
Proof.
  assert (Hf : fits (numAsteroids three_each) (asteroids three_each))
    by (apply fitsb_fits; reflexivity).
  assert (Hb : -128 <= basePosition three_each < 128) by (cbn; lia).
  destruct (check_all_base_hits_penalty three_each Hf Hb) as (Hl & Hn & _).
  split; [exact Hf|]. split; [exact Hb|]. split; [vm_compute; reflexivity|].
  split; [exact Hl | exact Hn].
Defined.

(** C7 at work: the base of [blank_memory] is at 0 and does not go left;
    that of [one_asteroid] is at 3 and goes right, to 4. *)
Lemma move_base_bounds_witness :
  (4 <= 4)%nat
  /\ 0 <= basePosition blank_memory <= FIELD_WIDTH - 1
  /\ (MOVE_LEFT = MOVE_LEFT \/ MOVE_LEFT = MOVE_RIGHT)
  /\ move_base 4 MOVE_LEFT blank_memory = Some (blank_memory, 0)
  /\ 0 <= basePosition one_asteroid <= FIELD_WIDTH - 1
  /\ (MOVE_RIGHT = MOVE_LEFT \/ MOVE_RIGHT = MOVE_RIGHT)
  /\ exists s', move_base 4 MOVE_RIGHT one_asteroid = Some (s', 1) /\ basePosition s' = 4.
Proof.
  assert (Hfuel : (4 <= 4)%nat) by lia.
  assert (H0 : 0 <= basePosition blank_memory <= FIELD_WIDTH - 1) by (unfold FIELD_WIDTH; cbn; lia).
  assert (H3 : 0 <= basePosition one_asteroid <= FIELD_WIDTH - 1) by (unfold FIELD_WIDTH; cbn; lia).
  destruct (move_base_bounds 4 blank_memory MOVE_LEFT Hfuel H0 (or_introl eq_refl))
    as (s0' & moved0 & _ & _ & Hrej & _).
  destruct (move_base_bounds 4 one_asteroid MOVE_RIGHT Hfuel H3 (or_intror eq_refl))
    as (s' & moved & Hmove & _ & _ & Hacc).
  split; [exact Hfuel|]. split; [exact H0|]. split; [left; reflexivity|].
  split; [apply Hrej; left; split; reflexivity|].
  split; [exact H3|]. split; [right; reflexivity|].
  assert (Hnot : ~ ((basePosition one_asteroid = 0 /\ MOVE_RIGHT = MOVE_LEFT)
                    \/ (basePosition one_asteroid = FIELD_WIDTH - 1 /\ MOVE_RIGHT = MOVE_RIGHT))).
  { intros [[H _] | [H _]]; cbn in H; discriminate. }
  destruct (Hacc Hnot) as (Hr & Hb & _). rewrite Hr in Hmove.
  exists s'. split; [exact Hmove | exact Hb].
Defined.

(** C8 at work: the game of [three_each] has room for a fourth projectile
    and none at (3,2). *)
Lemma fire_projectile_guard_witness :
  fits (numProjectiles three_each) (projectiles three_each)
  /\ snd (fire_projectile 4 three_each) = 1.
Proof.
  assert (Hf : fits (numProjectiles three_each) (projectiles three_each))
    by (apply fitsb_fits; reflexivity).
  split; [exact Hf|].
  apply (proj1 (fire_projectile_guard 4 three_each Hf)). split; [cbn; lia|].
  vm_compute. intros H. repeat (apply elem_of_cons in H as [H | H]; [discriminate|]).
  inversion H.
Defined.

(** C9 at work: removing the asteroid and the projectile number 1 of the
    game of [three_each]. *)
Lemma remove_by_index_witness :
  fits (numAsteroids three_each) (asteroids three_each)
  /\ fits (numProjectiles three_each) (projectiles three_each)
  /\ -128 <= 1 < 128
  /\ live_asteroids (remove_asteroid 1 three_each) = delete 1%nat (live_asteroids three_each)
  /\ live_projectiles (remove_projectile 1 three_each) = delete 1%nat (live_projectiles three_each).
Proof.
  assert (Hfa : fits (numAsteroids three_each) (asteroids three_each))
    by (apply fitsb_fits; reflexivity).
  assert (Hfp : fits (numProjectiles three_each) (projectiles three_each))
    by (apply fitsb_fits; reflexivity).
  assert (Hi : -128 <= 1 < 128) by lia.
  destruct (remove_by_index three_each 1 Hfa Hfp Hi) as (_ & Ha & _ & Hp).
  split; [exact Hfa|]. split; [exact Hfp|]. split; [exact Hi|]. split.
  - apply Ha. cbn. lia.
  - apply Hp. cbn. lia.
Defined.

(** C10 at work: both advance operations return on the game of
    [three_each], whose base is at column 3, with four units of fuel. *)
Lemma advance_loops_terminate_witness :
  wf 4 20 three_each
  /\ -128 <= basePosition three_each < 126
  /\ is_Some (advance_projectiles 20 demo_random 4 three_each)
  /\ is_Some (advance_asteroids 20 demo_random 4 three_each).
Proof.
  assert (Hb : -128 <= basePosition three_each < 126) by (cbn; lia).
  destruct (advance_loops_terminate 4 20 demo_random three_each three_each_wf)
    as (_ & _ & Hp & _ & Ha).
  split; [exact three_each_wf|]. split; [exact Hb|].
  split; [apply Hp | apply (Ha Hb)]; cbn; lia.
Defined.

(** * The SPI driver *)

Section SpiProofs.

Variable received : nat -> Z.

(** Bytes handed over while the driver is holding bytes back go to the
    buffer, after the entries [done] already there, and nowhere else. *)
Lemma spi_send_all_buffered bytes : forall done rest d,
  Spi.buffer d = done ++ rest ->
  Spi.bufferIndex d = Z.of_nat (length done) ->
  Spi.buffering d = 1 ->
  (length bytes <= length rest)%nat ->
  (length done + length bytes <= 255)%nat ->
  Spi.send_all received bytes d
  = Spi.mkDevice (done ++ map to_uint8 bytes ++ drop (length bytes) rest)
                 (Z.of_nat (length done + length bytes)) 1 (Spi.sent d).
Proof.
  induction bytes as [|b bytes IH]; intros done rest d Hbuf Hidx Hon Hroom Hcap.
  - unfold Spi.send_all. cbn [fold_left length map app drop]. rewrite Nat.add_0_r.
    change (drop 0 rest) with rest. rewrite <- Hbuf, <- Hidx, <- Hon.
    destruct d; reflexivity.
  - cbn [length] in Hroom, Hcap. destruct rest as [|r0 rest]; [cbn [length] in Hroom; lia|].
    cbn [length] in Hroom.
    change (Spi.send_all received (b :: bytes) d)
      with (Spi.send_all received bytes (fst (Spi.spi_send_byte received b d))).
    assert (Estep : fst (Spi.spi_send_byte received b d)
                    = Spi.mkDevice ((done ++ [to_uint8 b]) ++ rest)
                        (Z.of_nat (length (done ++ [to_uint8 b]))) 1 (Spi.sent d)).
    { unfold Spi.spi_send_byte. cbv zeta. rewrite Hon. cbn [Z.eqb fst].
      unfold Spi.set_bufferIndex, Spi.set_buffer.
      cbn [Spi.buffer Spi.bufferIndex Spi.buffering Spi.sent].
      rewrite Hbuf, Hidx, (wr_app_middle done r0 rest) by reflexivity.
      rewrite (to_uint8_small (Z.of_nat (length done) + 1)) by lia.
      rewrite Hon, <- app_assoc, length_app.
      cbn [length app]. f_equal. lia. }
    rewrite Estep.
    rewrite (IH (done ++ [to_uint8 b]) rest); try reflexivity.
    + cbn [Spi.sent length map drop]. rewrite <- app_assoc, length_app. cbn [length app].
      f_equal. lia.
    + lia.
    + rewrite length_app. cbn [length]. lia.
Qed.

(** The loop of [flush_spi_buffer] over the entries [todo] that follow the
    entries [pre]: each is sent and its place is zeroed. *)
Lemma spi_flush_loop todo : forall pre rest d,
  Spi.buffer d = pre ++ todo ++ rest ->
  for_loop (length todo) (Z.of_nat (length pre))
    (fun i d =>
       let d := fst (Spi.real_spi_send_byte received (rd (Spi.buffer d) i) d) in
       Spi.set_buffer (wr (Spi.buffer d) i 0) d) d
  = Spi.mkDevice (pre ++ repeat 0 (length todo) ++ rest) (Spi.bufferIndex d)
                 (Spi.buffering d) (rev (map to_uint8 todo) ++ Spi.sent d).
Proof.
  induction todo as [|x todo IH]; intros pre rest d Hbuf.
  - cbn [length for_loop repeat map rev app] in *. rewrite <- Hbuf. destruct d; reflexivity.
  - cbn [length for_loop]. cbv zeta.
    unfold Spi.real_spi_send_byte at 2. cbv zeta. cbn [fst].
    unfold Spi.real_spi_send_byte. cbv zeta. cbn [fst].
    unfold Spi.set_buffer. cbn [Spi.buffer Spi.bufferIndex Spi.buffering Spi.sent].
    rewrite Hbuf. cbn [app].
    rewrite (rd_app_middle pre x (todo ++ rest)) by reflexivity.
    rewrite (wr_app_middle pre x (todo ++ rest)) by reflexivity.
    replace (Z.of_nat (length pre) + 1) with (Z.of_nat (length (pre ++ [0])))
      by (rewrite length_app; cbn [length]; lia).
    rewrite (IH (pre ++ [0]) rest) by (cbn [Spi.buffer]; rewrite <- app_assoc; reflexivity).
    cbn [Spi.buffer Spi.bufferIndex Spi.buffering Spi.sent map rev repeat].
    rewrite <- !app_assoc. reflexivity.
Qed.

(** X16. Buffering is a round trip: after [start_spi_buffer], up to 255
    bytes handed to [spi_send_byte] are held back, nothing is transmitted
    and the index counts them; [flush_spi_buffer] then transmits exactly
    those bytes, in the order they were handed over, zeroes the entries it
    used, leaves the rest of the buffer alone and switches buffering
    off. *)
Theorem spi_buffer_round_trip bytes d :
  length (Spi.buffer d) = 255%nat -> (length bytes <= 255)%nat ->
  let d1 := Spi.send_all received bytes (Spi.start_spi_buffer d) in
  let d2 := Spi.flush_spi_buffer received d1 in
  Spi.sent d1 = Spi.sent d
  /\ Spi.bufferIndex d1 = Z.of_nat (length bytes)
  /\ Spi.buffering d1 = 1
  /\ Spi.sent d2 = rev (map to_uint8 bytes) ++ Spi.sent d
  /\ Spi.buffering d2 = 0
  /\ Spi.bufferIndex d2 = 0
  /\ Spi.buffer d2 = repeat 0 (length bytes) ++ drop (length bytes) (Spi.buffer d).
Proof.
  intros Hlen Hn d1 d2.
  assert (E1 : d1 = Spi.mkDevice (map to_uint8 bytes ++ drop (length bytes) (Spi.buffer d))
                      (Z.of_nat (length bytes)) 1 (Spi.sent d)).
  { subst d1.
    rewrite (spi_send_all_buffered bytes [] (Spi.buffer d)); try reflexivity; try lia.
    cbn [length]. lia. }
  assert (E2 : d2 = Spi.mkDevice (repeat 0 (length bytes) ++ drop (length bytes) (Spi.buffer d))
                      0 0 (rev (map to_uint8 bytes) ++ Spi.sent d)).
  { subst d2. rewrite E1. unfold Spi.flush_spi_buffer, for_range. cbv zeta.
    cbn [Spi.bufferIndex]. rewrite Z.sub_0_r, Nat2Z.id.
    pose proof (spi_flush_loop (map to_uint8 bytes) [] (drop (length bytes) (Spi.buffer d))
                  (Spi.mkDevice (map to_uint8 bytes ++ drop (length bytes) (Spi.buffer d))
                     (Z.of_nat (length bytes)) 1 (Spi.sent d)) eq_refl) as Hloop.
    rewrite length_map in Hloop. cbn [length app] in Hloop. change (Z.of_nat 0) with 0 in Hloop.
    rewrite Hloop. unfold Spi.set_bufferIndex, Spi.set_buffering.
    cbn [Spi.buffer Spi.bufferIndex Spi.buffering Spi.sent].
    rewrite map_map. f_equal. f_equal. f_equal. apply map_ext. intros b. apply to_uint8_idem. }
  rewrite E2, E1. cbn [Spi.buffer Spi.bufferIndex Spi.buffering Spi.sent].
  split_and!; reflexivity.
Qed.

(** X17. Whatever the state of the driver, [flush_spi_buffer] leaves it
    unbuffered with an empty index: a second flush changes nothing, and a
    byte handed to [spi_send_byte] afterwards is transmitted at once, the
    buffer staying as it is, and the value returned is what the other end
    shifted back. *)
Theorem spi_flush_then_send byte d :
  let d2 := Spi.flush_spi_buffer received d in
  Spi.buffering d2 = 0 /\ Spi.bufferIndex d2 = 0
  /\ Spi.flush_spi_buffer received d2 = d2
  /\ Spi.spi_send_byte received byte d2
     = (Spi.mkDevice (Spi.buffer d2) 0 0 (to_uint8 byte :: Spi.sent d2),
        to_uint8 (received (length (Spi.sent d2)))).
Proof.
  cbv zeta.
  assert (E : exists b l, Spi.flush_spi_buffer received d = Spi.mkDevice b 0 0 l).
  { unfold Spi.flush_spi_buffer. cbv zeta. eexists _, _. reflexivity. }
  destruct E as (b & l & ->). cbn [Spi.buffer Spi.bufferIndex Spi.buffering Spi.sent].
  split_and!; try reflexivity.
  unfold Spi.spi_send_byte, Spi.real_spi_send_byte. cbv zeta.
  cbn [Spi.buffer Spi.bufferIndex Spi.buffering Spi.sent Z.eqb].
  rewrite to_uint8_idem. reflexivity.
Qed.

End SpiProofs.

(** ** Setting the SPI master up *)

Lemma testbit_uint8 x k : 0 <= k < 8 -> Z.testbit (to_uint8 x) k = Z.testbit x k.
Proof.
  intros Hk. unfold to_uint8. change 256 with (2 ^ 8).
  apply Z.mod_pow2_bits_low. lia.
Qed.

Lemma testbit_one_bit b k : 0 <= b -> Z.testbit (Z.shiftl 1 b) k = (b =? k).
Proof. intros Hb. rewrite Z.shiftl_1_l. apply Z.pow2_bits_eqb, Hb. Qed.

Section SpiSetup.

Variables SPE0 MSTR0 SPR00 SPR10 SPI2X0 : Z.

(** What [spi_setup_master] leaves in the two port registers does not
    depend on the divider. *)
Lemma spi_setup_master_ports clockdivider r :
  Spi.DDRB (Spi.spi_setup_master SPE0 MSTR0 SPR00 SPR10 SPI2X0 clockdivider r)
  = to_uint8 (Z.lor (Spi.DDRB r) (Z.lor (Z.lor (Z.shiftl 1 4) (Z.shiftl 1 5)) (Z.shiftl 1 7)))
  /\ Spi.PORTB (Spi.spi_setup_master SPE0 MSTR0 SPR00 SPR10 SPI2X0 clockdivider r)
     = to_uint8 (Z.land (to_uint8 (Z.lor (Spi.PORTB r) (Z.shiftl 1 4))) (Z.lnot (Z.shiftl 1 4))).
Proof.
  unfold Spi.spi_setup_master. cbv zeta.
  destruct (_ || _ || _); destruct (_ =? 128); try destruct (_ || _); try destruct (_ || _);
    split; reflexivity.
Qed.

(** X18. [spi_setup_master] makes the pins 4, 5 and 7 of port B outputs
    and leaves the slave-select line, pin 4, low; it changes no other bit
    of the direction register or of the port, whatever the divider. *)
Theorem spi_setup_master_pins clockdivider r n :
  0 <= Spi.DDRB r < 256 -> 0 <= Spi.PORTB r < 256 -> 0 <= n < 8 ->
  Z.testbit (Spi.DDRB (Spi.spi_setup_master SPE0 MSTR0 SPR00 SPR10 SPI2X0 clockdivider r)) n
  = (if bool_decide (n ∈ [4; 5; 7]) then true else Z.testbit (Spi.DDRB r) n)
  /\ Z.testbit (Spi.PORTB (Spi.spi_setup_master SPE0 MSTR0 SPR00 SPR10 SPI2X0 clockdivider r)) n
     = (if n =? 4 then false else Z.testbit (Spi.PORTB r) n)
  /\ 0 <= Spi.DDRB (Spi.spi_setup_master SPE0 MSTR0 SPR00 SPR10 SPI2X0 clockdivider r) < 256
  /\ 0 <= Spi.PORTB (Spi.spi_setup_master SPE0 MSTR0 SPR00 SPR10 SPI2X0 clockdivider r) < 256.
Proof.
  intros Hd Hp Hn. destruct (spi_setup_master_ports clockdivider r) as [-> ->].
  split_and!; try apply to_uint8_range.
  - rewrite testbit_uint8, !Z.lor_spec, !testbit_one_bit by lia.
    assert (Hcases : n = 0 \/ n = 1 \/ n = 2 \/ n = 3 \/ n = 4 \/ n = 5 \/ n = 6 \/ n = 7) by lia.
    destruct Hcases as [-> | [-> | [-> | [-> | [-> | [-> | [-> | ->]]]]]]];
      cbn [Z.eqb Pos.eqb orb]; rewrite ?orb_false_r, ?orb_true_r; reflexivity.
  - rewrite testbit_uint8, Z.land_spec, testbit_uint8, Z.lor_spec, Z.lnot_spec,
      !testbit_one_bit by lia.
    destruct (Z.eqb_spec 4 n) as [<- | Hne].
    + cbn. apply andb_false_r.
    + destruct (Z.eqb_spec n 4); [lia|]. cbn [negb]. rewrite orb_false_r, andb_true_r.
      reflexivity.
Qed.

Hypothesis bits_in_range :
  0 <= SPE0 < 8 /\ 0 <= MSTR0 < 8 /\ 0 <= SPR00 < 8 /\ 0 <= SPR10 < 8 /\ 0 <= SPI2X0 < 8.
Hypothesis bits_distinct :
  SPR00 <> SPR10 /\ SPR00 <> SPE0 /\ SPR00 <> MSTR0 /\ SPR10 <> SPE0 /\ SPR10 <> MSTR0.

(** The clock bits [spi_setup_master] leaves, divider by divider. *)
Lemma spi_clock_table clockdivider r :
  let d := to_uint8 clockdivider in
  Spi.clock_bits SPR00 SPR10 SPI2X0 (Spi.spi_setup_master SPE0 MSTR0 SPR00 SPR10 SPI2X0 clockdivider r)
  = ((d =? 2) || (d =? 8) || (d =? 32),
     (d =? 128) || (d =? 32) || (d =? 64),
     (d =? 128) || (d =? 8) || (d =? 16))
  /\ Z.testbit (Spi.SPCR0 (Spi.spi_setup_master SPE0 MSTR0 SPR00 SPR10 SPI2X0 clockdivider r)) SPE0 = true
  /\ Z.testbit (Spi.SPCR0 (Spi.spi_setup_master SPE0 MSTR0 SPR00 SPR10 SPI2X0 clockdivider r)) MSTR0 = true.
Proof.
  destruct bits_in_range as (H1 & H2 & H3 & H4 & H5).
  destruct bits_distinct as (D1 & D2 & D3 & D4 & D5).
  cbv zeta. unfold Spi.clock_bits, Spi.spi_setup_master. cbv zeta.
  set (d := to_uint8 clockdivider).
  assert (Hne : forall a b, a <> b -> (a =? b) = false) by (intros; apply Z.eqb_neq; assumption).
  destruct (d =? 2) eqn:E2; destruct (d =? 8) eqn:E8; destruct (d =? 32) eqn:E32;
    destruct (d =? 128) eqn:E128; destruct (d =? 64) eqn:E64; destruct (d =? 16) eqn:E16;
    try (apply Z.eqb_eq in E2); try (apply Z.eqb_eq in E8); try (apply Z.eqb_eq in E32);
    try (apply Z.eqb_eq in E128); try (apply Z.eqb_eq in E64); try (apply Z.eqb_eq in E16);
    try lia;
    cbn [orb]; unfold Spi.set_SPCR0, Spi.set_SPSR0, Spi.set_PORTB, Spi.set_DDRB;
    cbn [Spi.SPCR0 Spi.SPSR0 Spi.PORTB Spi.DDRB];
    rewrite ?testbit_uint8, ?Z.lor_spec, ?testbit_uint8, ?Z.lor_spec, ?testbit_uint8,
      ?Z.lor_spec, ?testbit_one_bit, ?Z.bits_0, ?Z.eqb_refl by lia;
    rewrite ?(Hne SPR00 SPR10), ?(Hne SPR10 SPR00), ?(Hne SPE0 SPR00), ?(Hne SPE0 SPR10),
      ?(Hne MSTR0 SPR00), ?(Hne MSTR0 SPR10) by congruence;
    rewrite ?orb_true_r, ?orb_false_r; cbn [orb];
    split_and!; reflexivity.
Qed.

(** X19. The clock selection of [spi_setup_master]: the SPI is enabled as
    a master for every divider; the seven dividers 2, 4, 8, 16, 32, 64 and
    128 get seven different settings of the three clock bits; and every
    other value gets the setting of the divider 4, with none of the three
    bits set. *)
Theorem spi_setup_master_clock r :
  (forall d, Z.testbit (Spi.SPCR0 (Spi.spi_setup_master SPE0 MSTR0 SPR00 SPR10 SPI2X0 d r)) SPE0 = true
             /\ Z.testbit (Spi.SPCR0 (Spi.spi_setup_master SPE0 MSTR0 SPR00 SPR10 SPI2X0 d r)) MSTR0 = true)
  /\ (forall d1 d2, d1 ∈ Spi.supported_dividers -> d2 ∈ Spi.supported_dividers ->
        Spi.clock_bits SPR00 SPR10 SPI2X0 (Spi.spi_setup_master SPE0 MSTR0 SPR00 SPR10 SPI2X0 d1 r) = Spi.clock_bits SPR00 SPR10 SPI2X0 (Spi.spi_setup_master SPE0 MSTR0 SPR00 SPR10 SPI2X0 d2 r) -> d1 = d2)
  /\ (forall d, (to_uint8 d ∉ Spi.supported_dividers) ->
        Spi.clock_bits SPR00 SPR10 SPI2X0 (Spi.spi_setup_master SPE0 MSTR0 SPR00 SPR10 SPI2X0 d r) = (false, false, false)
        /\ Spi.clock_bits SPR00 SPR10 SPI2X0 (Spi.spi_setup_master SPE0 MSTR0 SPR00 SPR10 SPI2X0 d r) = Spi.clock_bits SPR00 SPR10 SPI2X0 (Spi.spi_setup_master SPE0 MSTR0 SPR00 SPR10 SPI2X0 4 r)).
Proof.
  split_and!.
  - intros d. destruct (spi_clock_table d r) as (_ & Hs & Hm). split; assumption.
  - intros d1 d2 H1 H2 Heq.
    destruct (spi_clock_table d1 r) as (E1 & _). destruct (spi_clock_table d2 r) as (E2 & _).
    rewrite E1, E2 in Heq. clear E1 E2. unfold Spi.supported_dividers in *.
    repeat (apply elem_of_cons in H1 as [-> | H1]);
      [.. | apply elem_of_nil in H1; contradiction];
      (repeat (apply elem_of_cons in H2 as [-> | H2]);
       [.. | apply elem_of_nil in H2; contradiction]);
      first [reflexivity | vm_compute in Heq; discriminate].
  - intros d Hd. destruct (spi_clock_table d r) as (E1 & _).
    destruct (spi_clock_table 4 r) as (E4 & _). rewrite E1, E4. clear E1 E4.
    unfold Spi.supported_dividers in Hd.
    assert (Hne : forall v, v ∈ [2; 4; 8; 16; 32; 64; 128] -> (to_uint8 d =? v) = false).
    { intros v Hv. apply Z.eqb_neq. intros <-. contradiction. }
    rewrite !Hne by (rewrite !elem_of_cons; repeat first [left; reflexivity | right]).
    split; reflexivity.
Qed.

End SpiSetup.

(** * Terminal control *)

Lemma string_length_app (s1 s2 : string) :
  String.length (s1 +:+ s2) = (String.length s1 + String.length s2)%nat.
Proof.
  induction s1 as [|c s1 IH]; [reflexivity|].
  change (S (String.length (s1 +:+ s2)) = S (String.length s1 + String.length s2)).
  rewrite IH. reflexivity.
Qed.

(** A byte printed with %d takes one, two or three characters. *)
Lemma decimal_digits v :
  0 <= v < 256 -> Z.of_nat (String.length (Terminal.decimal v)) = Terminal.digits v.
Proof.
  intros Hv. apply Z.eqb_eq.
  apply (forall_bytes (fun v =>
           Z.of_nat (String.length (Terminal.decimal v)) =? Terminal.digits v)); [|exact Hv].
  vm_compute. reflexivity.
Qed.

(** X20. [s_move_cursor] writes the escape sequence that moves the cursor
    to the row and column given, as bytes, and returns its length as long as
    both are below 100; for each of the two that is 100 or more the value
    returned is one short of the number of characters written. *)
Theorem s_move_cursor_length x y :
  let written := fst (Terminal.s_move_cursor x y) in
  let returned := snd (Terminal.s_move_cursor x y) in
  written = Terminal.ESC +:+ "[" +:+ Terminal.decimal (to_uint8 y) +:+ ";"
            +:+ Terminal.decimal (to_uint8 x) +:+ "H"
  /\ Z.of_nat (String.length written)
     = 4 + Terminal.digits (to_uint8 x) + Terminal.digits (to_uint8 y)
  /\ Z.of_nat (String.length written)
     = returned + (if to_uint8 x >=? 100 then 1 else 0) + (if to_uint8 y >=? 100 then 1 else 0)
  /\ (to_uint8 x < 100 -> to_uint8 y < 100 -> returned = Z.of_nat (String.length written))
  /\ 6 <= returned <= 8.
Proof.
  cbv zeta. unfold Terminal.s_move_cursor. cbv zeta. cbn [fst snd].
  pose proof (to_uint8_range x) as Hx. pose proof (to_uint8_range y) as Hy.
  set (x8 := to_uint8 x) in *. set (y8 := to_uint8 y) in *.
  assert (Hlen : Z.of_nat (String.length
                   (Terminal.ESC +:+ "[" +:+ Terminal.decimal y8 +:+ ";"
                    +:+ Terminal.decimal x8 +:+ "H"))
                 = 4 + Terminal.digits x8 + Terminal.digits y8).
  { rewrite !string_length_app. rewrite !Nat2Z.inj_add, !decimal_digits by assumption.
    cbn. lia. }
  assert (Hret : to_uint8 (6 + (if y8 >=? 10 then 1 else 0) + (if x8 >=? 10 then 1 else 0))
                 = 6 + (if y8 >=? 10 then 1 else 0) + (if x8 >=? 10 then 1 else 0)).
  { apply to_uint8_small. destruct (y8 >=? 10), (x8 >=? 10); lia. }
  rewrite Hret, Hlen. unfold Terminal.digits.
  destruct (Z.geb_spec x8 10), (Z.geb_spec y8 10), (Z.geb_spec x8 100), (Z.geb_spec y8 100);
    split_and!; try reflexivity; lia.
Qed.

(** X21. [s_fast_set_display_attr] remembers the mode it wrote last: asked
    for that mode again it writes nothing and returns 0; asked for another
    one it writes the escape sequence of the mode, remembers it and, for a
    mode from 0 to 99, returns the length of what it wrote.  It leaves the
    mode of the unbuffered routines and the output alone.  After
    [s_invalidate_mode] every mode but 50 is written again. *)
Theorem s_fast_set_display_attr_cached mode t :
  let r := Terminal.s_fast_set_display_attr mode t in
  let t1 := fst (fst r) in
  Terminal.sCurrentMode t1 = mode
  /\ Terminal.currentMode t1 = Terminal.currentMode t
  /\ Terminal.stdout t1 = Terminal.stdout t
  /\ (Terminal.sCurrentMode t = mode -> r = (t, None, 0))
  /\ (Terminal.sCurrentMode t <> mode ->
        snd (fst r) = Some (Terminal.ESC +:+ "[" +:+ Terminal.decimal mode +:+ "m")
        /\ (0 <= mode < 100 ->
              snd r = Z.of_nat (String.length
                        (Terminal.ESC +:+ "[" +:+ Terminal.decimal mode +:+ "m"))))
  /\ Terminal.s_fast_set_display_attr mode t1 = (t1, None, 0)
  /\ (mode <> 50 ->
        snd (fst (Terminal.s_fast_set_display_attr mode (Terminal.s_invalidate_mode t)))
        = Some (Terminal.ESC +:+ "[" +:+ Terminal.decimal mode +:+ "m")).
Proof.
  cbv zeta.
  assert (E : Terminal.s_fast_set_display_attr mode t
              = if Terminal.sCurrentMode t =? mode then (t, None, 0)
                else (Terminal.set_sCurrentMode mode t,
                      Some (Terminal.ESC +:+ "[" +:+ Terminal.decimal mode +:+ "m"),
                      to_uint8 (4 + (if mode >=? 10 then 1 else 0)))) by reflexivity.
  rewrite E. clear E.
  destruct (Z.eqb_spec (Terminal.sCurrentMode t) mode) as [Heq | Hne]; cbn [fst snd].
  - split_and!; try reflexivity; try assumption.
    + intros Hc. contradiction.
    + unfold Terminal.s_fast_set_display_attr. rewrite Heq, Z.eqb_refl. reflexivity.
    + intros H50. unfold Terminal.s_fast_set_display_attr, Terminal.s_invalidate_mode.
      cbn [Terminal.sCurrentMode Terminal.set_sCurrentMode Terminal.set_currentMode].
      destruct (Z.eqb_spec 50 mode); [lia | reflexivity].
  - split_and!; try reflexivity.
    + intros Hc. contradiction.
    + intros _. split; [reflexivity|]. intros Hm.
      rewrite !string_length_app, !Nat2Z.inj_add.
      assert (Hd : Z.of_nat (String.length (Terminal.decimal mode)) = Terminal.digits mode)
        by (apply decimal_digits; lia).
      rewrite Hd. unfold Terminal.digits.
      destruct (Z.geb_spec mode 10), (Z.geb_spec mode 100); try lia;
        cbn; rewrite to_uint8_small; lia.
    + unfold Terminal.s_fast_set_display_attr.
      cbn [Terminal.sCurrentMode Terminal.set_sCurrentMode]. rewrite Z.eqb_refl. reflexivity.
    + intros H50. unfold Terminal.s_fast_set_display_attr, Terminal.s_invalidate_mode.
      cbn [Terminal.sCurrentMode Terminal.set_sCurrentMode Terminal.set_currentMode].
      destruct (Z.eqb_spec 50 mode); [lia | reflexivity].
Qed.

(** X22. [fast_set_display_attribute] prints the escape sequence of a mode
    only when the mode differs from the current one, and leaves the mode
    current: asked again, or asked after [set_display_attribute] for the
    same mode, it prints nothing.  After [s_invalidate_mode] every mode but
    50 is printed again.  The mode of the buffered routines is left
    alone. *)
Theorem fast_set_display_attribute_cached mode t :
  let t1 := Terminal.fast_set_display_attribute mode t in
  let sequence := Terminal.ESC +:+ "[" +:+ Terminal.decimal mode +:+ "m" in
  Terminal.currentMode t1 = mode
  /\ Terminal.sCurrentMode t1 = Terminal.sCurrentMode t
  /\ (Terminal.currentMode t = mode -> t1 = t)
  /\ (Terminal.currentMode t <> mode -> Terminal.stdout t1 = sequence :: Terminal.stdout t)
  /\ Terminal.fast_set_display_attribute mode t1 = t1
  /\ Terminal.fast_set_display_attribute mode (Terminal.set_display_attribute mode t)
     = Terminal.set_display_attribute mode t
  /\ (mode <> 50 ->
        Terminal.stdout (Terminal.fast_set_display_attribute mode (Terminal.s_invalidate_mode t))
        = sequence :: Terminal.stdout t).
Proof.
  cbv zeta.
  assert (E : Terminal.fast_set_display_attribute mode t
              = if negb (mode =? Terminal.currentMode t)
                then Terminal.set_currentMode mode (Terminal.set_display_attribute mode t)
                else t) by reflexivity.
  rewrite E. clear E.
  destruct (Z.eqb_spec mode (Terminal.currentMode t)) as [Heq | Hne]; cbn [negb].
  - split_and!; try reflexivity; try (symmetry; assumption).
    + intros Hc. symmetry in Heq. contradiction.
    + unfold Terminal.fast_set_display_attribute. rewrite <- Heq, Z.eqb_refl. reflexivity.
    + unfold Terminal.fast_set_display_attribute, Terminal.set_display_attribute.
      cbn [Terminal.currentMode Terminal.set_currentMode Terminal.printf].
      rewrite Z.eqb_refl. reflexivity.
    + intros H50. unfold Terminal.fast_set_display_attribute, Terminal.s_invalidate_mode.
      cbn [Terminal.currentMode Terminal.set_sCurrentMode Terminal.set_currentMode].
      destruct (Z.eqb_spec mode 50); [lia | reflexivity].
  - split_and!; try reflexivity.
    + intros Hc. symmetry in Hc. contradiction.
    + unfold Terminal.fast_set_display_attribute.
      cbn [Terminal.currentMode Terminal.set_currentMode]. rewrite Z.eqb_refl. reflexivity.
    + unfold Terminal.fast_set_display_attribute, Terminal.set_display_attribute.
      cbn [Terminal.currentMode Terminal.set_currentMode Terminal.printf].
      rewrite Z.eqb_refl. reflexivity.
    + intros H50. unfold Terminal.fast_set_display_attribute, Terminal.s_invalidate_mode.
      cbn [Terminal.currentMode Terminal.set_sCurrentMode Terminal.set_currentMode].
      destruct (Z.eqb_spec mode 50); [lia | reflexivity].
Qed.

(** ** Lines and rectangles *)

Lemma repeat_app_cons {A : Type} (x : A) n (l : list A) :
  repeat x n ++ x :: l = x :: repeat x n ++ l.
Proof. induction n as [|n IH]; [reflexivity|]. cbn [repeat app]. rewrite IH. reflexivity. Qed.

Lemma side_app_cons n (l : list string) :
  Terminal.side n ++ Terminal.down_left :: " " :: l
  = Terminal.down_left :: " " :: Terminal.side n ++ l.
Proof.
  induction n as [|n IH]; [reflexivity|].
  unfold Terminal.side in *. cbn [repeat List.concat app]. rewrite IH. reflexivity.
Qed.

(** The loop of [draw_horizontal_line] ends when its last column is below
    127, after one space per column. *)
Lemma line_loop_returns n : forall fuel i last t,
  -128 <= i -> last < 127 -> n = Z.to_nat (last - i + 1) -> (n < fuel)%nat ->
  Terminal.line_loop fuel i last t
  = Some (Terminal.mkTerm (Terminal.currentMode t) (Terminal.sCurrentMode t)
            (repeat " " n ++ Terminal.stdout t)).
Proof.
  induction n as [|n IH]; intros fuel i last t Hi Hlast Hn Hfuel;
    (destruct fuel as [|fuel]; [lia|]); cbn [Terminal.line_loop].
  - destruct (Z.leb_spec i last); [lia|]. destruct t; reflexivity.
  - destruct (Z.leb_spec i last); [|lia].
    rewrite to_int8_small by lia.
    rewrite (IH fuel (i + 1) last) by lia.
    cbn [Terminal.printf Terminal.currentMode Terminal.sCurrentMode Terminal.stdout repeat app].
    rewrite repeat_app_cons. reflexivity.
Qed.

(** It never ends when the last column is 127, the largest int8_t. *)
Lemma line_loop_diverges fuel : forall i t,
  -128 <= i < 128 -> Terminal.line_loop fuel i 127 t = None.
Proof.
  induction fuel as [|fuel IH]; intros i t Hi; cbn [Terminal.line_loop]; [reflexivity|].
  destruct (Z.leb_spec i 127); [|lia]. apply IH, to_int8_range.
Qed.

Lemma edge_loop_returns n : forall fuel i bound t,
  -128 <= i -> bound <= 127 -> n = Z.to_nat (bound - i) -> (n < fuel)%nat ->
  Terminal.edge_loop fuel i bound t
  = Some (Terminal.mkTerm (Terminal.currentMode t) (Terminal.sCurrentMode t)
            (repeat " " n ++ Terminal.stdout t)).
Proof.
  induction n as [|n IH]; intros fuel i bound t Hi Hbound Hn Hfuel;
    (destruct fuel as [|fuel]; [lia|]); cbn [Terminal.edge_loop].
  - destruct (Z.ltb_spec i bound); [lia|]. destruct t; reflexivity.
  - destruct (Z.ltb_spec i bound); [|lia].
    rewrite to_int8_small by lia.
    rewrite (IH fuel (i + 1) bound) by lia.
    cbn [Terminal.printf Terminal.currentMode Terminal.sCurrentMode Terminal.stdout repeat app].
    rewrite repeat_app_cons. reflexivity.
Qed.

Lemma edge_loop_diverges fuel : forall i bound t,
  -128 <= i < 128 -> 128 <= bound -> Terminal.edge_loop fuel i bound t = None.
Proof.
  induction fuel as [|fuel IH]; intros i bound t Hi Hbound; cbn [Terminal.edge_loop];
    [reflexivity|].
  destruct (Z.ltb_spec i bound); [|lia]. apply IH; [apply to_int8_range | exact Hbound].
Qed.

Lemma side_loop_returns n : forall fuel i bound t,
  -128 <= i -> bound <= 127 -> n = Z.to_nat (bound - i) -> (n < fuel)%nat ->
  Terminal.side_loop fuel i bound t
  = Some (Terminal.mkTerm (Terminal.currentMode t) (Terminal.sCurrentMode t)
            (Terminal.side n ++ Terminal.stdout t)).
Proof.
  induction n as [|n IH]; intros fuel i bound t Hi Hbound Hn Hfuel;
    (destruct fuel as [|fuel]; [lia|]); cbn [Terminal.side_loop].
  - destruct (Z.ltb_spec i bound); [lia|]. destruct t; reflexivity.
  - destruct (Z.ltb_spec i bound); [|lia].
    rewrite to_int8_small by lia.
    rewrite (IH fuel (i + 1) bound) by lia.
    cbn [Terminal.printf Terminal.currentMode Terminal.sCurrentMode Terminal.stdout].
    rewrite side_app_cons. reflexivity.
Qed.

Lemma side_loop_diverges fuel : forall i bound t,
  -128 <= i < 128 -> 128 <= bound -> Terminal.side_loop fuel i bound t = None.
Proof.
  induction fuel as [|fuel IH]; intros i bound t Hi Hbound; cbn [Terminal.side_loop];
    [reflexivity|].
  destruct (Z.ltb_spec i bound); [|lia]. apply IH; [apply to_int8_range | exact Hbound].
Qed.

(** X23. [draw_horizontal_line], for int8_t arguments with the last column
    below 127, returns after it has moved the cursor to the start of the
    line, switched to reverse video, printed one space per column from the
    first to the last, none when the last is before the first, and switched
    back to the normal mode.  With 127 for the last column it never returns:
    the counter, an int8_t, cannot pass it. *)
Theorem draw_horizontal_line_output fuel y start_x end_x t :
  -128 <= y < 128 -> -128 <= start_x < 128 -> -128 <= end_x < 127 ->
  (Z.to_nat (end_x - start_x + 1) < fuel)%nat ->
  Terminal.draw_horizontal_line fuel y start_x end_x t
  = Some (Terminal.mkTerm (Terminal.currentMode t) (Terminal.sCurrentMode t)
            ([Terminal.ESC +:+ "[0m"]
             ++ repeat " " (Z.to_nat (end_x - start_x + 1))
             ++ [Terminal.ESC +:+ "[7m";
                 Terminal.ESC +:+ "[" +:+ Terminal.decimal y +:+ ";"
                 +:+ Terminal.decimal start_x +:+ "H"]
             ++ Terminal.stdout t))
  /\ forall fuel', Terminal.draw_horizontal_line fuel' y start_x 127 t = None.
Proof.
  intros Hy Hs He Hfuel. unfold Terminal.draw_horizontal_line. cbv zeta.
  rewrite !to_int8_small by lia. split.
  - rewrite (line_loop_returns (Z.to_nat (end_x - start_x + 1))) by lia.
    cbn [Terminal.reverse_video Terminal.move_cursor Terminal.normal_display_mode Terminal.printf
         Terminal.currentMode Terminal.sCurrentMode Terminal.stdout app].
    reflexivity.
  - intros fuel'. rewrite line_loop_diverges by lia. reflexivity.
Qed.

(** X24. [draw_vertical_line], for int8_t arguments, always returns: it
    moves the cursor to the top of the line, switches to reverse video,
    prints a space followed by a move down and back for each row from the
    first to the one before the last, then a last space, and switches back
    to the normal mode. *)
Theorem draw_vertical_line_output fuel x start_y end_y t :
  -128 <= x < 128 -> -128 <= start_y < 128 -> -128 <= end_y < 128 ->
  (Z.to_nat (end_y - start_y) < fuel)%nat ->
  Terminal.draw_vertical_line fuel x start_y end_y t
  = Some (Terminal.mkTerm (Terminal.currentMode t) (Terminal.sCurrentMode t)
            ([Terminal.ESC +:+ "[0m"; " "]
             ++ Terminal.side (Z.to_nat (end_y - start_y))
             ++ [Terminal.ESC +:+ "[7m";
                 Terminal.ESC +:+ "[" +:+ Terminal.decimal start_y +:+ ";"
                 +:+ Terminal.decimal x +:+ "H"]
             ++ Terminal.stdout t)).
Proof.
  intros Hx Hs He Hfuel. unfold Terminal.draw_vertical_line. cbv zeta.
  rewrite !to_int8_small by lia.
  rewrite (side_loop_returns (Z.to_nat (end_y - start_y))) by lia.
  cbn [Terminal.reverse_video Terminal.move_cursor Terminal.normal_display_mode Terminal.printf
       Terminal.currentMode Terminal.sCurrentMode Terminal.stdout app].
  reflexivity.
Qed.

(** X25. [draw_rectangle], for a width of at most 127 and a height of at
    most 128, returns after it has printed the four sides: the top line,
    the right side, the left side and the bottom line, one space per cell,
    between the switch to reverse video and the switch back.  With a width
    of 128 or more, or a height of 129 or more, it never returns: the
    counter is an int8_t and stays below the bound. *)
Theorem draw_rectangle_output fuel start_x start_y width height t :
  0 <= start_x < 256 -> 0 <= start_y < 256 -> 0 <= width < 256 -> 0 <= height < 256 ->
  let cursor := Terminal.ESC +:+ "[" +:+ Terminal.decimal start_y +:+ ";"
                +:+ Terminal.decimal start_x +:+ "H" in
  let w := Z.to_nat width in
  let h := Z.to_nat (height - 1) in
  (width <= 127 -> height <= 128 -> (w < fuel)%nat -> (h < fuel)%nat ->
   Terminal.draw_rectangle fuel start_x start_y width height t
   = Some (Terminal.mkTerm (Terminal.currentMode t) (Terminal.sCurrentMode t)
             ([Terminal.ESC +:+ "[0m"] ++ repeat " " w ++ [Terminal.BS; " "]
              ++ Terminal.side h ++ [cursor; " "] ++ Terminal.side h
              ++ [Terminal.BS] ++ repeat " " w
              ++ [cursor; Terminal.ESC +:+ "[7m"] ++ Terminal.stdout t)))
  /\ (128 <= width \/ 129 <= height ->
      Terminal.draw_rectangle fuel start_x start_y width height t = None).
Proof.
  intros Hx Hy Hw Hh cursor w h. unfold Terminal.draw_rectangle. cbv zeta.
  rewrite !to_uint8_small by lia. split.
  - intros Hw' Hh' Hfw Hfh.
    rewrite (edge_loop_returns w) by (subst w; lia).
    cbn [Terminal.reverse_video Terminal.move_cursor Terminal.printf
         Terminal.currentMode Terminal.sCurrentMode Terminal.stdout].
    rewrite (side_loop_returns h) by (subst h; cbn [Terminal.printf]; lia).
    cbn [Terminal.printf Terminal.currentMode Terminal.sCurrentMode Terminal.stdout].
    rewrite (side_loop_returns h) by (subst h; cbn [Terminal.printf]; lia).
    cbn [Terminal.printf Terminal.currentMode Terminal.sCurrentMode Terminal.stdout].
    rewrite (edge_loop_returns w) by (subst w; lia).
    cbn [Terminal.normal_display_mode Terminal.printf
         Terminal.currentMode Terminal.sCurrentMode Terminal.stdout app].
    fold cursor. cbn [app]. rewrite <- ?app_assoc. reflexivity.
  - intros [Hwide | Htall].
    + rewrite edge_loop_diverges by lia. reflexivity.
    + destruct (Terminal.edge_loop fuel 0 width _) as [t1|]; [|reflexivity].
      rewrite side_loop_diverges by lia. reflexivity.
Qed.

(** * The further properties at work *)

Lemma demo_random_nonneg k : 0 <= demo_random k.
Proof.
  unfold demo_random.
  destruct (nth_in_or_default k demo_prefix (Z.of_nat (k / 2))) as [Hin | ->]; [|lia].
  revert Hin. generalize (nth k demo_prefix (Z.of_nat (k / 2))). intros v Hin.
  unfold demo_prefix in Hin. cbn [In] in Hin.
  repeat (destruct Hin as [<- | Hin]; [lia|]). contradiction.
Qed.

(** X1 at work: the cell (3,2) and the byte 50. *)
Lemma position_round_trip_witness :
  0 <= 3 < 16 /\ 0 <= 2 < 16 /\ 0 <= 50 < 256
  /\ GET_X_POSITION (GAME_POSITION 3 2) = 3
  /\ GET_Y_POSITION (GAME_POSITION 3 2) = 2
  /\ GAME_POSITION (GET_X_POSITION 50) (GET_Y_POSITION 50) = 50.
Proof.
  assert (Hx : 0 <= 3 < 16) by lia. assert (Hy : 0 <= 2 < 16) by lia.
  assert (Hp : 0 <= 50 < 256) by lia.
  destruct (position_round_trip 3 2 50 Hx Hy Hp) as ((_ & H1 & H2) & H3 & _).
  split_and!; first [assumption | lia].
Defined.

(** X2 at work: in the game of [three_each] the asteroid at (2,0) and the
    projectile at (2,5) are the entries number 1. *)
Lemma occupancy_first_index_witness :
  fits (numAsteroids three_each) (asteroids three_each)
  /\ fits (numProjectiles three_each) (projectiles three_each)
  /\ rd (asteroids three_each) (asteroid_at 2 0 three_each) = packed 2 0
  /\ rd (projectiles three_each) (projectile_at 2 5 three_each) = packed 2 5.
Proof.
  assert (Hfa : fits (numAsteroids three_each) (asteroids three_each))
    by (apply fitsb_fits; reflexivity).
  assert (Hfp : fits (numProjectiles three_each) (projectiles three_each))
    by (apply fitsb_fits; reflexivity).
  split; [exact Hfa|]. split; [exact Hfp|]. split.
  - destruct (occupancy_first_index three_each 2 0 Hfa Hfp) as [[[Hm _] | (_ & Hrd & _)] _];
      [vm_compute in Hm; discriminate | exact Hrd].
  - destruct (occupancy_first_index three_each 2 5 Hfa Hfp) as [_ [[Hm _] | (_ & Hrd & _)]];
      [vm_compute in Hm; discriminate | exact Hrd].
Defined.

(** X3 at work: removing what is found at (2,0) in the game of
    [three_each]. *)
Lemma remove_what_was_found_witness :
  fits (numAsteroids three_each) (asteroids three_each)
  /\ fits (numProjectiles three_each) (projectiles three_each)
  /\ live_asteroids (remove_asteroid (asteroid_at 2 0 three_each) three_each)
     = remove_first (packed 2 0) (live_asteroids three_each)
  /\ remove_projectile (projectile_at 2 0 three_each) three_each = three_each.
Proof.
  assert (Hfa : fits (numAsteroids three_each) (asteroids three_each))
    by (apply fitsb_fits; reflexivity).
  assert (Hfp : fits (numProjectiles three_each) (projectiles three_each))
    by (apply fitsb_fits; reflexivity).
  destruct (remove_what_was_found three_each 2 0 Hfa Hfp) as ((Ha & _) & (_ & Hp & _)).
  split; [exact Hfa|]. split; [exact Hfp|]. split; [exact Ha|].
  apply Hp. vm_compute. intros H.
  repeat (apply elem_of_cons in H as [H | H]; [discriminate|]). inversion H.
Defined.

(** X4 at work: the projectile 1 and the asteroid 2 of the game of
    [three_each]. *)
Lemma check_asteroid_hit_cases_witness :
  fits (numProjectiles three_each) (projectiles three_each)
  /\ fits (numAsteroids three_each) (asteroids three_each)
  /\ -128 <= 1 < 128 /\ -128 <= 2 < 128
  /\ snd (check_asteroid_hit 1 2 three_each) = 1
  /\ score (fst (check_asteroid_hit 1 2 three_each)) = score three_each + 1.
Proof.
  assert (Hfa : fits (numAsteroids three_each) (asteroids three_each))
    by (apply fitsb_fits; reflexivity).
  assert (Hfp : fits (numProjectiles three_each) (projectiles three_each))
    by (apply fitsb_fits; reflexivity).
  assert (H1 : -128 <= 1 < 128) by lia. assert (H2 : -128 <= 2 < 128) by lia.
  destruct (check_asteroid_hit_cases three_each 1 2 Hfp Hfa H1 H2) as [_ Hhit].
  destruct (Hhit ltac:(lia) ltac:(lia)) as (Hr & Hs & _).
  split_and!; first [assumption | lia].
Defined.

(** X5 at work: sorting the game of [three_each]. *)
Lemma sort_asteroids_stable_witness :
  fits (numAsteroids three_each) (asteroids three_each)
  /\ sorted_by_y (live_asteroids (sort_asteroids three_each))
  /\ row 1 (live_asteroids (sort_asteroids three_each)) = row 1 (live_asteroids three_each).
Proof.
  assert (Hfa : fits (numAsteroids three_each) (asteroids three_each))
    by (apply fitsb_fits; reflexivity).
  destruct (sort_asteroids_stable three_each Hfa) as (a' & _ & _ & Hs & _ & Hrow).
  split; [exact Hfa|]. split; [exact Hs | exact (Hrow 1)].
Defined.

(** X6 at work: a shot and an advance of the projectiles in the game of
    [three_each]. *)
Lemma steps_on_score_and_lives_witness :
  wf 4 20 three_each /\ -128 <= basePosition three_each < 128
  /\ lives (fst (fire_projectile 4 three_each)) = lives three_each
  /\ exists s', advance_projectiles 20 demo_random 4 three_each = Some s'
                /\ lives s' = lives three_each /\ score three_each <= score s'.
Proof.
  assert (Hb : -128 <= basePosition three_each < 128) by (cbn; lia).
  destruct (steps_on_score_and_lives 4 20 demo_random three_each three_each_wf Hb)
    as (_ & Hf & Hp & _).
  split; [exact three_each_wf|]. split; [exact Hb|].
  split; [exact (proj1 (proj2 (proj2 Hf)))|].
  destruct (advance_projectiles 20 demo_random 4 three_each) as [s'|] eqn:E;
    [|vm_compute in E; discriminate].
  exists s'. destruct (Hp 4%nat s' E) as (_ & _ & Hl & Hs & _).
  split; [reflexivity|]. split; assumption.
Defined.

(** X7 at work: a new game from the blank memory, played with
    [demo_random], has its 20 asteroids. *)
Lemma initialise_game_fresh_witness :
  memory_ok 4 20 blank_memory /\ (4 <= 4)%nat
  /\ exists s, initialise_game 20 demo_random 4 blank_memory = Some s
       /\ basePosition s = 3 /\ numProjectiles s = 0 /\ numAsteroids s = 20.
Proof.
  assert (Hfuel : (4 <= 4)%nat) by lia.
  destruct (initialise_game_fresh 4 20 demo_random 4 blank_memory blank_memory_ok
              demo_random_nonneg Hfuel) as (s & Hinit & Hb & Hn & _).
  split; [exact blank_memory_ok|]. split; [exact Hfuel|].
  exists s. split; [exact Hinit|]. split; [exact Hb|]. split; [exact Hn|].
  assert (Hv : option_map numAsteroids (initialise_game 20 demo_random 4 blank_memory)
               = Some 20) by (vm_compute; reflexivity).
  rewrite Hinit in Hv. injection Hv as Hv. exact Hv.
Defined.

(** X8 at work: the new game of [blank_memory]. *)
Lemma reachable_counts_in_range_witness :
  reachable 4 20 demo_random (default blank_memory (initialise_game 20 demo_random 4 blank_memory))
  /\ 0 <= numAsteroids (default blank_memory (initialise_game 20 demo_random 4 blank_memory)) <= 20
  /\ 0 <= basePosition (default blank_memory (initialise_game 20 demo_random 4 blank_memory)) < FIELD_WIDTH.
Proof.
  assert (Hr : reachable 4 20 demo_random (default blank_memory (initialise_game 20 demo_random 4 blank_memory)))
    by exact new_game_reachable.
  destruct (reachable_counts_in_range 4 20 demo_random _ Hr) as (_ & Ha & _ & _ & _ & _ & Hb).
  split; [exact Hr|]. split; assumption.
Defined.

(** X9 at work: the asteroid number 0 of the new game of [blank_memory]. *)
Lemma reachable_entities_in_field_witness :
  reachable 4 20 demo_random (default blank_memory (initialise_game 20 demo_random 4 blank_memory))
  /\ 0 <= GET_X_POSITION (rd (asteroids (default blank_memory (initialise_game 20 demo_random 4 blank_memory))) 0)
     < FIELD_WIDTH.
Proof.
  assert (Hr : reachable 4 20 demo_random (default blank_memory (initialise_game 20 demo_random 4 blank_memory)))
    by exact new_game_reachable.
  destruct (reachable_entities_in_field 4 20 demo_random _ demo_random_nonneg Hr) as [Ha _].
  split; [exact Hr|].
  assert (Hn : 0 <= 0 < numAsteroids (default blank_memory (initialise_game 20 demo_random 4 blank_memory)))
    by (vm_compute; split; [discriminate | reflexivity]).
  exact (proj1 (Ha 0 Hn)).
Defined.

(** X10 at work: an advance of the projectiles of the game of
    [three_each]. *)
Lemma advance_projectiles_moves_witness :
  wf 4 20 three_each
  /\ exists s' kept,
       advance_projectiles 20 demo_random 4 three_each = Some s'
       /\ live_projectiles s' = map (fun p => p + 1) kept
       /\ kept `sublist_of` live_projectiles three_each.
Proof.
  split; [exact three_each_wf|].
  destruct (advance_projectiles 20 demo_random 4 three_each) as [s'|] eqn:E;
    [|vm_compute in E; discriminate].
  destruct (advance_projectiles_moves 4 20 demo_random 4%nat three_each s' three_each_wf E)
    as (kept & rest & new & Hl & Hsub & _).
  exists s', kept. split; [reflexivity|]. split; assumption.
Defined.

(** X11 at work: an advance of the asteroids of the game of
    [three_each]. *)
Lemma advance_asteroids_moves_witness :
  wf 4 20 three_each /\ -128 <= basePosition three_each < 128
  /\ exists s' kept new,
       advance_asteroids 20 demo_random 4 three_each = Some s'
       /\ live_asteroids s' = map (fun p => p - 1) kept ++ new
       /\ kept `sublist_of` live_asteroids three_each.
Proof.
  assert (Hb : -128 <= basePosition three_each < 128) by (cbn; lia).
  split; [exact three_each_wf|]. split; [exact Hb|].
  destruct (advance_asteroids 20 demo_random 4 three_each) as [s'|] eqn:E;
    [|vm_compute in E; discriminate].
  destruct (advance_asteroids_moves 4 20 demo_random 4%nat three_each s' three_each_wf Hb E)
    as (kept & new & Hl & Hsub & _).
  exists s', kept, new. split; [reflexivity|]. split; assumption.
Defined.

(** X12 at work: two shots in a row in the game of [three_each]. *)
Lemma fire_then_fire_witness :
  wf 4 20 three_each /\ 0 <= basePosition three_each < FIELD_WIDTH
  /\ snd (fire_projectile 4 three_each) = 1
  /\ fire_projectile 4 (fst (fire_projectile 4 three_each))
     = (fst (fire_projectile 4 three_each), 0).
Proof.
  assert (Hb : 0 <= basePosition three_each < FIELD_WIDTH) by (unfold FIELD_WIDTH; cbn; lia).
  assert (Hr : snd (fire_projectile 4 three_each) = 1) by (vm_compute; reflexivity).
  assert (Hc : packed (basePosition three_each) 2 ∉ live_asteroids three_each).
  { vm_compute. intros H.
    repeat (apply elem_of_cons in H as [H | H]; [discriminate|]). inversion H. }
  destruct (fire_then_fire 4 20 three_each three_each_wf Hb Hr Hc) as (_ & _ & _ & _ & _ & H2).
  split; [exact three_each_wf|]. split; [exact Hb|]. split; [exact Hr | exact H2].
Defined.

(** X13 at work: a spawn in the rows 3 to 15 of the game of
    [one_asteroid], played with [demo_random]: the first cell sampled,
    (0,3), is free. *)
Lemma add_asteroid_in_rows_cases_witness :
  fits (numAsteroids one_asteroid) (asteroids one_asteroid)
  /\ Z.of_nat (length (asteroids one_asteroid)) = 20
  /\ 0 <= 3 < FIELD_HEIGHT
  /\ numAsteroids (add_asteroid_in_rows 20 demo_random 3 one_asteroid) = 2.
Proof.
  assert (Hfa : fits (numAsteroids one_asteroid) (asteroids one_asteroid))
    by (apply fitsb_fits; reflexivity).
  assert (Hl : Z.of_nat (length (asteroids one_asteroid)) = 20) by reflexivity.
  assert (Hr : 0 <= 3 < FIELD_HEIGHT) by (unfold FIELD_HEIGHT; lia).
  destruct (add_asteroid_in_rows_cases 20 demo_random 3 one_asteroid Hfa Hl
              demo_random_nonneg Hr) as [_ Hroom].
  split; [exact Hfa|]. split; [exact Hl|]. split; [exact Hr|].
  destruct (Hroom ltac:(cbn; lia)) as [(j & _ & _ & _ & _ & Hn & _) | [_ Hsame]].
  - exact Hn.
  - vm_compute in Hsame. discriminate.
Defined.

(** X14 at work: the base of [blank_memory], at column 0, is drawn without
    a cell to its left. *)
Lemma redraw_base_clipped_witness :
  (4 <= 4)%nat
  /\ 0 <= basePosition blank_memory < FIELD_WIDTH
  /\ option_map trace (redraw_base 4 COLOUR_BASE blank_memory)
     = Some [print_terminal_buffer; set_pixel 0 1 COLOUR_BASE;
             set_pixel 1 0 COLOUR_BASE; set_pixel 0 0 COLOUR_BASE].
Proof.
  assert (Hfuel : (4 <= 4)%nat) by lia.
  assert (Hb : 0 <= basePosition blank_memory < FIELD_WIDTH) by (unfold FIELD_WIDTH; cbn; lia).
  destruct (redraw_base_clipped 4 COLOUR_BASE blank_memory Hfuel Hb) as [-> _].
  split; [exact Hfuel|]. split; [exact Hb | reflexivity].
Defined.

(** X27 at work: the base of [three_each] moved to column 127, where
    nothing that redraws the base returns, and left at column 3, where
    [redraw_base] returns. *)
Lemma redraw_base_returns_iff_witness :
  -128 <= basePosition (set_basePosition 127 three_each) < 128
  /\ wf 4 20 (set_basePosition 127 three_each)
  /\ redraw_base 1000 COLOUR_BASE (set_basePosition 127 three_each) = None
  /\ move_base 1000 MOVE_LEFT (set_basePosition 127 three_each) = None
  /\ advance_asteroids 20 demo_random 1000 (set_basePosition 127 three_each) = None
  /\ -128 <= basePosition three_each < 128
  /\ is_Some (redraw_base 4 COLOUR_BASE three_each).
Proof.
  assert (Hb : -128 <= basePosition (set_basePosition 127 three_each) < 128) by (cbn; lia).
  assert (Hwf : wf 4 20 (set_basePosition 127 three_each)) by (apply wf_check; reflexivity).
  assert (Hb3 : -128 <= basePosition three_each < 128) by (cbn; lia).
  destruct (redraw_base_returns_iff 4 20 demo_random COLOUR_BASE
              (set_basePosition 127 three_each) Hb) as [_ Hhigh].
  destruct (Hhigh ltac:(cbn; lia)) as (Hr & Hm & Ha).
  destruct (redraw_base_returns_iff 4 20 demo_random COLOUR_BASE three_each Hb3) as [Hlow _].
  destruct (Hlow ltac:(cbn; lia) 4%nat ltac:(lia)) as [t Ht].
  split; [exact Hb|]. split; [exact Hwf|]. split; [exact (Hr 1000%nat)|].
  split; [exact (Hm 1000%nat MOVE_LEFT)|]. split; [exact (Ha Hwf 1000%nat)|].
  split; [exact Hb3|]. rewrite Ht. eexists. reflexivity.
Defined.

(** X15 at work: the whole display of the game of [three_each]. *)
Lemma redraw_whole_display_calls_witness :
  (4 <= 4)%nat
  /\ fits (numAsteroids three_each) (asteroids three_each)
  /\ fits (numProjectiles three_each) (projectiles three_each)
  /\ 0 <= basePosition three_each < FIELD_WIDTH
  /\ option_map (fun s => length (trace s)) (redraw_whole_display 4 three_each)
     = Some 12%nat.
Proof.
  assert (Hfuel : (4 <= 4)%nat) by lia.
  assert (Hfa : fits (numAsteroids three_each) (asteroids three_each))
    by (apply fitsb_fits; reflexivity).
  assert (Hfp : fits (numProjectiles three_each) (projectiles three_each))
    by (apply fitsb_fits; reflexivity).
  assert (Hb : 0 <= basePosition three_each < FIELD_WIDTH) by (unfold FIELD_WIDTH; cbn; lia).
  split; [exact Hfuel|]. split; [exact Hfa|]. split; [exact Hfp|]. split; [exact Hb|].
  rewrite (redraw_whole_display_calls 4 three_each Hfuel Hfa Hfp Hb). reflexivity.
Defined.

(** X16 at work: three bytes buffered and flushed. *)
Lemma spi_buffer_round_trip_witness :
  length (Spi.buffer Spi.idle_device) = 255%nat
  /\ (length [1; 2; 3] <= 255)%nat
  /\ Spi.sent (Spi.flush_spi_buffer (fun _ => 0)
                 (Spi.send_all (fun _ => 0) [1; 2; 3] (Spi.start_spi_buffer Spi.idle_device)))
     = [3; 2; 1].
Proof.
  assert (Hl : length (Spi.buffer Spi.idle_device) = 255%nat) by reflexivity.
  assert (Hn : (length [1; 2; 3] <= 255)%nat) by (cbn; lia).
  destruct (spi_buffer_round_trip (fun _ => 0) [1; 2; 3] Spi.idle_device Hl Hn)
    as (_ & _ & _ & Hs & _).
  split; [exact Hl|]. split; [exact Hn|]. rewrite Hs. reflexivity.
Defined.

(** X18 at work: the slave-select pin after a setup with the bit numbers of
    the ATmega324A. *)
Lemma spi_setup_master_pins_witness :
  0 <= Spi.DDRB Spi.sample_registers < 256
  /\ 0 <= Spi.PORTB Spi.sample_registers < 256
  /\ 0 <= 4 < 8
  /\ Z.testbit (Spi.DDRB (Spi.spi_setup_master 6 4 0 1 0 128 Spi.sample_registers)) 4 = true
  /\ Z.testbit (Spi.PORTB (Spi.spi_setup_master 6 4 0 1 0 128 Spi.sample_registers)) 4 = false.
Proof.
  assert (Hd : 0 <= Spi.DDRB Spi.sample_registers < 256) by (cbn; lia).
  assert (Hp : 0 <= Spi.PORTB Spi.sample_registers < 256) by (cbn; lia).
  assert (Hn : 0 <= 4 < 8) by lia.
  destruct (spi_setup_master_pins 6 4 0 1 0 128 Spi.sample_registers 4 Hd Hp Hn)
    as (H1 & H2 & _).
  split; [exact Hd|]. split; [exact Hp|]. split; [exact Hn|]. split; [exact H1 | exact H2].
Defined.

(** X19 at work: with the bit numbers of the ATmega324A, the dividers 8
    and 16 get different clock bits. *)
Lemma spi_setup_master_clock_witness :
  (0 <= 6 < 8 /\ 0 <= 4 < 8 /\ 0 <= 0 < 8 /\ 0 <= 1 < 8 /\ 0 <= 0 < 8)
  /\ (0 <> 1 /\ 0 <> 6 /\ 0 <> 4 /\ 1 <> 6 /\ 1 <> 4)
  /\ Spi.clock_bits 0 1 0 (Spi.spi_setup_master 6 4 0 1 0 8 Spi.sample_registers)
     <> Spi.clock_bits 0 1 0 (Spi.spi_setup_master 6 4 0 1 0 16 Spi.sample_registers).
Proof.
  assert (Hr : 0 <= 6 < 8 /\ 0 <= 4 < 8 /\ 0 <= 0 < 8 /\ 0 <= 1 < 8 /\ 0 <= 0 < 8) by lia.
  assert (Hd : 0 <> 1 /\ 0 <> 6 /\ 0 <> 4 /\ 1 <> 6 /\ 1 <> 4) by lia.
  destruct (spi_setup_master_clock 6 4 0 1 0 Hr Hd Spi.sample_registers) as (_ & Hinj & _).
  split; [exact Hr|]. split; [exact Hd|].
  intros Heq.
  assert (H8 : 8 ∈ Spi.supported_dividers) by (unfold Spi.supported_dividers; rewrite !elem_of_cons;
        repeat first [left; reflexivity | right]).
  assert (H16 : 16 ∈ Spi.supported_dividers) by (unfold Spi.supported_dividers; rewrite !elem_of_cons;
        repeat first [left; reflexivity | right]).
  specialize (Hinj 8 16 H8 H16 Heq). discriminate.
Defined.

(** X20 at work: the cursor sent to column 5 of row 12. *)
Lemma s_move_cursor_length_witness :
  snd (Terminal.s_move_cursor 5 12)
  = Z.of_nat (String.length (fst (Terminal.s_move_cursor 5 12))).
Proof.
  destruct (s_move_cursor_length 5 12) as (_ & _ & _ & H & _).
  apply H; vm_compute; reflexivity.
Defined.

(** X21 at work: the mode 7 asked for on a terminal whose mode is 0. *)
Lemma s_fast_set_display_attr_cached_witness :
  snd (fst (Terminal.s_fast_set_display_attr 7 Terminal.fresh_term))
  = Some (Terminal.ESC +:+ "[" +:+ Terminal.decimal 7 +:+ "m")
  /\ snd (Terminal.s_fast_set_display_attr 7 Terminal.fresh_term) = 4.
Proof.
  destruct (s_fast_set_display_attr_cached 7 Terminal.fresh_term) as (_ & _ & _ & _ & H & _).
  destruct (H ltac:(cbn; lia)) as [Hw Hn]. split; [exact Hw|].
  rewrite (Hn ltac:(lia)). reflexivity.
Defined.

(** X22 at work: the mode 7 asked for on a terminal whose mode is 0. *)
Lemma fast_set_display_attribute_cached_witness :
  Terminal.stdout (Terminal.fast_set_display_attribute 7 Terminal.fresh_term)
  = [Terminal.ESC +:+ "[" +:+ Terminal.decimal 7 +:+ "m"].
Proof.
  destruct (fast_set_display_attribute_cached 7 Terminal.fresh_term) as (_ & _ & _ & H & _).
  exact (H ltac:(cbn; lia)).
Defined.

(** X23 at work: a line over the columns 1 to 3 of row 1. *)
Lemma draw_horizontal_line_output_witness :
  -128 <= 1 < 128 /\ -128 <= 3 < 127
  /\ (Z.to_nat (3 - 1 + 1) < 10)%nat
  /\ option_map (fun t => length (Terminal.stdout t))
       (Terminal.draw_horizontal_line 10 1 1 3 Terminal.fresh_term) = Some 6%nat.
Proof.
  assert (H1 : -128 <= 1 < 128) by lia. assert (H3 : -128 <= 3 < 127) by lia.
  assert (Hf : (Z.to_nat (3 - 1 + 1) < 10)%nat) by (cbn; lia).
  destruct (draw_horizontal_line_output 10 1 1 3 Terminal.fresh_term H1 H1 H3 Hf) as [-> _].
  split; [exact H1|]. split; [exact H3|]. split; [exact Hf | reflexivity].
Defined.

(** X24 at work: a line over the rows 1 to 3 of column 1. *)
Lemma draw_vertical_line_output_witness :
  -128 <= 1 < 128 /\ -128 <= 3 < 128
  /\ (Z.to_nat (3 - 1) < 10)%nat
  /\ option_map (fun t => length (Terminal.stdout t))
       (Terminal.draw_vertical_line 10 1 1 3 Terminal.fresh_term) = Some 8%nat.
Proof.
  assert (H1 : -128 <= 1 < 128) by lia. assert (H3 : -128 <= 3 < 128) by lia.
  assert (Hf : (Z.to_nat (3 - 1) < 10)%nat) by (cbn; lia).
  rewrite (draw_vertical_line_output 10 1 1 3 Terminal.fresh_term H1 H1 H3 Hf).
  split; [exact H1|]. split; [exact H3|]. split; [exact Hf | reflexivity].
Defined.

(** X25 at work: a rectangle of 3 by 2 cells at (1,1), and one that is 200
    cells wide. *)
Lemma draw_rectangle_output_witness :
  0 <= 1 < 256 /\ 0 <= 3 < 256 /\ 0 <= 2 < 256 /\ 0 <= 200 < 256
  /\ option_map (fun t => length (Terminal.stdout t))
       (Terminal.draw_rectangle 10 1 1 3 2 Terminal.fresh_term) = Some 18%nat
  /\ Terminal.draw_rectangle 1000 1 1 200 2 Terminal.fresh_term = None.
Proof.
  assert (H1 : 0 <= 1 < 256) by lia. assert (H3 : 0 <= 3 < 256) by lia.
  assert (H2 : 0 <= 2 < 256) by lia. assert (H200 : 0 <= 200 < 256) by lia.
  destruct (draw_rectangle_output 10 1 1 3 2 Terminal.fresh_term H1 H1 H3 H2) as [Hret _].
  destruct (draw_rectangle_output 1000 1 1 200 2 Terminal.fresh_term H1 H1 H200 H2) as [_ Hdiv].
  split; [exact H1|]. split; [exact H3|]. split; [exact H2|]. split; [exact H200|]. split.
  - rewrite (Hret ltac:(lia) ltac:(lia) ltac:(cbn; lia) ltac:(cbn; lia)). reflexivity.
  - apply Hdiv. left. lia.
Defined.

(** X26 at work: the new game of [blank_memory]. *)
Lemma reachable_base_not_hit_witness :
  reachable 4 20 demo_random (default blank_memory (initialise_game 20 demo_random 4 blank_memory))
  /\ check_all_base_hits (default blank_memory (initialise_game 20 demo_random 4 blank_memory))
     = default blank_memory (initialise_game 20 demo_random 4 blank_memory).
Proof.
  assert (Hr : reachable 4 20 demo_random (default blank_memory (initialise_game 20 demo_random 4 blank_memory)))
    by exact new_game_reachable.
  destruct (reachable_base_not_hit 4 20 demo_random _ demo_random_nonneg Hr)
    as (_ & _ & _ & _ & Hsame).
  split; [exact Hr | exact Hsame].
Defined.

(** X28 at work: every step returns from the new game of [blank_memory],
    with 21 units of fuel. *)
Lemma reachable_steps_return_witness :
  reachable 4 20 demo_random
    (default blank_memory (initialise_game 20 demo_random 4 blank_memory))
  /\ (Z.to_nat 4 < 21)%nat /\ (Z.to_nat 20 < 21)%nat /\ (4 <= 21)%nat
  /\ is_Some (advance_asteroids 20 demo_random 21
                (default blank_memory (initialise_game 20 demo_random 4 blank_memory))).
Proof.
  assert (Hp : (Z.to_nat 4 < 21)%nat) by (cbn; lia).
  assert (Ha : (Z.to_nat 20 < 21)%nat) by (cbn; lia).
  assert (Hf : (4 <= 21)%nat) by lia.
  destruct (reachable_steps_return 4 20 demo_random _ 21 new_game_reachable Hp Ha Hf)
    as (_ & _ & _ & s' & Hstep & _).
  split; [exact new_game_reachable|]. split; [exact Hp|]. split; [exact Ha|].
  split; [exact Hf|]. rewrite Hstep. eexists. reflexivity.
Defined.
